(** * Jotaku: local store, version history, sync engine and remote store

    A shallow embedding of the storage and synchronisation core of Jotaku
    (internal/db/notes.go, internal/db/server.go, internal/api/sync.go,
    internal/server/handlers.go and the sync part of internal/ui/model.go).

    SQL tables are lists of rows in rowid order; every store method is one
    state transformer on the table it names.  What the program takes from
    its environment is an explicit argument: the clock ([now]), a minted
    UUID ([fresh]), the replies of the remote end (a [Client]), the JSON
    codec of Go's encoding/json (a [JSON] instance).  Storage I/O failures
    are outside the model: a statement is about runs in which SQLite
    executes what it is asked. *)

From Stdlib Require Import ZArith List String Ascii Bool Lia.
From Stdlib Require Import Permutation Sorted DecimalString.
Import ListNotations.

Open Scope string_scope.
Open Scope list_scope.
Open Scope Z_scope.

(** ** Go runtime pieces *)

(** [time.Time]: an instant, in nanoseconds since the Unix epoch.  A row
    holds the instant that was written.  What SQLite keeps is the text the
    driver made of it, and a query reads, compares and sorts that text:
    [sqlite.reads_back] and [sqlite.zone_span] say where that agrees with
    the instants. *)
Definition Time := Z.

(** [time.Unix(sec, 0)]. *)
Definition time_Unix (sec : Z) : Time := sec * 1000000000.

(** [t.Unix()]: whole seconds, rounded down. *)
Definition Unix (t : Time) : Z := t / 1000000000.

(** [t.After(u)]. *)
Definition After (t u : Time) : bool := u <? t.

(** [time.Time{}], the zero instant: the first of January of year 1, UTC. *)
Definition zero_Time : Time := time_Unix (-62135596800).

(** Go's [int] and [int64]: 64-bit two's complement. *)
Definition wrap64 (x : Z) : Z := (x + 2 ^ 63) mod 2 ^ 64 - 2 ^ 63.

(** A Go [[]string]: [None] is the nil slice. *)
Definition strings := option (list string).

(** Go errors, as far as the modelled code tells them apart. *)
Inductive error : Type :=
| sql_ErrNoRows
| transport_error (msg : string).

(** encoding/json on [[]string], both directions.  [json_Unmarshal] gives
    the decoded value (what the target holds afterwards, starting from nil)
    and whether decoding succeeded. *)
Class JSON : Type := {
  json_Marshal : strings -> string;
  json_Unmarshal : string -> strings * bool
}.

(** *** crypto/sha256 and encoding/hex *)

Module sha256.

Definition w32 (x : Z) : Z := x mod 2 ^ 32.

Definition rotr (n x : Z) : Z :=
  Z.lor (Z.shiftr x n) (w32 (Z.shiftl x (32 - n))).

Definition Ch (x y z : Z) : Z :=
  Z.lxor (Z.land x y) (Z.land (Z.lxor x (2 ^ 32 - 1)) z).

Definition Maj (x y z : Z) : Z :=
  Z.lxor (Z.lxor (Z.land x y) (Z.land x z)) (Z.land y z).

Definition Sigma0 (x : Z) : Z :=
  Z.lxor (Z.lxor (rotr 2 x) (rotr 13 x)) (rotr 22 x).

Definition Sigma1 (x : Z) : Z :=
  Z.lxor (Z.lxor (rotr 6 x) (rotr 11 x)) (rotr 25 x).

Definition sigma0 (x : Z) : Z :=
  Z.lxor (Z.lxor (rotr 7 x) (rotr 18 x)) (Z.shiftr x 3).

Definition sigma1 (x : Z) : Z :=
  Z.lxor (Z.lxor (rotr 17 x) (rotr 19 x)) (Z.shiftr x 10).

(** The primes below 312: the first sixty-four. *)
Definition is_prime (n : Z) : bool :=
  forallb (fun k => negb (n mod (Z.of_nat k) =? 0)) (seq 2 (Z.to_nat n - 2)).

Definition primes : list Z :=
  filter is_prime (map Z.of_nat (seq 2 310)).

(** The integer cube root, bit by bit from bit [k - 1] down. *)
Fixpoint cube_root (k : nat) (n x : Z) : Z :=
  match k with
  | O => x
  | S k' =>
      let y := x + 2 ^ Z.of_nat k' in
      if y * y * y <=? n then cube_root k' n y else cube_root k' n x
  end.

(** The round constants: the first 32 bits of the fractional parts of the
    cube roots of the primes. *)
Definition K : list Z :=
  Eval vm_compute in map (fun p => w32 (cube_root 40 (p * 2 ^ 96) 0)) primes.

(** The initial hash value: the same of the square roots of the first
    eight primes. *)
Definition H0 : list Z :=
  Eval vm_compute in map (fun p => w32 (Z.sqrt (p * 2 ^ 64))) (firstn 8 primes).

(** Big-endian bytes of [x], [n] of them. *)
Fixpoint be_bytes (n : nat) (x : Z) : list Z :=
  match n with
  | O => []
  | S n' => Z.shiftr x (8 * Z.of_nat n') mod 256 :: be_bytes n' x
  end.

(** The message followed by 0x80, zeros, and its bit length on 8 bytes: a
    multiple of 64 bytes. *)
Definition pad (msg : list Z) : list Z :=
  let l := Z.of_nat (List.length msg) in
  msg ++ [0x80] ++ repeat 0 (Z.to_nat ((55 - l) mod 64)) ++ be_bytes 8 (8 * l).

(** Bytes to 32-bit big-endian words. *)
Fixpoint words (bs : list Z) : list Z :=
  match bs with
  | a :: b :: c :: d :: bs' =>
      (a * 2 ^ 24 + b * 2 ^ 16 + c * 2 ^ 8 + d) :: words bs'
  | _ => []
  end.

(** The message schedule: [n] further words from the window of the last
    sixteen. *)
Fixpoint extend (n : nat) (win : list Z) : list Z :=
  match n with
  | O => []
  | S n' =>
      let w := w32 (sigma1 (nth 14 win 0) + nth 9 win 0
                    + sigma0 (nth 1 win 0) + nth 0 win 0) in
      w :: extend n' (tl win ++ [w])
  end.

Definition schedule (block : list Z) : list Z := block ++ extend 48 block.

Definition round (s : list Z) (kw : Z * Z) : list Z :=
  match s with
  | [a; b; c; d; e; f; g; h] =>
      let t1 := h + Sigma1 e + Ch e f g + fst kw + snd kw in
      let t2 := Sigma0 a + Maj a b c in
      [w32 (t1 + t2); a; b; c; w32 (d + t1); e; f; g]
  | _ => s
  end.

Definition compress (h : list Z) (block : list Z) : list Z :=
  let s := fold_left round (combine K (schedule block)) h in
  map (fun p => w32 (fst p + snd p)) (combine h s).

(** One 16-word block at a time; [n] bounds the number of blocks. *)
Fixpoint blocks (n : nat) (h : list Z) (ws : list Z) : list Z :=
  match n with
  | O => h
  | S n' =>
      match ws with
      | [] => h
      | _ => blocks n' (compress h (firstn 16 ws)) (skipn 16 ws)
      end
  end.

Definition bytes_of_string (s : string) : list Z :=
  map (fun c => Z.of_N (N_of_ascii c)) (list_ascii_of_string s).

(** [sha256.Sum256]: the 32 bytes of the digest. *)
Definition Sum256 (data : string) : list Z :=
  let ws := words (pad (bytes_of_string data)) in
  flat_map (be_bytes 4) (blocks (List.length ws) H0 ws).

End sha256.

Module hex.

Definition digit (x : Z) : ascii :=
  match String.get (Z.to_nat x) "0123456789abcdef" with
  | Some c => c
  | None => "0"%char
  end.

(** [hex.EncodeToString]: two lowercase digits per byte. *)
Fixpoint EncodeToString (bs : list Z) : string :=
  match bs with
  | [] => ""
  | b :: bs' => String (digit (b / 16)) (String (digit (b mod 16)) (EncodeToString bs'))
  end.

End hex.

(** *** SQLite operators used by the queries *)

Module sqlite.

Definition byte (c : ascii) : Z := Z.of_N (N_of_ascii c).

(** ASCII case folding, as LIKE applies it: only A-Z change. *)
Definition fold_case (c : ascii) : ascii :=
  if (65 <=? byte c) && (byte c <=? 90)
  then ascii_of_N (N_of_ascii c + 32)
  else c.

Fixpoint skip_cont (s : string) : string :=
  match s with
  | String c s' =>
      if (128 <=? byte c) && (byte c <? 192) then skip_cont s' else s
  | EmptyString => s
  end.

(** One UTF-8 character off the front: a byte, and after a lead byte its
    continuation bytes. *)
Definition skip_char (s : string) : option string :=
  match s with
  | EmptyString => None
  | String c s' => Some (if 192 <=? byte c then skip_cont s' else s')
  end.

Definition percent : ascii := "%"%char.
Definition underscore : ascii := "_"%char.

(** What [%] does: the rest of the pattern, tried at the text and after
    every character of it.  [n] bounds the characters; the length of the
    text is enough. *)
Fixpoint star (rest : string -> bool) (n : nat) (text : string) : bool :=
  rest text
  || match n with
     | O => false
     | S n' =>
         match skip_char text with
         | Some text' => star rest n' text'
         | None => false
         end
     end.

(** [text LIKE pat], no ESCAPE clause, default settings: [%] stands for
    any run of characters, [_] for one character, any other byte for
    itself up to ASCII case.  Texts hold no NUL byte; the engine's limit on
    the length of a pattern is not modelled. *)
Fixpoint like (pat : string) (text : string) : bool :=
  match pat with
  | EmptyString =>
      match text with EmptyString => true | _ => false end
  | String p pat' =>
      if Ascii.eqb p percent then star (like pat') (String.length text) text
      else if Ascii.eqb p underscore then
        match skip_char text with
        | Some text' => like pat' text'
        | None => false
        end
      else
        match text with
        | String c text' =>
            Ascii.eqb (fold_case p) (fold_case c) && like pat' text'
        | EmptyString => false
        end
  end.

(** [ORDER BY]: [le x y] says that [x] may stand before [y]; rows that may
    stand either way keep their table order. *)
Fixpoint insert_by {A : Type} (le : A -> A -> bool) (x : A) (l : list A)
    : list A :=
  match l with
  | [] => [x]
  | y :: l' => if le x y then x :: l else y :: insert_by le x l'
  end.

Definition order_by {A : Type} (le : A -> A -> bool) (l : list A) : list A :=
  fold_right (insert_by le) [] l.

(** [ORDER BY key DESC] on a timestamp or integer column.  On a timestamp
    column the key is the instant: this is the order of the stored texts
    where those compare as the instants do (see [zone_span] below). *)
Definition order_by_desc {A : Type} (key : A -> Z) (l : list A) : list A :=
  order_by (fun x y => key y <=? key x) l.

(** [ORDER BY key ASC] on a text column (binary collation). *)
Definition order_by_text {A : Type} (key : A -> string) (l : list A) : list A :=
  order_by (fun x y => String.leb (key x) (key y)) l.

(** [COALESCE(MAX(x), 0)] over the selected rows. *)
Definition max_or_zero (l : list Z) : Z :=
  match l with
  | [] => 0
  | x :: l' => fold_left Z.max l' x
  end.

(** A [DATETIME] column written from a [time.Time] holds the wall clock of
    the value in its zone followed by the offset of the zone, and the scan
    parses that text again.  A text whose year has four digits gives back
    the instant that was written; from the year 10000 on the text does not
    parse and the scan leaves the zero time.  [reads_back] takes the
    instants from 1970 up to a week before the year 10000: they keep a
    four-digit year under every offset. *)
Definition reads_back (t : Time) : bool :=
  (0 <=? t) && (t <? time_Unix 253401696000).


End sqlite.

(** ** internal/db/models.go *)

Inductive SyncStatus : Type :=
| SyncStatusLocal
| SyncStatusSynced
| SyncStatusPending.

Module Note.
Record t : Type := mk {
  ID : Z;
  Title : string;
  Content : string;
  Tags : strings;
  CreatedAt : Time;
  UpdatedAt : Time;
  ServerID : string;
  SyncStatus : SyncStatus;
  Deleted : bool;
  Password : string;
  ParentFolder : Z
}.
End Note.

Module Folder.
Record t : Type := mk {
  ID : Z;
  Title : string;
  Password : string;
  ParentFolder : Z;
  CreatedAt : Time;
  UpdatedAt : Time;
  Deleted : bool
}.
End Folder.

Module NoteListItem.
Record t : Type := mk {
  ID : Z;
  Title : string;
  UpdatedAt : Time;
  SyncStatus : SyncStatus;
  Type_ : string
}.
End NoteListItem.

Module NoteVersion.
Record t : Type := mk {
  ID : Z;
  NoteID : Z;
  Title : string;
  Content : string;
  Tags : strings;
  Hash : string;
  CreatedAt : Time;
  VersionNum : Z
}.
End NoteVersion.

(** ** The local database (schema of [migrate], methods of notes.go) *)

(** A row of [notes].  [tags] is the JSON text of the column, a NULL read
    as the empty text (the queries treat the two alike); [sync_status] and
    [deleted] are never NULL in a row written by this program (every INSERT
    names them), so the [COALESCE]s of the queries do not show. *)
Module NoteRow.
Record t : Type := mk {
  id : Z;
  title : string;
  content : string;
  tags : string;
  password : option string;
  parent_folder_id : option Z;
  created_at : Time;
  updated_at : Time;
  server_id : option string;
  sync_status : SyncStatus;
  deleted : bool
}.
End NoteRow.

(** A row of [folders]: no [sync_status], no [server_id] column. *)
Module FolderRow.
Record t : Type := mk {
  id : Z;
  title : string;
  password : option string;
  parent_folder_id : option Z;
  created_at : Time;
  updated_at : Time;
  deleted : bool
}.
End FolderRow.

(** A row of [note_versions]. *)
Module VersionRow.
Record t : Type := mk {
  id : Z;
  note_id : Z;
  title : string;
  content : string;
  tags : string;
  hash : option string;
  version_num : Z;
  created_at : Time
}.
End VersionRow.

Module DB.

(** The three tables, each with the AUTOINCREMENT counter SQLite keeps for
    it (the largest rowid ever used). *)
Record t : Type := mk {
  notes : list NoteRow.t;
  notes_seq : Z;
  folders : list FolderRow.t;
  folders_seq : Z;
  note_versions : list VersionRow.t;
  note_versions_seq : Z
}.

(** A database just migrated. *)
Definition empty : t := mk [] 0 [] 0 [] 0.

Definition set_notes (d : t) (ns : list NoteRow.t) : t :=
  mk ns (notes_seq d) (folders d) (folders_seq d)
     (note_versions d) (note_versions_seq d).

Definition set_folders (d : t) (fs : list FolderRow.t) : t :=
  mk (notes d) (notes_seq d) fs (folders_seq d)
     (note_versions d) (note_versions_seq d).

(** The rowid an AUTOINCREMENT table gives its next row. *)
Definition next_rowid (seq : Z) (ids : list Z) : Z :=
  Z.max seq (sqlite.max_or_zero ids) + 1.

Definition option_string_eqb (o : option string) (s : string) : bool :=
  match o with
  | Some x => String.eqb x s
  | None => false
  end.

Definition option_Z_eqb (o : option Z) (z : Z) : bool :=
  match o with
  | Some x => x =? z
  | None => false
  end.

Definition is_none {A : Type} (o : option A) : bool :=
  match o with
  | Some _ => false
  | None => true
  end.

(** [sql.NullString] scanned into a string field when valid. *)
Definition string_or_empty (o : option string) : string :=
  match o with
  | Some x => x
  | None => ""
  end.

Definition list_item (type_ : string) (r : NoteRow.t) : NoteListItem.t :=
  NoteListItem.mk (NoteRow.id r) (NoteRow.title r) (NoteRow.updated_at r)
                  (NoteRow.sync_status r) type_.

Definition ListNotes (d : t) : list NoteListItem.t :=
  map (list_item "")
      (sqlite.order_by_desc NoteRow.updated_at
         (filter (fun r => negb (NoteRow.deleted r)
                           && is_none (NoteRow.parent_folder_id r))
                 (notes d))).

Definition ListNotesInFolder (d : t) (folderID : Z) : list NoteListItem.t :=
  map (list_item "note")
      (sqlite.order_by_desc NoteRow.updated_at
         (filter (fun r => option_Z_eqb (NoteRow.parent_folder_id r) folderID
                           && negb (NoteRow.deleted r))
                 (notes d))).

Definition find_note (d : t) (id : Z) : option NoteRow.t :=
  find (fun r => NoteRow.id r =? id) (notes d).

Section WithJSON.
Context {codec : JSON}.

(** The scan of [GetNote]: a tags text that does not decode gives the empty
    slice. *)
Definition scan_note (r : NoteRow.t) : Note.t :=
  Note.mk (NoteRow.id r) (NoteRow.title r) (NoteRow.content r)
          (if String.eqb (NoteRow.tags r) "" then None
           else let (v, ok) := json_Unmarshal (NoteRow.tags r) in
                if ok then v else Some [])
          (NoteRow.created_at r) (NoteRow.updated_at r)
          (string_or_empty (NoteRow.server_id r))
          (NoteRow.sync_status r) (NoteRow.deleted r) "" 0.

(** The scan of [GetPendingNotes] and [GetNoteByServerID]: the decoding
    error is dropped. *)
Definition scan_note_lax (r : NoteRow.t) : Note.t :=
  Note.mk (NoteRow.id r) (NoteRow.title r) (NoteRow.content r)
          (if String.eqb (NoteRow.tags r) "" then None
           else fst (json_Unmarshal (NoteRow.tags r)))
          (NoteRow.created_at r) (NoteRow.updated_at r)
          (string_or_empty (NoteRow.server_id r))
          (NoteRow.sync_status r) (NoteRow.deleted r) "" 0.

Definition GetNote (d : t) (id : Z) : option Note.t :=
  option_map scan_note (find_note d id).

Definition CreateNote (now : Time) (d : t) (title content : string)
    (tags : strings) : t * Note.t :=
  let id := next_rowid (notes_seq d) (map NoteRow.id (notes d)) in
  (mk (notes d ++ [NoteRow.mk id title content (json_Marshal tags) None None
                              now now None SyncStatusPending false])
      id (folders d) (folders_seq d) (note_versions d) (note_versions_seq d),
   Note.mk id title content tags now now "" SyncStatusPending false "" 0).

Definition CreateNoteInFolder (now : Time) (d : t) (title content : string)
    (tags : strings) (folderID : Z) : t * Note.t :=
  let id := next_rowid (notes_seq d) (map NoteRow.id (notes d)) in
  let parentID := if 0 <? folderID then Some folderID else None in
  (mk (notes d ++ [NoteRow.mk id title content (json_Marshal tags) None parentID
                              now now None SyncStatusPending false])
      id (folders d) (folders_seq d) (note_versions d) (note_versions_seq d),
   Note.mk id title content tags now now "" SyncStatusPending false "" folderID).

Definition UpdateNote (now : Time) (d : t) (id : Z) (title content : string)
    (tags : strings) : t :=
  set_notes d
    (map (fun r =>
            if NoteRow.id r =? id
            then NoteRow.mk (NoteRow.id r) title content (json_Marshal tags)
                   (NoteRow.password r) (NoteRow.parent_folder_id r)
                   (NoteRow.created_at r) now (NoteRow.server_id r)
                   SyncStatusPending (NoteRow.deleted r)
            else r)
         (notes d)).

Definition GetPendingNotes (d : t) : list Note.t :=
  map scan_note_lax
      (filter (fun r => match NoteRow.sync_status r with
                        | SyncStatusPending => true
                        | _ => false
                        end)
              (notes d)).

Definition GetNoteByServerID (d : t) (serverID : string) : option Note.t :=
  option_map scan_note_lax
    (find (fun r => option_string_eqb (NoteRow.server_id r) serverID) (notes d)).

End WithJSON.

(** Soft delete: the row stays, flagged and pending. *)
Definition DeleteNote (now : Time) (d : t) (id : Z) : t :=
  set_notes d
    (map (fun r =>
            if NoteRow.id r =? id
            then NoteRow.mk (NoteRow.id r) (NoteRow.title r) (NoteRow.content r)
                   (NoteRow.tags r) (NoteRow.password r)
                   (NoteRow.parent_folder_id r) (NoteRow.created_at r) now
                   (NoteRow.server_id r) SyncStatusPending true
            else r)
         (notes d)).

Definition quote : string := String (ascii_of_nat 34) "".

(** The WHERE clause [SearchNotes] builds. *)
Definition search_where (query : string) (tags : list string) (r : NoteRow.t)
    : bool :=
  negb (NoteRow.deleted r)
  && (if String.eqb query "" then true
      else sqlite.like ("%" ++ query ++ "%") (NoteRow.title r)
           || sqlite.like ("%" ++ query ++ "%") (NoteRow.content r))
  && forallb (fun tag =>
                sqlite.like ("%" ++ quote ++ tag ++ quote ++ "%") (NoteRow.tags r))
             tags.

Definition SearchNotes (d : t) (query : string) (tags : list string)
    : list NoteListItem.t :=
  map (list_item "")
      (sqlite.order_by_desc NoteRow.updated_at
         (filter (search_where query tags) (notes d))).

(** *** Sync-related functions *)

Definition SetNoteSynced (d : t) (id : Z) (serverID : string) : t :=
  set_notes d
    (map (fun r =>
            if NoteRow.id r =? id
            then NoteRow.mk (NoteRow.id r) (NoteRow.title r) (NoteRow.content r)
                   (NoteRow.tags r) (NoteRow.password r)
                   (NoteRow.parent_folder_id r) (NoteRow.created_at r)
                   (NoteRow.updated_at r) (Some serverID) SyncStatusSynced
                   (NoteRow.deleted r)
            else r)
         (notes d)).

Definition UpsertFromServer {codec : JSON} (d : t) (serverID title content tags : string)
    (createdAt updatedAt : Time) : t :=
  match GetNoteByServerID d serverID with
  | Some existing =>
      if After updatedAt (Note.UpdatedAt existing)
      then set_notes d
             (map (fun r =>
                     if option_string_eqb (NoteRow.server_id r) serverID
                     then NoteRow.mk (NoteRow.id r) title content tags
                            (NoteRow.password r) (NoteRow.parent_folder_id r)
                            (NoteRow.created_at r) updatedAt
                            (NoteRow.server_id r) SyncStatusSynced
                            (NoteRow.deleted r)
                     else r)
                  (notes d))
      else d
  | None =>
      let id := next_rowid (notes_seq d) (map NoteRow.id (notes d)) in
      mk (notes d ++ [NoteRow.mk id title content tags None None
                                 createdAt updatedAt (Some serverID)
                                 SyncStatusSynced false])
         id (folders d) (folders_seq d) (note_versions d) (note_versions_seq d)
  end.

(** [DELETE FROM notes WHERE id = ? AND deleted = 1]. *)
Definition PermanentlyDeleteSynced (d : t) (id : Z) : t :=
  set_notes d
    (filter (fun r => negb ((NoteRow.id r =? id) && NoteRow.deleted r))
            (notes d)).

(** *** Version control functions *)

(** The short hash of a content: the first 12 characters of the hex form of
    its SHA-256 digest. *)
Definition hashStr (content : string) : string :=
  substring 0 12 (hex.EncodeToString (sha256.Sum256 content)).

Definition versions_of (d : t) (noteID : Z) : list VersionRow.t :=
  filter (fun v => VersionRow.note_id v =? noteID) (note_versions d).

(** [ORDER BY version_num DESC LIMIT 1] over the versions of a note. *)
Definition last_version (d : t) (noteID : Z) : option VersionRow.t :=
  hd_error (sqlite.order_by_desc VersionRow.version_num (versions_of d noteID)).

Definition scan_version {codec : JSON} (v : VersionRow.t) : NoteVersion.t :=
  NoteVersion.mk (VersionRow.id v) (VersionRow.note_id v) (VersionRow.title v)
                 (VersionRow.content v)
                 (fst (json_Unmarshal (VersionRow.tags v)))
                 (string_or_empty (VersionRow.hash v))
                 (VersionRow.created_at v) (VersionRow.version_num v).

Definition SaveNoteVersion {codec : JSON} (now : Time) (d : t) (noteID : Z)
    (title content : string) (tags : strings) : t :=
  let hashStr := hashStr content in
  let same :=
    match last_version d noteID with
    | Some v => option_string_eqb (VersionRow.hash v) hashStr
    | None => false
    end in
  if same then d
  else
    let maxVersion :=
      sqlite.max_or_zero (map VersionRow.version_num (versions_of d noteID)) in
    let id := next_rowid (note_versions_seq d)
                         (map VersionRow.id (note_versions d)) in
    mk (notes d) (notes_seq d) (folders d) (folders_seq d)
       (note_versions d
        ++ [VersionRow.mk id noteID title content (json_Marshal tags)
                          (Some hashStr) (wrap64 (maxVersion + 1)) now])
       id.

Definition GetNoteVersions {codec : JSON} (d : t) (noteID : Z)
    : list NoteVersion.t :=
  map scan_version
      (sqlite.order_by_desc VersionRow.version_num (versions_of d noteID)).

Definition GetNoteVersion {codec : JSON} (d : t) (versionID : Z)
    : error + NoteVersion.t :=
  match find (fun v => VersionRow.id v =? versionID) (note_versions d) with
  | Some v => inr (scan_version v)
  | None => inl sql_ErrNoRows
  end.

Definition RestoreNoteVersion {codec : JSON} (now : Time) (d : t)
    (noteID versionID : Z) : t * option error :=
  match GetNoteVersion d versionID with
  | inl err => (d, Some err)
  | inr version =>
      (set_notes d
         (map (fun r =>
                 if NoteRow.id r =? noteID
                 then NoteRow.mk (NoteRow.id r) (NoteVersion.Title version)
                        (NoteVersion.Content version)
                        (json_Marshal (NoteVersion.Tags version))
                        (NoteRow.password r) (NoteRow.parent_folder_id r)
                        (NoteRow.created_at r) now (NoteRow.server_id r)
                        SyncStatusPending (NoteRow.deleted r)
                 else r)
              (notes d)),
       None)
  end.

(** *** Folder operations and passwords *)

Definition CreateFolder (now : Time) (d : t) (title : string) (parentID : Z)
    : t * Z :=
  let id := next_rowid (folders_seq d) (map FolderRow.id (folders d)) in
  (mk (notes d) (notes_seq d)
      (folders d ++ [FolderRow.mk id title None (Some parentID) now now false])
      id (note_versions d) (note_versions_seq d),
   id).

Definition GetFolder (d : t) (id : Z) : error + Folder.t :=
  match find (fun f => FolderRow.id f =? id) (folders d) with
  | Some f =>
      inr (Folder.mk (FolderRow.id f) (FolderRow.title f)
                     (string_or_empty (FolderRow.password f))
                     (match FolderRow.parent_folder_id f with
                      | Some p => p
                      | None => 0
                      end)
                     (FolderRow.created_at f) (FolderRow.updated_at f)
                     (FolderRow.deleted f))
  | None => inl sql_ErrNoRows
  end.

Definition SetNotePassword (now : Time) (d : t) (noteID : Z)
    (password : string) : t :=
  set_notes d
    (map (fun r =>
            if NoteRow.id r =? noteID
            then NoteRow.mk (NoteRow.id r) (NoteRow.title r) (NoteRow.content r)
                   (NoteRow.tags r) (Some password)
                   (NoteRow.parent_folder_id r) (NoteRow.created_at r) now
                   (NoteRow.server_id r) (NoteRow.sync_status r)
                   (NoteRow.deleted r)
            else r)
         (notes d)).

Definition SetFolderPassword (now : Time) (d : t) (folderID : Z)
    (password : string) : t :=
  set_folders d
    (map (fun f =>
            if FolderRow.id f =? folderID
            then FolderRow.mk (FolderRow.id f) (FolderRow.title f)
                   (Some password) (FolderRow.parent_folder_id f)
                   (FolderRow.created_at f) now (FolderRow.deleted f)
            else f)
         (folders d)).

Definition DeleteFolder (now : Time) (d : t) (id : Z) : t :=
  set_folders d
    (map (fun f =>
            if FolderRow.id f =? id
            then FolderRow.mk (FolderRow.id f) (FolderRow.title f)
                   (FolderRow.password f) (FolderRow.parent_folder_id f)
                   (FolderRow.created_at f) now true
            else f)
         (folders d)).

(** The scan of a row of [folders], as [GetFolder] and [ListFolders] do
    it. *)
Definition scan_folder (f : FolderRow.t) : Folder.t :=
  Folder.mk (FolderRow.id f) (FolderRow.title f)
            (string_or_empty (FolderRow.password f))
            (match FolderRow.parent_folder_id f with
             | Some p => p
             | None => 0
             end)
            (FolderRow.created_at f) (FolderRow.updated_at f)
            (FolderRow.deleted f).

(** [WHERE (parent_folder_id = ? OR (parent_folder_id IS NULL AND ? = 0))
    AND deleted = 0 ORDER BY title ASC]. *)
Definition ListFolders (d : t) (parentID : Z) : list Folder.t :=
  map scan_folder
      (sqlite.order_by_text FolderRow.title
         (filter (fun f =>
                    (option_Z_eqb (FolderRow.parent_folder_id f) parentID
                     || (is_none (FolderRow.parent_folder_id f) && (parentID =? 0)))
                    && negb (FolderRow.deleted f))
                 (folders d))).

(** [SELECT COUNT( * )] over the rows [ListNotesInFolder] selects. *)
Definition CountNotesInFolder (d : t) (folderID : Z) : Z :=
  Z.of_nat
    (List.length
       (filter (fun r => option_Z_eqb (NoteRow.parent_folder_id r) folderID
                         && negb (NoteRow.deleted r))
               (notes d))).

End DB.

(** ** The remote store (internal/db/server.go) *)

(** A row of the server's [notes], as [ServerNote] holds it.  The column
    [parent_folder_id] is NULL exactly when the field is empty: every write
    maps the empty text to NULL and every read maps NULL back. *)
Module ServerNote.
Record t : Type := mk {
  ID : string;
  UserID : Z;
  Title : string;
  Content : string;
  Tags : string;
  ParentFolderID : string;
  CreatedAt : Time;
  UpdatedAt : Time
}.
End ServerNote.

Module ServerFolder.
Record t : Type := mk {
  ID : string;
  UserID : Z;
  Title : string;
  ParentFolderID : string;
  CreatedAt : Time;
  UpdatedAt : Time
}.
End ServerFolder.

Module ServerNoteVersion.
Record t : Type := mk {
  ID : string;
  NoteID : string;
  UserID : Z;
  Title : string;
  Content : string;
  Tags : string;
  Hash : string;
  VersionNum : Z;
  CreatedAt : Time
}.
End ServerNoteVersion.

Module ServerDB.

Record t : Type := mk {
  notes : list ServerNote.t;
  folders : list ServerFolder.t;
  note_versions : list ServerNoteVersion.t
}.

Definition empty : t := mk [] [] [].

(** [uuid.New().String()] is the argument [fresh]. *)
Definition mint (fresh id : string) : string :=
  if String.eqb id "" then fresh else id.

(** *** Note operations *)

Definition ListNotesByUser (d : t) (userID : Z) : list ServerNote.t :=
  sqlite.order_by_desc ServerNote.UpdatedAt
    (filter (fun n => ServerNote.UserID n =? userID) (notes d)).

Definition GetNote (d : t) (id : string) (userID : Z) : option ServerNote.t :=
  find (fun n => String.eqb (ServerNote.ID n) id && (ServerNote.UserID n =? userID))
       (notes d).

(** [INSERT ... ON CONFLICT(id) DO UPDATE SET ... WHERE user_id = ?]: the
    WHERE reads the row already stored. *)
Definition UpsertNote (fresh : string) (d : t) (userID : Z)
    (id title content tags parentFolderID : string) (createdAt updatedAt : Time)
    : t * ServerNote.t :=
  let id := mint fresh id in
  let stored :=
    if existsb (fun n => String.eqb (ServerNote.ID n) id) (notes d)
    then map (fun n =>
                if String.eqb (ServerNote.ID n) id && (ServerNote.UserID n =? userID)
                then ServerNote.mk (ServerNote.ID n) (ServerNote.UserID n)
                       title content tags parentFolderID
                       (ServerNote.CreatedAt n) updatedAt
                else n)
             (notes d)
    else notes d ++ [ServerNote.mk id userID title content tags parentFolderID
                                   createdAt updatedAt] in
  (mk stored (folders d) (note_versions d),
   ServerNote.mk id userID title content tags parentFolderID createdAt updatedAt).

Definition DeleteNote (d : t) (id : string) (userID : Z) : t :=
  mk (filter (fun n => negb (String.eqb (ServerNote.ID n) id
                             && (ServerNote.UserID n =? userID)))
             (notes d))
     (folders d) (note_versions d).

(** [updated_at > ?] on the instants: the selection SQLite makes on the
    stored texts where those compare as the instants do (see
    [sqlite.zone_span]). *)
Definition GetNotesSince (d : t) (userID : Z) (since : Time)
    : list ServerNote.t :=
  sqlite.order_by_desc ServerNote.UpdatedAt
    (filter (fun n => (ServerNote.UserID n =? userID)
                      && (since <? ServerNote.UpdatedAt n))
            (notes d)).

(** *** Folder operations *)

Definition ListFoldersByUser (d : t) (userID : Z) : list ServerFolder.t :=
  sqlite.order_by_text ServerFolder.Title
    (filter (fun f => ServerFolder.UserID f =? userID) (folders d)).

Definition GetFolder (d : t) (id : string) (userID : Z)
    : option ServerFolder.t :=
  find (fun f => String.eqb (ServerFolder.ID f) id
                 && (ServerFolder.UserID f =? userID))
       (folders d).

Definition UpsertFolder (fresh : string) (d : t) (userID : Z)
    (id title parentFolderID : string) (createdAt updatedAt : Time)
    : t * ServerFolder.t :=
  let id := mint fresh id in
  let stored :=
    if existsb (fun f => String.eqb (ServerFolder.ID f) id) (folders d)
    then map (fun f =>
                if String.eqb (ServerFolder.ID f) id
                   && (ServerFolder.UserID f =? userID)
                then ServerFolder.mk (ServerFolder.ID f) (ServerFolder.UserID f)
                       title parentFolderID (ServerFolder.CreatedAt f) updatedAt
                else f)
             (folders d)
    else folders d ++ [ServerFolder.mk id userID title parentFolderID
                                       createdAt updatedAt] in
  (mk (notes d) stored (note_versions d),
   ServerFolder.mk id userID title parentFolderID createdAt updatedAt).

Definition DeleteFolder (d : t) (id : string) (userID : Z) : t :=
  mk (notes d)
     (filter (fun f => negb (String.eqb (ServerFolder.ID f) id
                             && (ServerFolder.UserID f =? userID)))
             (folders d))
     (note_versions d).

Definition GetFoldersSince (d : t) (userID : Z) (since : Time)
    : list ServerFolder.t :=
  sqlite.order_by_desc ServerFolder.UpdatedAt
    (filter (fun f => (ServerFolder.UserID f =? userID)
                      && (since <? ServerFolder.UpdatedAt f))
            (folders d)).

(** *** Note version operations *)

Definition ListVersionsByNote (d : t) (noteID : string) (userID : Z)
    : list ServerNoteVersion.t :=
  sqlite.order_by_desc ServerNoteVersion.VersionNum
    (filter (fun v => String.eqb (ServerNoteVersion.NoteID v) noteID
                      && (ServerNoteVersion.UserID v =? userID))
            (note_versions d)).

(** [INSERT ... ON CONFLICT(id) DO UPDATE SET title, content, tags, hash]:
    this statement has no WHERE on the owner. *)
Definition UpsertVersion (fresh : string) (d : t) (userID : Z)
    (id noteID title content tags hash : string) (versionNum : Z)
    (createdAt : Time) : t * ServerNoteVersion.t :=
  let id := mint fresh id in
  let stored :=
    if existsb (fun v => String.eqb (ServerNoteVersion.ID v) id) (note_versions d)
    then map (fun v =>
                if String.eqb (ServerNoteVersion.ID v) id
                then ServerNoteVersion.mk (ServerNoteVersion.ID v)
                       (ServerNoteVersion.NoteID v) (ServerNoteVersion.UserID v)
                       title content tags hash
                       (ServerNoteVersion.VersionNum v)
                       (ServerNoteVersion.CreatedAt v)
                else v)
             (note_versions d)
    else note_versions d
         ++ [ServerNoteVersion.mk id noteID userID title content tags hash
                                  versionNum createdAt] in
  (mk (notes d) (folders d) stored,
   ServerNoteVersion.mk id noteID userID title content tags hash versionNum
                        createdAt).

Definition GetVersionsSince (d : t) (userID : Z) (since : Time)
    : list ServerNoteVersion.t :=
  sqlite.order_by_desc ServerNoteVersion.CreatedAt
    (filter (fun v => (ServerNoteVersion.UserID v =? userID)
                      && (since <? ServerNoteVersion.CreatedAt v))
            (note_versions d)).

End ServerDB.

(** ** The HTTP handlers of the remote store (internal/server/handlers.go) *)

Module server.

Record NoteResponse : Type := mkNoteResponse {
  nr_ID : string;
  nr_Title : string;
  nr_Content : string;
  nr_Tags : string;
  nr_ParentFolderID : string;
  nr_CreatedAt : Z;
  nr_UpdatedAt : Z
}.

Record UpsertNoteRequest : Type := mkUpsertNoteRequest {
  req_ID : string;
  req_Title : string;
  req_Content : string;
  req_Tags : string;
  req_ParentFolderID : string;
  req_CreatedAt : Z;
  req_UpdatedAt : Z
}.

Record FolderResponse : Type := mkFolderResponse {
  fr_ID : string;
  fr_Title : string;
  fr_ParentFolderID : string;
  fr_CreatedAt : Z;
  fr_UpdatedAt : Z
}.

Record UpsertFolderRequest : Type := mkUpsertFolderRequest {
  freq_ID : string;
  freq_Title : string;
  freq_ParentFolderID : string;
  freq_CreatedAt : Z;
  freq_UpdatedAt : Z
}.

(** What a handler writes: [jsonResponse], [jsonError], or a bare status. *)
Inductive response (A : Type) : Type :=
| jsonResponse (data : A) (status : Z)
| jsonError (message : string) (status : Z)
| WriteHeader (status : Z).
Arguments jsonResponse {A} data status.
Arguments jsonError {A} message status.
Arguments WriteHeader {A} status.

Definition note_response (n : ServerNote.t) : NoteResponse :=
  mkNoteResponse (ServerNote.ID n) (ServerNote.Title n) (ServerNote.Content n)
                 (ServerNote.Tags n) (ServerNote.ParentFolderID n)
                 (Unix (ServerNote.CreatedAt n)) (Unix (ServerNote.UpdatedAt n)).

Definition folder_response (f : ServerFolder.t) : FolderResponse :=
  mkFolderResponse (ServerFolder.ID f) (ServerFolder.Title f)
                   (ServerFolder.ParentFolderID f)
                   (Unix (ServerFolder.CreatedAt f))
                   (Unix (ServerFolder.UpdatedAt f)).

Definition getNoteHandler (d : ServerDB.t) (user : Z) (noteID : string)
    : response NoteResponse :=
  match ServerDB.GetNote d noteID user with
  | None => jsonError "note not found" 404
  | Some note => jsonResponse (note_response note) 200
  end.

(** The handler on a decoded request body.  [now1] and [now2] are the two
    readings of the server's clock, [fresh] the UUID minted for an empty id. *)
Definition upsertNoteHandler (now1 now2 : Time) (fresh : string)
    (d : ServerDB.t) (user : Z) (req : UpsertNoteRequest)
    : ServerDB.t * response NoteResponse :=
  if String.eqb (req_Title req) "" then (d, jsonError "title required" 400)
  else
    let createdAt :=
      if 0 <? req_CreatedAt req then time_Unix (req_CreatedAt req) else now1 in
    let updatedAt :=
      if 0 <? req_UpdatedAt req then time_Unix (req_UpdatedAt req) else now2 in
    let (d', note) :=
      ServerDB.UpsertNote fresh d user (req_ID req) (req_Title req)
        (req_Content req) (req_Tags req) (req_ParentFolderID req)
        createdAt updatedAt in
    (d', jsonResponse (note_response note) 200).

Definition deleteNoteHandler (d : ServerDB.t) (user : Z) (noteID : string)
    : ServerDB.t * response NoteResponse :=
  (ServerDB.DeleteNote d noteID user, WriteHeader 204).

Definition upsertFolderHandler (now1 now2 : Time) (fresh : string)
    (d : ServerDB.t) (user : Z) (req : UpsertFolderRequest)
    : ServerDB.t * response FolderResponse :=
  if String.eqb (freq_Title req) "" then (d, jsonError "title required" 400)
  else
    let createdAt :=
      if 0 <? freq_CreatedAt req then time_Unix (freq_CreatedAt req) else now1 in
    let updatedAt :=
      if 0 <? freq_UpdatedAt req then time_Unix (freq_UpdatedAt req) else now2 in
    let (d', folder) :=
      ServerDB.UpsertFolder fresh d user (freq_ID req) (freq_Title req)
        (freq_ParentFolderID req) createdAt updatedAt in
    (d', jsonResponse (folder_response folder) 200).


(** The [since] query parameter as the sync handlers read it: absent or
    empty, or accepted by the first of [time.Parse(time.RFC3339, _)],
    [time.ParseDuration] and [json.Number(_).Int64()] that takes it, or by
    none.  The [since=%d] the client writes for a positive checkpoint is a
    [SinceUnix]: a run of digits is no RFC 3339 time and, unless it is 0,
    no duration. *)
Inductive since_param : Type :=
| SinceAbsent
| SinceRFC3339 (t : Time)
| SinceDuration (n : Z)
| SinceUnix (ts : Z)
| SinceUnparsed.

(** [since] as the handler computes it; [now] is its reading of the
    clock. *)
Definition since_time (now : Time) (p : since_param) : Time :=
  match p with
  | SinceAbsent => zero_Time
  | SinceRFC3339 t => t
  | SinceDuration n => now - n
  | SinceUnix ts => time_Unix ts
  | SinceUnparsed => zero_Time
  end.

Definition syncNotesHandler (now : Time) (d : ServerDB.t) (user : Z)
    (since : since_param) : response (list NoteResponse) :=
  jsonResponse
    (map note_response (ServerDB.GetNotesSince d user (since_time now since)))
    200.

Definition listFoldersHandler (d : ServerDB.t) (user : Z)
    : response (list FolderResponse) :=
  jsonResponse (map folder_response (ServerDB.ListFoldersByUser d user)) 200.

Definition getFolderHandler (d : ServerDB.t) (user : Z) (folderID : string)
    : response FolderResponse :=
  match ServerDB.GetFolder d folderID user with
  | None => jsonError "folder not found" 404
  | Some folder => jsonResponse (folder_response folder) 200
  end.

Definition deleteFolderHandler (d : ServerDB.t) (user : Z) (folderID : string)
    : ServerDB.t * response FolderResponse :=
  (ServerDB.DeleteFolder d folderID user, WriteHeader 204).

Definition syncFoldersHandler (now : Time) (d : ServerDB.t) (user : Z)
    (since : since_param) : response (list FolderResponse) :=
  jsonResponse
    (map folder_response (ServerDB.GetFoldersSince d user (since_time now since)))
    200.

End server.

(** ** Accounts: the users of server.go, the auth handlers, the middleware *)

Module User.
Record t : Type := mk {
  ID : Z;
  Username : string;
  PasswordHash : string;
  CreatedAt : Time;
  Active : bool
}.
End User.

Module accounts.

(** The [users] table of the server's database with its AUTOINCREMENT
    counter.  No statement on notes, folders or versions reads it, and it
    is kept beside [ServerDB.t]. *)
Record t : Type := mk {
  users : list User.t;
  users_seq : Z
}.

Definition empty : t := mk [] 0.

Definition GetUserByUsername (d : t) (username : string) : option User.t :=
  find (fun u => String.eqb (User.Username u) username) (users d).

Definition GetUserByID (d : t) (id : Z) : option User.t :=
  find (fun u => User.ID u =? id) (users d).

(** [CreateUser]; [hashed] is what [bcrypt.GenerateFromPassword] returned
    for the password.  [username] is UNIQUE: the INSERT of a name already
    stored fails.  The user returned carries no hash. *)
Definition CreateUser (now : Time) (hashed : error + string) (d : t)
    (username : string) : t * (error + User.t) :=
  match hashed with
  | inl err => (d, inl err)
  | inr hash =>
      if existsb (fun u => String.eqb (User.Username u) username) (users d)
      then (d, inl (transport_error
                      "failed to create user: UNIQUE constraint failed: users.username"))
      else
        let id := DB.next_rowid (users_seq d) (map User.ID (users d)) in
        (mk (users d ++ [User.mk id username hash now true]) id,
         inr (User.mk id username "" now true))
  end.

Record LoginRequest : Type := mkLoginRequest {
  req_Username : string;
  req_Password : string
}.

Record LoginResponse : Type := mkLoginResponse {
  Token : string;
  ExpiresAt : Z;
  UserID : Z;
  Username : string
}.

Section Handlers.

(** [bcrypt.CompareHashAndPassword] returning no error, and the two
    methods of the JWT manager as they answer at the moment of the
    request: [Generate] gives a token and its expiry or fails, [Validate]
    gives the user id of the claims or fails.  The expiry is taken from
    the clock: two requests are served by two such functions. *)
Variable compare : string -> string -> bool.
Variable jwt_Generate : Z -> string -> error + (string * Time).
Variable jwt_Validate : string -> option Z.



(** [len(req.Password)] counts bytes. *)
Definition registerHandler (now : Time) (hashed : error + string) (d : t)
    (req : LoginRequest) : t * server.response LoginResponse :=
  if String.eqb (req_Username req) "" || String.eqb (req_Password req) ""
  then (d, server.jsonError "username and password required" 400)
  else if Z.of_nat (String.length (req_Password req)) <? 8
  then (d, server.jsonError "password must be at least 8 characters" 400)
  else
    match GetUserByUsername d (req_Username req) with
    | Some _ => (d, server.jsonError "username already exists" 409)
    | None =>
        match CreateUser now hashed d (req_Username req) with
        | (d', inl _) => (d', server.jsonError "failed to create user" 500)
        | (d', inr user) =>
            match jwt_Generate (User.ID user) (User.Username user) with
            | inl _ => (d', server.jsonError "failed to generate token" 500)
            | inr (token, expiresAt) =>
                (d', server.jsonResponse
                       (mkLoginResponse token (Unix expiresAt) (User.ID user)
                                        (User.Username user))
                       201)
            end
        end
    end.

(** [strings.SplitN(s, " ", 2)] when it gives two parts: what is before
    the first space and what is after it. *)
Fixpoint split_space (s : string) : option (string * string) :=
  match s with
  | EmptyString => None
  | String c s' =>
      if Ascii.eqb c " "%char then Some (EmptyString, s')
      else match split_space s' with
           | Some (a, b) => Some (String c a, b)
           | None => None
           end
  end.

(** [authMiddleware] on the value of the [Authorization] header: the
    refusal it writes, or the user it puts in the context of the request
    it passes on. *)
Definition authMiddleware (d : t) (authHeader : string)
    : server.response unit + User.t :=
  if String.eqb authHeader ""
  then inl (server.jsonError "missing authorization header" 401)
  else
    match split_space authHeader with
    | None => inl (server.jsonError "invalid authorization header" 401)
    | Some (scheme, token) =>
        if negb (String.eqb scheme "Bearer")
        then inl (server.jsonError "invalid authorization header" 401)
        else
          match jwt_Validate token with
          | None => inl (server.jsonError "invalid token" 401)
          | Some userID =>
              match GetUserByID d userID with
              | Some user =>
                  if User.Active user then inr user
                  else inl (server.jsonError "user not found or inactive" 401)
              | None => inl (server.jsonError "user not found or inactive" 401)
              end
          end
    end.

End Handlers.

End accounts.

(** ** The rate limiter of the server (internal/server) *)

Module RateLimiter.

Record clientRequests : Type := mkClientRequests {
  count : Z;
  windowEnd : Time
}.

(** [requests] is a Go map: a lookup gives the entry of a key or none.
    [window] is a [time.Duration], in nanoseconds.  The mutex makes each
    call below one step. *)
Record t : Type := mk {
  requests : string -> option clientRequests;
  limit : Z;
  window : Z
}.

Definition NewRateLimiter (limit window : Z) : t :=
  mk (fun _ => None) limit window.

Definition NewAuthRateLimiter : t := NewRateLimiter 5 60000000000.

Definition NewAPIRateLimiter : t := NewRateLimiter 100 60000000000.

Definition set_entry (rl : t) (ip : string) (req : clientRequests) : t :=
  mk (fun k => if String.eqb k ip then Some req else requests rl k)
     (limit rl) (window rl).

(** [Allow]; [now] is its reading of the clock.  [count] is only
    incremented below [limit], so it never wraps. *)
Definition Allow (now : Time) (rl : t) (ip : string) : t * bool :=
  match requests rl ip with
  | Some req =>
      if After now (windowEnd req)
      then (set_entry rl ip (mkClientRequests 1 (now + window rl)), true)
      else if limit rl <=? count req then (rl, false)
      else (set_entry rl ip (mkClientRequests (count req + 1) (windowEnd req)),
            true)
  | None => (set_entry rl ip (mkClientRequests 1 (now + window rl)), true)
  end.

(** One round of [cleanupLoop]. *)
Definition cleanup (now : Time) (rl : t) : t :=
  mk (fun k =>
        match requests rl k with
        | Some req => if After now (windowEnd req) then None else Some req
        | None => None
        end)
     (limit rl) (window rl).

(** The headers [getClientIP] reads and the peer address; a header that is
    not set reads as the empty text. *)
Record Request : Type := mkRequest {
  X_Forwarded_For : string;
  X_Real_IP : string;
  RemoteAddr : string
}.

Definition getClientIP (r : Request) : string :=
  if negb (String.eqb (X_Forwarded_For r) "") then X_Forwarded_For r
  else if negb (String.eqb (X_Real_IP r) "") then X_Real_IP r
  else RemoteAddr r.

(** [Middleware]: whether the request is passed on; a refused one is
    answered 429. *)
Definition Middleware (now : Time) (rl : t) (r : Request) : t * bool :=
  Allow now rl (getClientIP r).

(** A run of requests, each with the clock reading of its [Allow]: the
    limiter afterwards and the answers, in order. *)
Fixpoint run (rl : t) (reqs : list (Time * string)) : t * list bool :=
  match reqs with
  | [] => (rl, [])
  | (now, ip) :: reqs' =>
      let (rl', ok) := Allow now rl ip in
      let (rl'', oks) := run rl' reqs' in
      (rl'', ok :: oks)
  end.

(** The requests of a run that came from [ip] and were allowed. *)
Definition allowed (ip : string) (reqs : list (Time * string)) (oks : list bool)
    : nat :=
  List.length
    (filter (fun x => String.eqb (snd (fst x)) ip && snd x) (combine reqs oks)).

Definition from (ip : string) (reqs : list (Time * string)) : nat :=
  List.length (filter (fun x => String.eqb (snd x) ip) reqs).

End RateLimiter.

(** ** The sync engine (internal/api/client.go, internal/api/sync.go) *)

Module api.

Record NoteResponse : Type := mkNoteResponse {
  nr_ID : string;
  nr_Title : string;
  nr_Content : string;
  nr_Tags : string;
  nr_CreatedAt : Z;
  nr_UpdatedAt : Z
}.

Record UpsertNoteRequest : Type := mkUpsertNoteRequest {
  req_ID : string;
  req_Title : string;
  req_Content : string;
  req_Tags : string;
  req_CreatedAt : Z;
  req_UpdatedAt : Z
}.

(** A request the client sends. *)
Inductive Call : Type :=
| CallDeleteNote (id : string)
| CallUpsertNote (note : UpsertNoteRequest)
| CallSyncNotes (since : Z).

(** One request of a pass, as it happened: the local note it was sent for
    (none for the download fetch), the request, and whether it came back
    as an error. *)
Record Event : Type := mkEvent {
  origin : option Z;
  call : Call;
  failed : bool
}.

(** The client and the remote end behind it: what each request comes back
    with, given the requests of the pass so far.  An error reply stands for
    a network failure, a timeout or a status of 400 and above. *)
Record Client : Type := mkClient {
  token : string;
  DeleteNote : list Event -> string -> option error;
  UpsertNote : list Event -> UpsertNoteRequest -> error + NoteResponse;
  SyncNotes : list Event -> Z -> error + list NoteResponse
}.

Definition IsAuthenticated (c : Client) : bool :=
  negb (String.eqb (token c) "").

(** The counters are Go [int]s; none is incremented more often than a
    slice has elements. *)
Record SyncResult : Type := mkSyncResult {
  Uploaded : Z;
  Downloaded : Z;
  Deleted : Z;
  Errors : list error
}.

(** The variables of [Sync] that change along a pass: the local database,
    the requests sent, and [result]. *)
Record state : Type := mkState {
  database : DB.t;
  log : list Event;
  result : SyncResult
}.

Definition add_error (r : SyncResult) (err : error) : SyncResult :=
  mkSyncResult (Uploaded r) (Downloaded r) (Deleted r) (Errors r ++ [err]).

Definition incr_Uploaded (r : SyncResult) : SyncResult :=
  mkSyncResult (Uploaded r + 1) (Downloaded r) (Deleted r) (Errors r).

Definition incr_Downloaded (r : SyncResult) : SyncResult :=
  mkSyncResult (Uploaded r) (Downloaded r + 1) (Deleted r) (Errors r).

Definition incr_Deleted (r : SyncResult) : SyncResult :=
  mkSyncResult (Uploaded r) (Downloaded r) (Deleted r + 1) (Errors r).

(** A pass starts with an empty result and nothing sent. *)
Definition begin (d : DB.t) : state :=
  mkState d [] (mkSyncResult 0 0 0 []).

Section WithJSON.
Context {codec : JSON}.

(** The body of the upload loop, for one pending note. *)
Definition upload_note (client : Client) (st : state) (note : Note.t) : state :=
  if Note.Deleted note then
    if negb (String.eqb (Note.ServerID note) "") then
      match DeleteNote client (log st) (Note.ServerID note) with
      | Some err =>
          mkState (database st)
                  (log st ++ [mkEvent (Some (Note.ID note))
                                      (CallDeleteNote (Note.ServerID note)) true])
                  (add_error (result st) err)
      | None =>
          mkState (DB.PermanentlyDeleteSynced (database st) (Note.ID note))
                  (log st ++ [mkEvent (Some (Note.ID note))
                                      (CallDeleteNote (Note.ServerID note)) false])
                  (incr_Deleted (result st))
      end
    else
      mkState (DB.PermanentlyDeleteSynced (database st) (Note.ID note))
              (log st)
              (incr_Deleted (result st))
  else
    let tagsJSON := json_Marshal (Note.Tags note) in
    let req :=
      mkUpsertNoteRequest (Note.ServerID note) (Note.Title note)
        (Note.Content note) tagsJSON
        (Unix (Note.CreatedAt note)) (Unix (Note.UpdatedAt note)) in
    match UpsertNote client (log st) req with
    | inl err =>
        mkState (database st)
                (log st ++ [mkEvent (Some (Note.ID note)) (CallUpsertNote req) true])
                (add_error (result st) err)
    | inr resp =>
        mkState (DB.SetNoteSynced (database st) (Note.ID note) (nr_ID resp))
                (log st ++ [mkEvent (Some (Note.ID note)) (CallUpsertNote req) false])
                (incr_Uploaded (result st))
    end.

(** Phase 1: every pending note of the snapshot, in order. *)
Definition upload (client : Client) (st : state) : state :=
  fold_left (upload_note client) (DB.GetPendingNotes (database st)) st.

(** The body of the download loop, for one note of the reply. *)
Definition download_note (st : state) (sn : NoteResponse) : state :=
  mkState (DB.UpsertFromServer (database st) (nr_ID sn) (nr_Title sn)
             (nr_Content sn) (nr_Tags sn)
             (time_Unix (nr_CreatedAt sn)) (time_Unix (nr_UpdatedAt sn)))
          (log st)
          (incr_Downloaded (result st)).

(** Phase 2: fetch, then apply every note of the reply. *)
Definition download (client : Client) (lastSync : Z) (st : state) : state :=
  match SyncNotes client (log st) lastSync with
  | inl err =>
      mkState (database st)
              (log st ++ [mkEvent None (CallSyncNotes lastSync) true])
              (add_error (result st) err)
  | inr serverNotes =>
      fold_left download_note serverNotes
        (mkState (database st)
                 (log st ++ [mkEvent None (CallSyncNotes lastSync) false])
                 (result st))
  end.

(** [Sync]: the returned error is nil on every path but a failed read of
    the pending notes, which is a storage failure. *)
Definition Sync (d : DB.t) (client : Client) (lastSync : Z)
    : state * option error :=
  (download client lastSync (upload client (begin d)), None).

End WithJSON.

End api.

(** ** The sync part of the terminal UI (internal/ui/model.go) *)

Module ui.

(** [message] is left out: nothing reads it but the status line. *)
Record syncResultMsg : Type := mkSyncResultMsg {
  success : bool;
  msg_uploadBytes : Z;
  msg_downloadBytes : Z
}.

(** The fields of [Model] the sync path touches, the database behind [m.db]
    and the checkpoint as the configuration file holds it. *)
Record Model : Type := mkModel {
  db : DB.t;
  apiClient : option api.Client;
  syncing : bool;
  uploadBytes : Z;
  downloadBytes : Z;
  config_LastSync : Z;
  saved_LastSync : Z
}.

(** Running the command [doSync] returns: the message, with the database
    and the requests of the pass. *)
Definition doSync {codec : JSON} (m : Model)
    : DB.t * list api.Event * syncResultMsg :=
  match apiClient m with
  | None => (db m, [], mkSyncResultMsg false 0 0)
  | Some client =>
      if negb (api.IsAuthenticated client)
      then (db m, [], mkSyncResultMsg false 0 0)
      else
        match api.Sync (db m) client (config_LastSync m) with
        | (st, Some err) =>
            (api.database st, api.log st, mkSyncResultMsg false 0 0)
        | (st, None) =>
            let result := api.result st in
            if (0 <? Z.of_nat (List.length (api.Errors result)))
            then (api.database st, api.log st,
                  mkSyncResultMsg false (api.Uploaded result)
                                  (api.Downloaded result))
            else (api.database st, api.log st,
                  mkSyncResultMsg true (api.Uploaded result)
                                  (api.Downloaded result))
        end
  end.

(** [Update] on a [syncResultMsg]; [now] is the clock read for the new
    checkpoint, and [m.config.Save] writes it to the file. *)
Definition Update_syncResultMsg (now : Time) (m : Model) (d : DB.t)
    (msg : syncResultMsg) : Model :=
  if success msg
  then mkModel d (apiClient m) false (msg_uploadBytes msg)
               (msg_downloadBytes msg) (Unix now) (Unix now)
  else mkModel d (apiClient m) false (msg_uploadBytes msg)
               (msg_downloadBytes msg) (config_LastSync m) (saved_LastSync m).

(** One whole pass as the UI runs it: the command, then its message. *)
Definition sync_pass {codec : JSON} (now : Time) (m : Model)
    : Model * list api.Event :=
  let '(d, log, msg) := doSync m in
  (Update_syncResultMsg now m d msg, log).

(** *** Helpers of the view *)

(** What [formatBytes] hands to [fmt.Sprintf]: ["%dB"] with [b], or
    ["%.1f%cB"] with the quotient of [b] by [div] as floats and the unit
    letter.  The float division and its rounding to one decimal are not
    modelled. *)
Inductive formatted : Type :=
| Plain (b : Z)
| Scaled (b div : Z) (unit : ascii).

(** The loop [for n := b / unit; n >= unit; n /= unit], [fuel] rounds at
    most; [None] when they do not suffice. *)
Fixpoint scale (fuel : nat) (n div exp : Z) : option (Z * Z) :=
  if 1000 <=? n
  then match fuel with
       | O => None
       | S fuel' =>
           scale fuel' (Z.quot n 1000) (wrap64 (div * 1000)) (wrap64 (exp + 1))
       end
  else Some (div, exp).

(** ["KMGTPE"[exp]]: no result when the index is out of range, where Go
    panics. *)
Definition unit_letter (exp : Z) : option ascii :=
  if exp <? 0 then None else String.get (Z.to_nat exp) "KMGTPE".

(** [formatBytes] on an [int64]. *)
Definition formatBytes (b : Z) : option formatted :=
  if b <? 1000 then Some (Plain b)
  else
    match scale 64 (Z.quot b 1000) 1000 0 with
    | Some (div, exp) => option_map (Scaled b div) (unit_letter exp)
    | None => None
    end.

(** [s[:n]]: no result unless [0 <= n <= len(s)], where Go panics. *)
Definition slice_to (s : string) (n : Z) : option string :=
  if (0 <=? n) && (n <=? Z.of_nat (String.length s))
  then Some (substring 0 (Z.to_nat n) s)
  else None.

(** [truncate]; lengths are in bytes. *)
Definition truncate (s : string) (max : Z) : option string :=
  if Z.of_nat (String.length s) <=? max then Some s
  else if max <=? 3 then slice_to s max
  else option_map (fun p => (p ++ "...")%string) (slice_to s (max - 3)).

(** [listWidth], [int(float64(m.width) * 0.25)]: a quarter of the width,
    cut toward zero, for every width a float64 holds exactly. *)
Definition listWidth (width : Z) : Z := Z.quot width 4.

(** The bound [renderList] truncates titles to. *)
Definition maxLen (width : Z) : Z := listWidth width - 10.

End ui.

(** ** The tag editor (internal/ui/model.go) and the functions of Go's
    strings package it calls *)

Module go_strings.

Definition bytes (s : string) : list ascii := list_ascii_of_string s.

Definition text (l : list ascii) : string := string_of_list_ascii l.

(** [s] without its prefix [p], when it has it. *)
Fixpoint strip (p s : list ascii) : option (list ascii) :=
  match p with
  | [] => Some s
  | c :: p' =>
      match s with
      | c' :: s' => if Ascii.eqb c c' then strip p' s' else None
      | [] => None
      end
  end.

(** The pieces between the separators: one more than there are
    separators. *)
Fixpoint split_bytes (sep : ascii) (s : list ascii) : list (list ascii) :=
  match s with
  | [] => [[]]
  | c :: s' =>
      if Ascii.eqb c sep then [] :: split_bytes sep s'
      else match split_bytes sep s' with
           | piece :: pieces => (c :: piece) :: pieces
           | [] => [[c]]
           end
  end.

(** [strings.Split(s, sep)] for a separator of one byte. *)
Definition Split (s : string) (sep : ascii) : list string :=
  map text (split_bytes sep (bytes s)).

(** The characters [unicode.IsSpace] accepts, in UTF-8: tab to carriage
    return, space, U+0085, U+00A0, U+1680, U+2000 to U+200A, U+2028,
    U+2029, U+202F, U+205F, U+3000.  No one is the beginning of
    another. *)
Definition white_space : list (list ascii) :=
  map (map ascii_of_nat)
      [[9]; [10]; [11]; [12]; [13]; [32]; [194; 133]; [194; 160];
       [225; 154; 128];
       [226; 128; 128]; [226; 128; 129]; [226; 128; 130]; [226; 128; 131];
       [226; 128; 132]; [226; 128; 133]; [226; 128; 134]; [226; 128; 135];
       [226; 128; 136]; [226; 128; 137]; [226; 128; 138];
       [226; 128; 168]; [226; 128; 169]; [226; 128; 175];
       [226; 129; 159]; [227; 128; 128]]%nat.

(** [s] without the one of [patterns] it begins with, if any. *)
Fixpoint skip (patterns : list (list ascii)) (s : list ascii)
    : option (list ascii) :=
  match patterns with
  | [] => None
  | p :: patterns' =>
      match strip p s with
      | Some rest => Some rest
      | None => skip patterns' s
      end
  end.

(** Skipping for as long as a pattern is found; every skip takes a byte
    at least, so the length of the text is fuel enough. *)
Fixpoint trim (patterns : list (list ascii)) (fuel : nat) (s : list ascii)
    : list ascii :=
  match fuel with
  | O => s
  | S fuel' =>
      match skip patterns s with
      | Some rest => trim patterns fuel' rest
      | None => s
      end
  end.

Definition trim_left (s : list ascii) : list ascii :=
  trim white_space (List.length s) s.

(** From the end: a character is decoded backwards from its last byte, so
    the text ends with a space exactly when its bytes end with the bytes of
    one. *)
Definition trim_right (s : list ascii) : list ascii :=
  rev (trim (map (@rev ascii) white_space) (List.length s) (rev s)).

(** [strings.TrimSpace]: [TrimRightFunc] of [TrimLeftFunc]. *)
Definition TrimSpace (s : string) : string :=
  text (trim_right (trim_left (bytes s))).

Definition TrimPrefix (s prefix : string) : string :=
  match strip (bytes prefix) (bytes s) with
  | Some rest => text rest
  | None => s
  end.

End go_strings.

Module tag_editor.

(** What the loop of [saveTags] makes of one piece of the text. *)
Definition tag_of (piece : string) : string :=
  go_strings.TrimPrefix (go_strings.TrimSpace piece) "#".

(** The loop of [saveTags]: the tags the text stands for; the nil slice
    when it stands for none. *)
Definition parse (tagsStr : string) : strings :=
  match
    filter (fun t => negb (String.eqb t ""))
           (map tag_of (go_strings.Split tagsStr ";"%char))
  with
  | [] => None
  | tags => Some tags
  end.

(** The text the editor opens with (the loop of [handleNormalKeys] on the
    edit-tags key). *)
Definition show (tags : strings) : string :=
  fold_left (fun tagsStr tag =>
               ((if negb (String.eqb tagsStr "") then tagsStr ++ ";" else tagsStr)
                ++ "#" ++ tag)%string)
            (match tags with Some l => l | None => [] end)
            "".

(** A tag as the editor keeps it: not empty, without a semicolon, with no
    white space at its end. *)
Definition kept (tag : string) : Prop :=
  tag <> ""
  /\ ~ In ";"%char (go_strings.bytes tag)
  /\ go_strings.trim_right (go_strings.bytes tag) = go_strings.bytes tag.

End tag_editor.

(** ** A codec for the examples *)

(** encoding/json on slices whose strings need no escaping (no quote, no
    backslash, no control or HTML-sensitive character): the text Go writes
    for them, and its reading of a text of that form without blanks. *)
Module plain_json.

Fixpoint join (l : list string) : string :=
  match l with
  | [] => ""
  | [x] => DB.quote ++ x ++ DB.quote
  | x :: l' => DB.quote ++ x ++ DB.quote ++ "," ++ join l'
  end.

Definition Marshal (v : strings) : string :=
  match v with
  | None => "null"
  | Some l => "[" ++ join l ++ "]"
  end.

Inductive pos : Type :=
| AtItem (first : bool)
| InString (cur : string)
| AfterItem
| AtEnd.

Fixpoint items (p : pos) (acc : list string) (s : string)
    : option (list string) :=
  match s with
  | EmptyString =>
      match p with
      | AtEnd => Some acc
      | _ => None
      end
  | String c s' =>
      match p with
      | AtItem first =>
          if Ascii.eqb c (ascii_of_nat 34) then items (InString "") acc s'
          else if first && Ascii.eqb c "]"%char then items AtEnd acc s'
          else None
      | InString cur =>
          if Ascii.eqb c (ascii_of_nat 34) then items AfterItem (acc ++ [cur]) s'
          else items (InString (cur ++ String c "")) acc s'
      | AfterItem =>
          if Ascii.eqb c ","%char then items (AtItem false) acc s'
          else if Ascii.eqb c "]"%char then items AtEnd acc s'
          else None
      | AtEnd => None
      end
  end.

Definition Unmarshal (s : string) : strings * bool :=
  if String.eqb s "null" then (None, true)
  else
    match s with
    | String c s' =>
        if Ascii.eqb c "["%char
        then match items (AtItem true) [] s' with
             | Some l => (Some l, true)
             | None => (None, false)
             end
        else (None, false)
    | EmptyString => (None, false)
    end.

End plain_json.

#[export] Instance plain_codec : JSON :=
  {| json_Marshal := plain_json.Marshal;
     json_Unmarshal := plain_json.Unmarshal |}.

(** ** The two ends on the wire (internal/api/client.go) *)

Module wire.

(** The body of [POST /api/notes] as the server decodes it.  Fields go by
    name, and the client's request has no [parent_folder_id].  Texts are
    valid UTF-8: encoding/json writes U+FFFD for any other byte. *)
Definition request (r : api.UpsertNoteRequest) : server.UpsertNoteRequest :=
  server.mkUpsertNoteRequest (api.req_ID r) (api.req_Title r) (api.req_Content r)
    (api.req_Tags r) "" (api.req_CreatedAt r) (api.req_UpdatedAt r).

(** A note of an answer as the client decodes it. *)
Definition note (r : server.NoteResponse) : api.NoteResponse :=
  api.mkNoteResponse (server.nr_ID r) (server.nr_Title r) (server.nr_Content r)
    (server.nr_Tags r) (server.nr_CreatedAt r) (server.nr_UpdatedAt r).

(** The error [doRequest] makes of a status of 400 and above: the
    [error] text of the body when there is one. *)
Definition status_error (message : string) (status : Z) : error :=
  if String.eqb message ""
  then transport_error ("request failed with status "
                        ++ NilZero.string_of_int (Z.to_int status))
  else transport_error message.

(** [doRequest] on a handler's answer, for each kind of result: a note, a
    list of notes, nothing.  A body without the fields asked for leaves the
    result at its zero value. *)
Definition note_reply (r : server.response server.NoteResponse)
    : error + api.NoteResponse :=
  match r with
  | server.jsonResponse data status =>
      if 400 <=? status then inl (status_error "" status) else inr (note data)
  | server.jsonError message status =>
      if 400 <=? status then inl (status_error message status)
      else inr (api.mkNoteResponse "" "" "" "" 0 0)
  | server.WriteHeader status =>
      if 400 <=? status then inl (status_error "" status)
      else inr (api.mkNoteResponse "" "" "" "" 0 0)
  end.

Definition notes_reply (r : server.response (list server.NoteResponse))
    : error + list api.NoteResponse :=
  match r with
  | server.jsonResponse data status =>
      if 400 <=? status then inl (status_error "" status) else inr (map note data)
  | server.jsonError message status =>
      if 400 <=? status then inl (status_error message status) else inr []
  | server.WriteHeader status =>
      if 400 <=? status then inl (status_error "" status) else inr []
  end.

Definition empty_reply {A : Type} (r : server.response A) : option error :=
  match r with
  | server.jsonResponse _ status =>
      if 400 <=? status then Some (status_error "" status) else None
  | server.jsonError message status =>
      if 400 <=? status then Some (status_error message status) else None
  | server.WriteHeader status =>
      if 400 <=? status then Some (status_error "" status) else None
  end.

End wire.

(** The request the upload loop builds for a note. *)
Definition upsert_request {codec : JSON} (note : Note.t) : api.UpsertNoteRequest :=
  api.mkUpsertNoteRequest (Note.ServerID note) (Note.Title note)
    (Note.Content note) (json_Marshal (Note.Tags note))
    (Unix (Note.CreatedAt note)) (Unix (Note.UpdatedAt note)).

(** What [SetNoteSynced] makes of a row. *)
Definition synced_as (serverID : string) (r : NoteRow.t) : NoteRow.t :=
  NoteRow.mk (NoteRow.id r) (NoteRow.title r) (NoteRow.content r)
             (NoteRow.tags r) (NoteRow.password r) (NoteRow.parent_folder_id r)
             (NoteRow.created_at r) (NoteRow.updated_at r) (Some serverID)
             SyncStatusSynced (NoteRow.deleted r).

(** A remote end that answers one request: each call of the client goes
    through the handler of its route on the store [s], for the user the
    token stands for, and comes back through [doRequest]. *)
Definition served_by (now : Time) (fresh : string) (s : ServerDB.t) (user : Z)
    : api.Client :=
  api.mkClient "token"
    (fun _ id => wire.empty_reply (snd (server.deleteNoteHandler s user id)))
    (fun _ req =>
       wire.note_reply
         (snd (server.upsertNoteHandler now now fresh s user (wire.request req))))
    (fun _ since =>
       wire.notes_reply
         (server.syncNotesHandler now s user
            (if 0 <? since then server.SinceUnix since else server.SinceAbsent))).

(** ** Stamps the driver reads back *)

(** Every stamp of the local notes table reads back as written. *)
Definition local_stamps_read_back (d : DB.t) : bool :=
  forallb (fun r => sqlite.reads_back (NoteRow.created_at r)
                    && sqlite.reads_back (NoteRow.updated_at r))
          (DB.notes d).

(** The two stamps of a note of the fetch, as the download loop hands them
    to the store. *)
Definition reply_stamps_read_back (sn : api.NoteResponse) : bool :=
  sqlite.reads_back (time_Unix (api.nr_CreatedAt sn))
  && sqlite.reads_back (time_Unix (api.nr_UpdatedAt sn)).


(** ** Rows the statements name *)

(** What the UPDATE of [UpsertFromServer] makes of a row. *)
Definition replaced_by (sn : api.NoteResponse) (r : NoteRow.t) : NoteRow.t :=
  NoteRow.mk (NoteRow.id r) (api.nr_Title sn) (api.nr_Content sn)
             (api.nr_Tags sn) (NoteRow.password r) (NoteRow.parent_folder_id r)
             (NoteRow.created_at r) (time_Unix (api.nr_UpdatedAt sn))
             (NoteRow.server_id r) SyncStatusSynced (NoteRow.deleted r).

(** What its INSERT adds. *)
Definition inserted_from (sn : api.NoteResponse) (id : Z) : NoteRow.t :=
  NoteRow.mk id (api.nr_Title sn) (api.nr_Content sn) (api.nr_Tags sn)
             None None (time_Unix (api.nr_CreatedAt sn))
             (time_Unix (api.nr_UpdatedAt sn)) (Some (api.nr_ID sn))
             SyncStatusSynced false.


(** ** What a pass did, read off its requests *)

Definition is_fetch (ev : api.Event) : bool :=
  match api.call ev with
  | api.CallSyncNotes _ => true
  | _ => false
  end.

(** The download fetch of the pass failed. *)
Definition fetch_failed (log : list api.Event) : bool :=
  existsb (fun ev => is_fetch ev && api.failed ev) log.

(** No request of the pass failed. *)
Definition all_succeeded (log : list api.Event) : bool :=
  forallb (fun ev => negb (api.failed ev)) log.

(** Every error of [result.Errors] is the failure of one request. *)
Definition errors_are_failures (st : api.state) : Prop :=
  List.length (api.Errors (api.result st))
  = List.length (filter api.failed (api.log st)).

Definition authenticated (m : ui.Model) : bool :=
  match ui.apiClient m with
  | Some client => api.IsAuthenticated client
  | None => false
  end.

(** Every row of the id is flagged deleted. *)
Definition all_deleted (d : DB.t) (id : Z) : Prop :=
  forall r, In r (DB.notes d) -> NoteRow.id r = id -> NoteRow.deleted r = true.

(** The rows of the local table that carry a server id. *)
Definition rows_with_server_id (d : DB.t) (serverID : string)
    : list NoteRow.t :=
  filter (fun r => DB.option_string_eqb (NoteRow.server_id r) serverID)
         (DB.notes d).

(** What the download of [sn] makes of the rows that carry its server id;
    [id] is the rowid of an inserted row. *)
Definition downloaded (sn : api.NoteResponse) (rows : list NoteRow.t) (id : Z)
    : list NoteRow.t :=
  match rows with
  | [] => [inserted_from sn id]
  | r :: _ =>
      if NoteRow.updated_at r <? time_Unix (api.nr_UpdatedAt sn)
      then map (replaced_by sn) rows
      else rows
  end.

(** ** Text search *)

(** [s] is what is left of [t] after some whole characters. *)
Inductive char_suffix : string -> string -> Prop :=
| char_suffix_here (t : string) : char_suffix t t
| char_suffix_skip (t t' s : string) :
    sqlite.skip_char t = Some t' -> char_suffix t' s -> char_suffix t s.

(** [s] starts with [q], up to ASCII case. *)
Fixpoint starts_with_ci (q s : string) : bool :=
  match q with
  | EmptyString => true
  | String c q' =>
      match s with
      | String c' s' =>
          Ascii.eqb (sqlite.fold_case c) (sqlite.fold_case c') && starts_with_ci q' s'
      | EmptyString => false
      end
  end.

(** [q] holds neither [%] nor [_]. *)
Fixpoint no_wildcard (q : string) : bool :=
  match q with
  | EmptyString => true
  | String c q' =>
      negb (Ascii.eqb c sqlite.percent) && negb (Ascii.eqb c sqlite.underscore)
      && no_wildcard q'
  end.

(** [q] occurs in [t], byte for byte. *)
Fixpoint contains (q t : string) : bool :=
  String.prefix q t
  || match t with
     | String _ t' => contains q t'
     | EmptyString => false
     end.

(** The tag, between double quotes, occurs in the stored tags text as LIKE
    sees it. *)
Definition has_tag (tag : string) (r : NoteRow.t) : bool :=
  sqlite.like ("%" ++ DB.quote ++ tag ++ DB.quote ++ "%") (NoteRow.tags r).

(** The query occurs in the title or the content as LIKE sees it. *)
Definition has_text (query : string) (r : NoteRow.t) : bool :=
  sqlite.like ("%" ++ query ++ "%") (NoteRow.title r)
  || sqlite.like ("%" ++ query ++ "%") (NoteRow.content r).

(** ** Version histories *)

(** The version numbers of a note, in the order the rows were written. *)
Definition version_nums (d : DB.t) (noteID : Z) : list Z :=
  map VersionRow.version_num (DB.versions_of d noteID).

(** 1, 2, ..., k. *)
Definition one_to (k : nat) : list Z := map Z.of_nat (seq 1 k).

(** Every note's version numbers are 1, 2, ... in the order written. *)
Definition versions_ok (d : DB.t) : Prop :=
  forall n, version_nums d n = one_to (List.length (DB.versions_of d n)).

(** One call of [SaveNoteVersion]. *)
Record SaveOp : Type := mkSaveOp {
  op_now : Time;
  op_noteID : Z;
  op_title : string;
  op_content : string;
  op_tags : strings
}.

(** [SaveNoteVersion] on the arguments of a call. *)
Definition save {codec : JSON} (d : DB.t) (op : SaveOp) : DB.t :=
  DB.SaveNoteVersion (op_now op) d (op_noteID op) (op_title op)
                     (op_content op) (op_tags op).

(** A run of saves, one after the other. *)
Definition save_all {codec : JSON} (ops : list SaveOp) (d : DB.t) : DB.t :=
  fold_left save ops d.

(** The row a save writes. *)
Definition version_row {codec : JSON} (d : DB.t) (op : SaveOp) : VersionRow.t :=
  VersionRow.mk
    (DB.next_rowid (DB.note_versions_seq d)
                   (map VersionRow.id (DB.note_versions d)))
    (op_noteID op) (op_title op) (op_content op) (json_Marshal (op_tags op))
    (Some (DB.hashStr (op_content op)))
    (wrap64 (sqlite.max_or_zero (version_nums d (op_noteID op)) + 1))
    (op_now op).

(** The last version of the note has the hash of the content. *)
Definition same_as_last (d : DB.t) (noteID : Z) (content : string) : bool :=
  match DB.last_version d noteID with
  | Some v => DB.option_string_eqb (VersionRow.hash v) (DB.hashStr content)
  | None => false
  end.

(** ** What a user can read of the remote store *)

Definition note_view (d : ServerDB.t) (userID : Z) : list ServerNote.t :=
  filter (fun n => ServerNote.UserID n =? userID) (ServerDB.notes d).

Definition folder_view (d : ServerDB.t) (userID : Z) : list ServerFolder.t :=
  filter (fun f => ServerFolder.UserID f =? userID) (ServerDB.folders d).

(** The writes of the remote store on notes and folders, as a user may
    ask for them. *)
Inductive remote_write : Type :=
| WriteUpsertNote (fresh id title content tags parent : string)
                  (createdAt updatedAt : Time)
| WriteDeleteNote (id : string)
| WriteUpsertFolder (fresh id title parent : string) (createdAt updatedAt : Time)
| WriteDeleteFolder (id : string).

Definition apply_write (userID : Z) (w : remote_write) (d : ServerDB.t)
    : ServerDB.t :=
  match w with
  | WriteUpsertNote fresh id title content tags parent createdAt updatedAt =>
      fst (ServerDB.UpsertNote fresh d userID id title content tags parent
                               createdAt updatedAt)
  | WriteDeleteNote id => ServerDB.DeleteNote d id userID
  | WriteUpsertFolder fresh id title parent createdAt updatedAt =>
      fst (ServerDB.UpsertFolder fresh d userID id title parent
                                 createdAt updatedAt)
  | WriteDeleteFolder id => ServerDB.DeleteFolder d id userID
  end.

(** The timestamp the upsert handlers store for a request field. *)
Definition stored_time (field : Z) (now : Time) : Time :=
  if 0 <? field then time_Unix field else now.

(** ** Runs of the local store *)

(** The writes of notes.go, as the UI and the sync engine ask for them. *)
Inductive local_write : Type :=
| LocalCreateNote (now : Time) (title content : string) (tags : strings)
| LocalCreateNoteInFolder (now : Time) (title content : string) (tags : strings)
                          (folderID : Z)
| LocalUpdateNote (now : Time) (id : Z) (title content : string) (tags : strings)
| LocalDeleteNote (now : Time) (id : Z)
| LocalSetNoteSynced (id : Z) (serverID : string)
| LocalUpsertFromServer (serverID title content tags : string)
                        (createdAt updatedAt : Time)
| LocalPermanentlyDeleteSynced (id : Z)
| LocalSaveNoteVersion (now : Time) (noteID : Z) (title content : string)
                       (tags : strings)
| LocalRestoreNoteVersion (now : Time) (noteID versionID : Z)
| LocalCreateFolder (now : Time) (title : string) (parentID : Z)
| LocalSetNotePassword (now : Time) (noteID : Z) (password : string)
| LocalSetFolderPassword (now : Time) (folderID : Z) (password : string)
| LocalDeleteFolder (now : Time) (id : Z).

Definition apply_local {codec : JSON} (d : DB.t) (w : local_write) : DB.t :=
  match w with
  | LocalCreateNote now title content tags =>
      fst (DB.CreateNote now d title content tags)
  | LocalCreateNoteInFolder now title content tags folderID =>
      fst (DB.CreateNoteInFolder now d title content tags folderID)
  | LocalUpdateNote now id title content tags =>
      DB.UpdateNote now d id title content tags
  | LocalDeleteNote now id => DB.DeleteNote now d id
  | LocalSetNoteSynced id serverID => DB.SetNoteSynced d id serverID
  | LocalUpsertFromServer serverID title content tags createdAt updatedAt =>
      DB.UpsertFromServer d serverID title content tags createdAt updatedAt
  | LocalPermanentlyDeleteSynced id => DB.PermanentlyDeleteSynced d id
  | LocalSaveNoteVersion now noteID title content tags =>
      DB.SaveNoteVersion now d noteID title content tags
  | LocalRestoreNoteVersion now noteID versionID =>
      fst (DB.RestoreNoteVersion now d noteID versionID)
  | LocalCreateFolder now title parentID =>
      fst (DB.CreateFolder now d title parentID)
  | LocalSetNotePassword now noteID password =>
      DB.SetNotePassword now d noteID password
  | LocalSetFolderPassword now folderID password =>
      DB.SetFolderPassword now d folderID password
  | LocalDeleteFolder now id => DB.DeleteFolder now d id
  end.

(** The rowids of a table are distinct and none is above the table's
    AUTOINCREMENT counter. *)
Definition table_ok (ids : list Z) (seq : Z) : Prop :=
  NoDup ids /\ forall x, In x ids -> x <= seq.

Definition keys_ok (d : DB.t) : Prop :=
  table_ok (map NoteRow.id (DB.notes d)) (DB.notes_seq d)
  /\ table_ok (map FolderRow.id (DB.folders d)) (DB.folders_seq d)
  /\ table_ok (map VersionRow.id (DB.note_versions d)) (DB.note_versions_seq d).

(** No server id is carried by two rows. *)
Definition unique_server_ids (d : DB.t) : Prop :=
  forall serverID, (List.length (rows_with_server_id d serverID) <= 1)%nat.

(** The first row that carries the server id of [sn] is at least as new as
    [sn]. *)
Definition up_to_date (d : DB.t) (sn : api.NoteResponse) : Prop :=
  exists r, hd_error (rows_with_server_id d (api.nr_ID sn)) = Some r
            /\ time_Unix (api.nr_UpdatedAt sn) <= NoteRow.updated_at r.

(** ** Runs of the remote store *)

(** A write of server.go with the user it is made for. *)
Inductive remote_request : Type :=
| RemoteWrite (userID : Z) (w : remote_write)
| RemoteUpsertVersion (userID : Z) (fresh id noteID title content tags hash : string)
                      (versionNum : Z) (createdAt : Time).

Definition serve (d : ServerDB.t) (q : remote_request) : ServerDB.t :=
  match q with
  | RemoteWrite userID w => apply_write userID w d
  | RemoteUpsertVersion userID fresh id noteID title content tags hash
                        versionNum createdAt =>
      fst (ServerDB.UpsertVersion fresh d userID id noteID title content tags
                                  hash versionNum createdAt)
  end.

(** The primary keys of the three tables. *)
Definition remote_keys_ok (d : ServerDB.t) : Prop :=
  NoDup (map ServerNote.ID (ServerDB.notes d))
  /\ NoDup (map ServerFolder.ID (ServerDB.folders d))
  /\ NoDup (map ServerNoteVersion.ID (ServerDB.note_versions d)).

(** ** Example data *)

Module sample.

(** A synced note, last updated locally at t=200. *)
Definition note_A : NoteRow.t :=
  NoteRow.mk 1 "A" "body" "[]" None None (time_Unix 50) (time_Unix 200)
             (Some "srv-1") SyncStatusSynced false.

Definition local_db : DB.t := DB.mk [note_A] 1 [] 0 [] 0.

Definition remote_older : api.NoteResponse :=
  api.mkNoteResponse "srv-1" "B" "remote body" "[]" 50 100.

Definition remote_tie : api.NoteResponse :=
  api.mkNoteResponse "srv-1" "B" "remote body" "[]" 50 200.

Definition remote_newer : api.NoteResponse :=
  api.mkNoteResponse "srv-1" "B" "remote body" "[]" 50 300.

Definition remote_unknown : api.NoteResponse :=
  api.mkNoteResponse "srv-2" "C" "other body" "[]" 60 70.

(** A live note edited locally and not yet uploaded. *)
Definition note_pending : NoteRow.t :=
  NoteRow.mk 1 "draft" "body" "[]" None None (time_Unix 50) (time_Unix 60)
             None SyncStatusPending false.

Definition pending_db : DB.t := DB.mk [note_pending] 1 [] 0 [] 0.

(** A remote end that refuses every upsert and answers the fetch with no
    note. *)
Definition client_upsert_down : api.Client :=
  api.mkClient "token"
    (fun _ _ => None)
    (fun _ _ => inl (transport_error "request failed with status 500"))
    (fun _ _ => inr []).

(** A remote end that accepts everything. *)
Definition client_up : api.Client :=
  api.mkClient "token"
    (fun _ _ => None)
    (fun _ req =>
       inr (api.mkNoteResponse
              (if String.eqb (api.req_ID req) "" then "srv-9" else api.req_ID req)
              (api.req_Title req) (api.req_Content req) (api.req_Tags req)
              (api.req_CreatedAt req) (api.req_UpdatedAt req)))
    (fun _ _ => inr []).

(** A remote end whose delete fails. *)
Definition client_delete_down : api.Client :=
  api.mkClient "token"
    (fun _ _ => Some (transport_error "request failed"))
    (fun _ _ => inl (transport_error "request failed"))
    (fun _ _ => inr []).

(** A remote end whose fetch returns one note the local table holds in a
    newer state and one it does not hold. *)
Definition client_with_reply : api.Client :=
  api.mkClient "token"
    (fun _ _ => None)
    (api.UpsertNote client_up)
    (fun _ _ => inr [remote_older; remote_unknown]).

(** A remote end that takes the uploads and fails the fetch. *)
Definition client_fetch_down : api.Client :=
  api.mkClient "token"
    (fun _ _ => None)
    (api.UpsertNote client_up)
    (fun _ _ => inl (transport_error "request failed")).

(** A note deleted before it was ever uploaded, one deleted after, and a
    live one. *)
Definition note_deleted_local : NoteRow.t :=
  NoteRow.mk 1 "never synced" "body" "[]" None None (time_Unix 50)
             (time_Unix 60) None SyncStatusPending true.

Definition note_deleted_synced : NoteRow.t :=
  NoteRow.mk 2 "was synced" "body" "[]" None None (time_Unix 50)
             (time_Unix 60) (Some "srv-2") SyncStatusPending true.

Definition deleted_db : DB.t :=
  DB.mk [note_deleted_local; note_deleted_synced] 2 [] 0 [] 0.

(** One saved version of note 1. *)
Definition version_1 : VersionRow.t :=
  VersionRow.mk 1 1 "old title" "old body" "null" (Some "ba7816bf8f01") 1
                (time_Unix 55).

Definition versioned_db : DB.t := DB.mk [note_A] 1 [] 0 [version_1] 1.

Definition folder_F : FolderRow.t :=
  FolderRow.mk 1 "folder" None (Some 0) (time_Unix 50) (time_Unix 50) false.

Definition folder_db : DB.t := DB.mk [note_A] 1 [folder_F] 1 [] 0.

(** A note titled Hello, tagged work. *)
Definition note_hello : NoteRow.t :=
  NoteRow.mk 1 "Hello" "first body" (plain_json.Marshal (Some ["work"]))
             None None (time_Unix 50) (time_Unix 60) None SyncStatusPending false.

Definition note_world : NoteRow.t :=
  NoteRow.mk 2 "world" "say hello again" (plain_json.Marshal (Some ["work"; "home"]))
             None None (time_Unix 50) (time_Unix 90) None SyncStatusPending false.

Definition note_gone : NoteRow.t :=
  NoteRow.mk 3 "hello" "deleted" (plain_json.Marshal (Some ["work"]))
             None None (time_Unix 50) (time_Unix 95) None SyncStatusPending true.

Definition search_db : DB.t :=
  DB.mk [note_hello; note_world; note_gone] 3 [] 0 [] 0.

Definition model (d : DB.t) (c : api.Client) : ui.Model :=
  ui.mkModel d (Some c) true 0 0 1000 1000.

End sample.

Module remote_sample.

(** Alice is user 1, Bob is user 2. *)
Definition alice_note : ServerNote.t :=
  ServerNote.mk "n1" 1 "alice title" "alice body" "[]" "" (time_Unix 10)
                (time_Unix 20).

Definition alice_version : ServerNoteVersion.t :=
  ServerNoteVersion.mk "v1" "n1" 1 "alice title" "alice body" "[]"
                       "ba7816bf8f01" 1 (time_Unix 20).

Definition store : ServerDB.t :=
  ServerDB.mk [alice_note] [] [alice_version].

Definition bob_request : server.UpsertNoteRequest :=
  server.mkUpsertNoteRequest "n1" "bob title" "bob body" "[]" "" 100 200.

Definition new_request : server.UpsertNoteRequest :=
  server.mkUpsertNoteRequest "" "fresh title" "fresh body" "[]" "" 100 200.

Definition new_folder_request : server.UpsertFolderRequest :=
  server.mkUpsertFolderRequest "" "folder" "" 100 200.


End remote_sample.

Module account_sample.






End account_sample.
(** * Properties *)

Example sha256_abc :
  hex.EncodeToString (sha256.Sum256 "abc")
  = "ba7816bf8f01cfea414140de5dae2223b00361a396177a9cb410ff61f20015ad".
Proof. vm_compute. reflexivity. Qed.

Example sha256_empty :
  hex.EncodeToString (sha256.Sum256 "")
  = "e3b0c44298fc1c149afbf4c8996fb92427ae41e4649b934ca495991b7852b855".
Proof. vm_compute. reflexivity. Qed.

Example sha256_two_blocks :
  hex.EncodeToString
    (sha256.Sum256 "aaaaaaaaaaaaaaaaaaaaaaaaaaaaaaaaaaaaaaaaaaaaaaaaaaaaaaaa")
  = "b35439a4ac6f0948b6d6f9e3c6af0f5f590ce20f1bde7090ef7970686ec6738a".
Proof. vm_compute. reflexivity. Qed.

Example hashStr_abc : DB.hashStr "abc" = "ba7816bf8f01".
Proof. vm_compute. reflexivity. Qed.

Example plain_json_roundtrip :
  plain_json.Unmarshal (plain_json.Marshal (Some ["work"; "todo"]))
  = (Some ["work"; "todo"], true).
Proof. vm_compute. reflexivity. Qed.

(** ** Lists and lookups *)

Lemma find_map_stable {A : Type} (p : A -> bool) (f : A -> A) (l : list A) :
  (forall x, p (f x) = p x) ->
  find p (map f l) = option_map f (find p l).
Proof.
  intros Hp. induction l as [|x l IH]; simpl.
  - reflexivity.
  - rewrite Hp. destruct (p x); [reflexivity | exact IH].
Qed.

Lemma find_app_none {A : Type} (p : A -> bool) (l l' : list A) :
  find p l = None -> find p (l ++ l') = find p l'.
Proof.
  induction l as [|x l IH]; simpl; intros H.
  - reflexivity.
  - destruct (p x); [discriminate | auto].
Qed.

Lemma map_id_when {A : Type} (f : A -> A) (l : list A) :
  (forall x, In x l -> f x = x) -> map f l = l.
Proof.
  intros H. induction l as [|x l IH]; simpl.
  - reflexivity.
  - rewrite H by (left; reflexivity). f_equal. apply IH.
    intros y Hy. apply H. right. exact Hy.
Qed.

Lemma fold_left_invariant {A B : Type} (P : A -> Prop) (f : A -> B -> A)
    (l : list B) (a : A) :
  P a -> (forall x y, P x -> P (f x y)) -> P (fold_left f l a).
Proof.
  intros Ha Hf. revert a Ha.
  induction l as [|y l IH]; simpl; intros a Ha; [exact Ha|].
  apply IH. apply Hf. exact Ha.
Qed.

Lemma find_none_when {A : Type} (p q : A -> bool) (l : list A) :
  existsb q l = false ->
  (forall x, p x = true -> q x = true) ->
  find p l = None.
Proof.
  intros Hq Hpq. induction l as [|x l IH]; simpl in *; [reflexivity|].
  apply orb_false_iff in Hq. destruct Hq as [Hx Hl].
  destruct (p x) eqn:E.
  - apply Hpq in E. congruence.
  - apply IH. exact Hl.
Qed.

Lemma existsb_when_found {A : Type} (p q : A -> bool) (l : list A) (x : A) :
  find p l = Some x ->
  (forall y, p y = true -> q y = true) ->
  existsb q l = true.
Proof.
  intros Hf Hpq. apply find_some in Hf. destruct Hf as [Hin Hp].
  apply existsb_exists. exists x. split; [exact Hin | apply Hpq; exact Hp].
Qed.

Lemma find_filter {A : Type} (p q : A -> bool) (l : list A) :
  find (fun x => p x && q x) l = find p (filter q l).
Proof.
  induction l as [|x l IH]; simpl; [reflexivity|].
  destruct (q x); simpl.
  - rewrite andb_true_r. destruct (p x); [reflexivity | exact IH].
  - rewrite andb_false_r. exact IH.
Qed.

Lemma filter_filter {A : Type} (p q : A -> bool) (l : list A) :
  filter (fun x => p x && q x) l = filter q (filter p l).
Proof.
  induction l as [|x l IH]; simpl; [reflexivity|].
  destruct (p x); simpl; [destruct (q x); simpl; congruence | exact IH].
Qed.

Lemma filter_map_stable {A : Type} (p : A -> bool) (f : A -> A) (l : list A) :
  (forall x, p (f x) = p x) ->
  (forall x, p x = true -> f x = x) ->
  filter p (map f l) = filter p l.
Proof.
  intros Hp Hf. induction l as [|x l IH]; simpl; [reflexivity|].
  rewrite Hp. destruct (p x) eqn:E; [rewrite (Hf x E), IH | rewrite IH]; reflexivity.
Qed.

Lemma filter_filter_out {A : Type} (p q : A -> bool) (l : list A) :
  (forall x, p x = true -> q x = true) ->
  filter p (filter q l) = filter p l.
Proof.
  intros H. induction l as [|x l IH]; simpl; [reflexivity|].
  destruct (q x) eqn:E; simpl.
  - rewrite IH. reflexivity.
  - destruct (p x) eqn:E'; [apply H in E'; congruence | exact IH].
Qed.

Lemma NoDup_map_eq {A B : Type} (k : A -> B) (l : list A) (x y : A) :
  NoDup (map k l) -> In x l -> In y l -> k x = k y -> x = y.
Proof.
  induction l as [|z l IH]; simpl; intros Hnd Hx Hy Hk; [contradiction|].
  inversion Hnd as [|? ? Hnotin Hnd']; subst.
  destruct Hx as [-> | Hx], Hy as [-> | Hy].
  - reflexivity.
  - exfalso. apply Hnotin. rewrite Hk. apply in_map. exact Hy.
  - exfalso. apply Hnotin. rewrite <- Hk. apply in_map. exact Hx.
  - apply IH; assumption.
Qed.

Lemma find_filter_keep {A : Type} (p q : A -> bool) (l : list A) :
  (forall x, p x = true -> q x = true) ->
  find p (filter q l) = find p l.
Proof.
  intros H. induction l as [|x l IH]; simpl; [reflexivity|].
  destruct (q x) eqn:Eq; simpl.
  - destruct (p x); [reflexivity | exact IH].
  - destruct (p x) eqn:Ep; [apply H in Ep; congruence | exact IH].
Qed.

Lemma NoDup_map_filter {A B : Type} (k : A -> B) (p : A -> bool) (l : list A) :
  NoDup (map k l) -> NoDup (map k (filter p l)).
Proof.
  induction l as [|x l IH]; simpl; intros H; [constructor|].
  inversion H as [|? ? Hnotin Hnd]; subst.
  destruct (p x); simpl; [|apply IH; exact Hnd].
  constructor; [|apply IH; exact Hnd].
  intros Hin. apply Hnotin. apply in_map_iff in Hin.
  destruct Hin as (y & Hy & Hin). apply filter_In in Hin.
  rewrite <- Hy. apply in_map. tauto.
Qed.

Lemma find_hd_filter {A : Type} (p : A -> bool) (l : list A) :
  find p l = hd_error (filter p l).
Proof.
  induction l as [|x l IH]; simpl; [reflexivity|].
  destruct (p x); [reflexivity | exact IH].
Qed.

Lemma filter_map_on {A : Type} (p : A -> bool) (g : A -> A) (l : list A) :
  (forall x, p (g x) = p x) ->
  filter p (map (fun x => if p x then g x else x) l) = map g (filter p l).
Proof.
  intros Hg. induction l as [|x l IH]; simpl; [reflexivity|].
  destruct (p x) eqn:E; simpl.
  - rewrite Hg, E, IH. reflexivity.
  - rewrite E. exact IH.
Qed.

(** ** Ordered results *)

Lemma insert_by_perm {A : Type} (le : A -> A -> bool) (x : A) (l : list A) :
  Permutation (sqlite.insert_by le x l) (x :: l).
Proof.
  induction l as [|y l IH]; simpl; [reflexivity|].
  destruct (le x y); [reflexivity|].
  rewrite IH. apply perm_swap.
Qed.

Lemma order_by_perm {A : Type} (le : A -> A -> bool) (l : list A) :
  Permutation (sqlite.order_by le l) l.
Proof.
  induction l as [|x l IH]; simpl; [reflexivity|].
  rewrite insert_by_perm. apply perm_skip. exact IH.
Qed.

Lemma order_by_desc_sorted {A : Type} (key : A -> Z) (l : list A) :
  StronglySorted (fun x y => key y <= key x) (sqlite.order_by_desc key l).
Proof.
  unfold sqlite.order_by_desc.
  induction l as [|x l IH]; simpl; [constructor|].
  revert IH. generalize (sqlite.order_by (fun x y => key y <=? key x) l).
  intros s Hs. induction Hs as [|y s Hs IHs Hy]; simpl.
  - repeat constructor.
  - destruct (Z.leb_spec (key y) (key x)).
    + constructor; [constructor; assumption|].
      constructor; [assumption|].
      eapply Forall_impl; [|exact Hy]. simpl. intros z Hz. lia.
    + constructor; [exact IHs|].
      apply Forall_forall. intros z Hz.
      apply (Permutation_in _ (insert_by_perm _ x s)) in Hz.
      destruct Hz as [<- | Hz]; [lia|].
      rewrite Forall_forall in Hy. apply Hy. exact Hz.
Qed.

Lemma sorted_map {A B : Type} (R : B -> B -> Prop) (f : A -> B) (l : list A) :
  StronglySorted (fun x y => R (f x) (f y)) l -> StronglySorted R (map f l).
Proof.
  induction 1 as [|x l Hl IH Hx]; simpl; constructor; [exact IH|].
  apply Forall_map. exact Hx.
Qed.

(** The newest row: a key above all others comes first in descending
    order. *)
Lemma order_by_desc_newest {A : Type} (key : A -> Z) (l : list A) (x : A) :
  (forall y, In y l -> key y < key x) ->
  hd_error (sqlite.order_by_desc key (l ++ [x])) = Some x.
Proof.
  unfold sqlite.order_by_desc, sqlite.order_by. rewrite fold_right_app. simpl.
  induction l as [|y l IH]; simpl; intros H; [reflexivity|].
  assert (IH' := IH (fun z Hz => H z (or_intror Hz))).
  destruct (fold_right _ [x] l) as [|z rest]; [discriminate|].
  simpl in IH'. injection IH' as ->.
  simpl. assert (key y < key x) by (apply H; left; reflexivity).
  destruct (Z.leb_spec (key x) (key y)); [lia | reflexivity].
Qed.

(** [ORDER BY version_num DESC LIMIT 1] gives a row of the greatest
    number. *)
Lemma order_by_desc_head {A : Type} (key : A -> Z) (l : list A) (x : A) :
  hd_error (sqlite.order_by_desc key l) = Some x ->
  In x l /\ forall y, In y l -> key y <= key x.
Proof.
  intros H.
  pose proof (order_by_desc_sorted key l) as Hs.
  pose proof (order_by_perm (fun x y => key y <=? key x) l) as Hp.
  fold (sqlite.order_by_desc key l) in Hp.
  destruct (sqlite.order_by_desc key l) as [|z rest]; [discriminate|].
  simpl in H. injection H as ->.
  split.
  - apply (Permutation_in _ Hp). left. reflexivity.
  - intros y Hy. apply (Permutation_in _ (Permutation_sym Hp)) in Hy.
    inversion Hs as [|? ? _ Hall]; subst.
    destruct Hy as [<- | Hy]; [lia|].
    rewrite Forall_forall in Hall. apply Hall. exact Hy.
Qed.

(** ** The download phase: last write wins, local wins ties *)

Section Download.
Context {codec : JSON}.

Lemma GetNoteByServerID_row (d : DB.t) (sid : string) (loc : Note.t) :
  DB.GetNoteByServerID d sid = Some loc ->
  exists r, find (fun r => DB.option_string_eqb (NoteRow.server_id r) sid)
                 (DB.notes d) = Some r
            /\ loc = DB.scan_note_lax r.
Proof.
  unfold DB.GetNoteByServerID. intros H.
  destruct (find _ (DB.notes d)) as [r|]; simpl in H; [|discriminate].
  exists r. split; [reflexivity | congruence].
Qed.

Lemma download_note_rows (st : api.state) (sn : api.NoteResponse) :
  exists id,
    rows_with_server_id (api.database (api.download_note st sn)) (api.nr_ID sn)
    = downloaded sn (rows_with_server_id (api.database st) (api.nr_ID sn)) id.
Proof.
  unfold api.download_note; simpl. unfold DB.UpsertFromServer, DB.GetNoteByServerID.
  rewrite find_hd_filter. fold (rows_with_server_id (api.database st) (api.nr_ID sn)).
  destruct (rows_with_server_id (api.database st) (api.nr_ID sn)) as [|r rs] eqn:E;
    simpl.
  - eexists. unfold rows_with_server_id in *; simpl.
    rewrite filter_app, E. simpl.
    rewrite String.eqb_refl. reflexivity.
  - exists 0. unfold After.
    destruct (NoteRow.updated_at r <? time_Unix (api.nr_UpdatedAt sn)).
    + unfold rows_with_server_id in *; simpl.
      rewrite (filter_map_on
                 (fun r => DB.option_string_eqb (NoteRow.server_id r) (api.nr_ID sn))
                 (replaced_by sn)) by reflexivity.
      rewrite E. reflexivity.
    + exact E.
Qed.

Lemma download_note_frame (st : api.state) (sn : api.NoteResponse)
    (serverID : string) :
  api.nr_ID sn <> serverID ->
  rows_with_server_id (api.database (api.download_note st sn)) serverID
  = rows_with_server_id (api.database st) serverID.
Proof.
  intros Hneq. unfold api.download_note; simpl. unfold DB.UpsertFromServer.
  destruct (DB.GetNoteByServerID (api.database st) (api.nr_ID sn)) as [loc|].
  - destruct (After _ _); [|reflexivity].
    unfold rows_with_server_id; simpl. apply filter_map_stable.
    + intros x. destruct (DB.option_string_eqb (NoteRow.server_id x) (api.nr_ID sn));
        reflexivity.
    + intros x Hx.
      destruct (NoteRow.server_id x) as [s|]; simpl in *; [|discriminate].
      apply String.eqb_eq in Hx. subst s.
      destruct (String.eqb_spec serverID (api.nr_ID sn)); [congruence | reflexivity].
  - unfold rows_with_server_id; simpl. rewrite filter_app. simpl.
    destruct (String.eqb_spec (api.nr_ID sn) serverID); [congruence|].
    apply app_nil_r.
Qed.

Lemma download_fold_frame (l : list api.NoteResponse) (st : api.state)
    (serverID : string) :
  ~ In serverID (map api.nr_ID l) ->
  rows_with_server_id (api.database (fold_left api.download_note l st)) serverID
  = rows_with_server_id (api.database st) serverID.
Proof.
  revert st. induction l as [|sn l IH]; simpl; intros st Hnot; [reflexivity|].
  rewrite IH by tauto. apply download_note_frame. tauto.
Qed.

Lemma download_fold_rows (l : list api.NoteResponse) (st : api.state)
    (sn : api.NoteResponse) :
  NoDup (map api.nr_ID l) ->
  In sn l ->
  exists id,
    rows_with_server_id (api.database (fold_left api.download_note l st))
                        (api.nr_ID sn)
    = downloaded sn (rows_with_server_id (api.database st) (api.nr_ID sn)) id.
Proof.
  revert st. induction l as [|h l IH]; simpl; intros st Hnd Hin; [contradiction|].
  inversion Hnd as [|? ? Hnotin Hnd']; subst.
  destruct Hin as [-> | Hin].
  - rewrite download_fold_frame by exact Hnotin. apply download_note_rows.
  - destruct (IH (api.download_note st h) Hnd' Hin) as [id Hid].
    exists id. rewrite Hid. rewrite download_note_frame; [reflexivity|].
    intros E. apply Hnotin. rewrite E. apply in_map. exact Hin.
Qed.

(** A step of the download loop stores no stamp but those of its note. *)
Lemma download_note_stamps (st : api.state) (sn : api.NoteResponse) :
  local_stamps_read_back (api.database st) = true ->
  reply_stamps_read_back sn = true ->
  local_stamps_read_back (api.database (api.download_note st sn)) = true.
Proof.
  unfold local_stamps_read_back, reply_stamps_read_back.
  intros Hd Hsn. apply andb_true_iff in Hsn. destruct Hsn as [Hc Hu].
  unfold api.download_note; cbn [api.database]. unfold DB.UpsertFromServer.
  destruct (DB.GetNoteByServerID (api.database st) (api.nr_ID sn)) as [loc|].
  - destruct (After _ _); [|exact Hd].
    cbn [DB.set_notes DB.notes]. rewrite forallb_forall in *.
    intros x Hx. apply in_map_iff in Hx. destruct Hx as (r & <- & Hr).
    specialize (Hd r Hr).
    destruct (DB.option_string_eqb (NoteRow.server_id r) (api.nr_ID sn));
      [|exact Hd].
    cbn [NoteRow.created_at NoteRow.updated_at].
    apply andb_true_iff in Hd. destruct Hd as [Hd _]. rewrite Hd, Hu. reflexivity.
  - cbn [DB.notes]. rewrite forallb_app, Hd. cbn [forallb].
    cbn [NoteRow.created_at NoteRow.updated_at]. rewrite Hc, Hu. reflexivity.
Qed.

(** C1.  One step of the download loop, on the database as the step finds
    it, for stamps the driver reads back as written (those of the local
    rows and the two of the remote note; a stamp of the year 10000 or later
    comes back from the table as the zero time, and the comparison is then
    made with that).  When a local row carries the remote note's server
    id: a remote [updatedAt] that is not strictly later (equal or older)
    leaves the whole database as it was; a strictly later one puts the
    remote title, content and tags on the rows of that server id and on no
    other row.  When no local row carries it, one row is appended, marked
    synced and not deleted, holding the remote fields.  Over the whole
    phase, for a reply whose notes have distinct ids: the rows that carry
    the server id of a note of the reply are, at the end, what that note's
    own step makes of the rows that carried it at the start.  The step
    stores no stamp but those of its note, so the next step finds stamps
    that read back again. *)
Theorem C1_download_note_last_write_wins (st : api.state) (sn : api.NoteResponse) :
  local_stamps_read_back (api.database st) = true ->
  reply_stamps_read_back sn = true ->
  let d := api.database st in
  let d' := api.database (api.download_note st sn) in
  (forall loc,
     DB.GetNoteByServerID d (api.nr_ID sn) = Some loc ->
     time_Unix (api.nr_UpdatedAt sn) <= Note.UpdatedAt loc ->
     d' = d)
  /\ (forall loc,
        DB.GetNoteByServerID d (api.nr_ID sn) = Some loc ->
        Note.UpdatedAt loc < time_Unix (api.nr_UpdatedAt sn) ->
        DB.notes d'
        = map (fun r =>
                 if DB.option_string_eqb (NoteRow.server_id r) (api.nr_ID sn)
                 then replaced_by sn r else r)
              (DB.notes d)
        /\ exists r,
             DB.GetNoteByServerID d' (api.nr_ID sn)
             = Some (DB.scan_note_lax (replaced_by sn r))
             /\ loc = DB.scan_note_lax r)
  /\ (DB.GetNoteByServerID d (api.nr_ID sn) = None ->
      exists id,
        DB.notes d' = DB.notes d ++ [inserted_from sn id]
        /\ DB.GetNoteByServerID d' (api.nr_ID sn)
           = Some (DB.scan_note_lax (inserted_from sn id))
        /\ NoteRow.sync_status (inserted_from sn id) = SyncStatusSynced)
  /\ (forall client lastSync serverNotes,
        api.SyncNotes client (api.log st) lastSync = inr serverNotes ->
        NoDup (map api.nr_ID serverNotes) ->
        In sn serverNotes ->
        exists id,
          rows_with_server_id (api.database (api.download client lastSync st))
                              (api.nr_ID sn)
          = downloaded sn (rows_with_server_id d (api.nr_ID sn)) id)
  /\ local_stamps_read_back d' = true.
Proof.
  intros Hstamps Hreply. cbv zeta.
  pose proof (download_note_stamps st sn Hstamps Hreply) as Hnext.
  assert (Hphase :
    forall client lastSync serverNotes,
      api.SyncNotes client (api.log st) lastSync = inr serverNotes ->
      NoDup (map api.nr_ID serverNotes) ->
      In sn serverNotes ->
      exists id,
        rows_with_server_id (api.database (api.download client lastSync st))
                            (api.nr_ID sn)
        = downloaded sn (rows_with_server_id (api.database st) (api.nr_ID sn)) id).
  { intros client lastSync serverNotes Hfetch Hnd Hin.
    unfold api.download. rewrite Hfetch.
    apply (download_fold_rows serverNotes
             (api.mkState (api.database st)
                (api.log st ++ [api.mkEvent None (api.CallSyncNotes lastSync) false])
                (api.result st))
             sn Hnd Hin). }
  split; [|split; [|split; [|split; [exact Hphase | exact Hnext]]]].
  all: unfold api.download_note; simpl; unfold DB.UpsertFromServer.
  - intros loc Hloc Hle. rewrite Hloc.
    unfold After. destruct (Z.ltb_spec (Note.UpdatedAt loc)
                                       (time_Unix (api.nr_UpdatedAt sn))); [lia|].
    reflexivity.
  - intros loc Hloc Hlt. rewrite Hloc.
    unfold After. destruct (Z.ltb_spec (Note.UpdatedAt loc)
                                       (time_Unix (api.nr_UpdatedAt sn))); [|lia].
    split; [reflexivity|].
    destruct (GetNoteByServerID_row _ _ _ Hloc) as (r & Hr & ->).
    exists r. split; [|reflexivity].
    unfold DB.GetNoteByServerID, DB.set_notes; simpl.
    rewrite find_map_stable.
    + rewrite Hr. simpl.
      apply find_some in Hr. destruct Hr as [_ Hr]. rewrite Hr. reflexivity.
    + intros x. destruct (DB.option_string_eqb (NoteRow.server_id x) _) eqn:E;
        simpl; rewrite E; reflexivity.
  - intros Hnone. rewrite Hnone.
    eexists. split; [reflexivity|]. split; [|reflexivity].
    unfold DB.GetNoteByServerID in *; simpl.
    destruct (find _ (DB.notes (api.database st))) eqn:E; [discriminate|].
    rewrite (find_app_none _ _ _ E). simpl.
    unfold DB.option_string_eqb. rewrite String.eqb_refl. reflexivity.
Qed.

End Download.

Lemma C1_download_note_witness :
  api.database (api.download_note (api.begin sample.local_db) sample.remote_older)
  = sample.local_db
  /\ api.database (api.download_note (api.begin sample.local_db) sample.remote_tie)
     = sample.local_db
  /\ map NoteRow.title
         (DB.notes (api.database
                      (api.download_note (api.begin sample.local_db)
                                         sample.remote_newer)))
     = ["B"]
  /\ map NoteRow.title
         (DB.notes (api.database
                      (api.download_note (api.begin sample.local_db)
                                         sample.remote_unknown)))
     = ["A"; "C"]
  /\ rows_with_server_id
       (api.database (api.download sample.client_with_reply 0
                                   (api.begin sample.local_db)))
       "srv-1"
     = [sample.note_A].
Proof.
  split; [|split; [|split; [|split]]].
  - eapply (proj1 (C1_download_note_last_write_wins
                   (api.begin sample.local_db) sample.remote_older eq_refl eq_refl)).
    + reflexivity.
    + vm_compute. discriminate.
  - eapply (proj1 (C1_download_note_last_write_wins
                   (api.begin sample.local_db) sample.remote_tie eq_refl eq_refl)).
    + reflexivity.
    + vm_compute. discriminate.
  - destruct (proj1 (proj2 (C1_download_note_last_write_wins
                   (api.begin sample.local_db) sample.remote_newer eq_refl eq_refl))
                    (DB.scan_note_lax sample.note_A)) as [H _].
    + reflexivity.
    + reflexivity.
    + rewrite H. reflexivity.
  - destruct (proj1 (proj2 (proj2 (C1_download_note_last_write_wins
                   (api.begin sample.local_db) sample.remote_unknown eq_refl eq_refl))))
      as (id & H & _).
    + reflexivity.
    + rewrite H. reflexivity.
  - destruct (proj1 (proj2 (proj2 (proj2 (C1_download_note_last_write_wins
                   (api.begin sample.local_db) sample.remote_older eq_refl eq_refl))))
                    sample.client_with_reply 0
                    [sample.remote_older; sample.remote_unknown])
      as (id & H).
    + reflexivity.
    + repeat constructor; simpl; intuition discriminate.
    + left. reflexivity.
    + change (api.nr_ID sample.remote_older) with "srv-1" in H.
      rewrite H. reflexivity.
Defined.

(** ** The checkpoint after a pass *)

Lemma no_failure_count (l : list api.Event) :
  all_succeeded l = (List.length (filter api.failed l) =? 0)%nat.
Proof.
  unfold all_succeeded. induction l as [|ev l IH]; simpl; [reflexivity|].
  destruct (api.failed ev); simpl; [reflexivity | exact IH].
Qed.

Section Checkpoint.
Context {codec : JSON}.

Lemma upload_note_errors (client : api.Client) (st : api.state) (note : Note.t) :
  errors_are_failures st -> errors_are_failures (api.upload_note client st note).
Proof.
  unfold errors_are_failures, api.upload_note. intros H.
  destruct (Note.Deleted note).
  - destruct (negb (String.eqb (Note.ServerID note) "")).
    + destruct (api.DeleteNote client (api.log st) (Note.ServerID note));
        simpl; rewrite filter_app, !length_app; simpl; lia.
    + simpl. exact H.
  - destruct (api.UpsertNote client (api.log st) _);
      simpl; rewrite filter_app, !length_app; simpl; lia.
Qed.

Lemma download_errors (client : api.Client) (lastSync : Z) (st : api.state) :
  errors_are_failures st -> errors_are_failures (api.download client lastSync st).
Proof.
  unfold api.download. intros H.
  destruct (api.SyncNotes client (api.log st) lastSync) as [err|serverNotes].
  - unfold errors_are_failures in *; simpl.
    rewrite filter_app, !length_app; simpl; lia.
  - apply fold_left_invariant.
    + unfold errors_are_failures in *; simpl.
      rewrite filter_app, !length_app; simpl; lia.
    + intros x y Hx. unfold errors_are_failures in *; simpl. exact Hx.
Qed.

Lemma Sync_errors (d : DB.t) (client : api.Client) (lastSync : Z) :
  errors_are_failures (fst (api.Sync d client lastSync))
  /\ snd (api.Sync d client lastSync) = None.
Proof.
  unfold api.Sync; simpl. split; [|reflexivity].
  apply download_errors. unfold api.upload.
  apply fold_left_invariant.
  - reflexivity.
  - intros x y Hx. apply upload_note_errors. exact Hx.
Qed.

(** The fetch is the last request of a pass, so a failed fetch is a failed
    request. *)
Lemma fetch_failed_not_all (log : list api.Event) :
  fetch_failed log = true -> all_succeeded log = false.
Proof.
  unfold fetch_failed, all_succeeded.
  induction log as [|ev log IH]; simpl; [discriminate|].
  destruct (api.failed ev); simpl.
  - reflexivity.
  - rewrite andb_false_r. simpl. exact IH.
Qed.

(** C2, as the code has it.  After a pass the saved checkpoint is the new
    clock reading exactly when the client is authenticated and no request
    of the pass failed; otherwise it is the old one.  A failed download
    fetch keeps the old checkpoint, and so does a failed upload or delete
    of a single note. *)
Theorem C2_checkpoint_saved_iff_no_error (now : Time) (m : ui.Model) :
  ui.saved_LastSync (fst (ui.sync_pass now m))
  = (if authenticated m && all_succeeded (snd (ui.sync_pass now m))
     then Unix now else ui.saved_LastSync m)
  /\ (fetch_failed (snd (ui.sync_pass now m)) = true ->
      ui.saved_LastSync (fst (ui.sync_pass now m)) = ui.saved_LastSync m).
Proof.
  assert (Hmain :
    ui.saved_LastSync (fst (ui.sync_pass now m))
    = (if authenticated m && all_succeeded (snd (ui.sync_pass now m))
       then Unix now else ui.saved_LastSync m)).
  { unfold ui.sync_pass, ui.doSync, authenticated.
    destruct (ui.apiClient m) as [client|]; [|reflexivity].
    destruct (api.IsAuthenticated client); cbn [negb andb]; [|reflexivity].
    destruct (Sync_errors (ui.db m) client (ui.config_LastSync m)) as [He Hn].
    destruct (api.Sync (ui.db m) client (ui.config_LastSync m)) as [st err].
    cbn [fst snd] in He, Hn. subst err.
    unfold errors_are_failures in He.
    destruct (api.Errors (api.result st)) as [|e es]; cbn in *;
      rewrite no_failure_count, <- He; reflexivity. }
  split; [exact Hmain|].
  intros Hf. rewrite Hmain. rewrite (fetch_failed_not_all _ Hf).
  rewrite andb_false_r. reflexivity.
Qed.

End Checkpoint.

(** C2, as the claim has it, fails: a pass whose fetch succeeds and whose
    one upload fails does not save the checkpoint. *)
Lemma C2_upload_error_blocks_checkpoint :
  fetch_failed
    (snd (ui.sync_pass (time_Unix 5000)
            (sample.model sample.pending_db sample.client_upsert_down)))
  = false
  /\ ui.saved_LastSync
       (fst (ui.sync_pass (time_Unix 5000)
               (sample.model sample.pending_db sample.client_upsert_down)))
     = 1000
  /\ ~ (fetch_failed
          (snd (ui.sync_pass (time_Unix 5000)
                  (sample.model sample.pending_db sample.client_upsert_down)))
        = false
        -> ui.saved_LastSync
             (fst (ui.sync_pass (time_Unix 5000)
                     (sample.model sample.pending_db sample.client_upsert_down)))
           = Unix (time_Unix 5000)).
Proof.
  split; [|split]; [reflexivity | reflexivity |].
  intros H. specialize (H eq_refl). vm_compute in H. discriminate H.
Qed.

Lemma C2_checkpoint_witness :
  ui.saved_LastSync
    (fst (ui.sync_pass (time_Unix 5000)
            (sample.model sample.pending_db sample.client_up)))
  = 5000
  /\ ui.saved_LastSync
       (fst (ui.sync_pass (time_Unix 5000)
               (sample.model sample.pending_db sample.client_fetch_down)))
     = 1000.
Proof.
  split.
  - rewrite (proj1 (C2_checkpoint_saved_iff_no_error
                      (time_Unix 5000)
                      (sample.model sample.pending_db sample.client_up))).
    reflexivity.
  - rewrite (proj2 (C2_checkpoint_saved_iff_no_error
                      (time_Unix 5000)
                      (sample.model sample.pending_db sample.client_fetch_down))).
    + reflexivity.
    + reflexivity.
Defined.

(** ** The remote store: what an upsert stores and what it answers *)

Section RemoteNotes.
Variables (fresh : string) (d : ServerDB.t) (user : Z).
Variables (id title content tags parent : string) (createdAt updatedAt : Time).

Local Abbreviation d' :=
  (fst (ServerDB.UpsertNote fresh d user id title content tags parent
                            createdAt updatedAt)).
Local Abbreviation key := (ServerDB.mint fresh id).

Lemma UpsertNote_inserts :
  existsb (fun n => String.eqb (ServerNote.ID n) key) (ServerDB.notes d) = false ->
  ServerDB.GetNote d' key user
  = Some (ServerNote.mk key user title content tags parent createdAt updatedAt).
Proof.
  intros Hnew. unfold ServerDB.UpsertNote, ServerDB.GetNote; cbn [fst ServerDB.notes].
  rewrite Hnew.
  rewrite find_app_none.
  - simpl. rewrite String.eqb_refl, Z.eqb_refl. reflexivity.
  - apply (find_none_when _ _ _ Hnew).
    intros x Hx. apply andb_true_iff in Hx. tauto.
Qed.

Lemma UpsertNote_updates (old : ServerNote.t) :
  ServerDB.GetNote d key user = Some old ->
  ServerDB.GetNote d' key user
  = Some (ServerNote.mk (ServerNote.ID old) (ServerNote.UserID old)
                        title content tags parent
                        (ServerNote.CreatedAt old) updatedAt).
Proof.
  intros Hold. unfold ServerDB.UpsertNote, ServerDB.GetNote in *; cbn [fst ServerDB.notes].
  rewrite (existsb_when_found _ _ _ _ Hold)
    by (intros y Hy; apply andb_true_iff in Hy; tauto).
  simpl. rewrite find_map_stable.
  - rewrite Hold. simpl. apply find_some in Hold. destruct Hold as [_ Hp].
    rewrite Hp. reflexivity.
  - intros x.
    destruct (String.eqb (ServerNote.ID x) key && (ServerNote.UserID x =? user)) eqn:E;
      simpl; rewrite E; reflexivity.
Qed.

(** The ownership guard: an id stored under another user is left alone. *)
Lemma UpsertNote_foreign_id (owner : Z) (old : ServerNote.t) :
  NoDup (map ServerNote.ID (ServerDB.notes d)) ->
  owner <> user ->
  ServerDB.GetNote d key owner = Some old ->
  d' = d.
Proof.
  intros Hnd Hneq Hold. unfold ServerDB.UpsertNote; cbn [fst].
  unfold ServerDB.GetNote in Hold.
  rewrite (existsb_when_found _ _ _ _ Hold)
    by (intros y Hy; apply andb_true_iff in Hy; tauto).
  apply find_some in Hold. destruct Hold as [Hin Hp].
  apply andb_true_iff in Hp. destruct Hp as [Hid Hu].
  apply String.eqb_eq in Hid. apply Z.eqb_eq in Hu.
  rewrite map_id_when; [destruct d; reflexivity|].
  intros x Hx.
  destruct (String.eqb (ServerNote.ID x) key && (ServerNote.UserID x =? user)) eqn:E;
    [|reflexivity].
  apply andb_true_iff in E. destruct E as [Ex Eu].
  apply String.eqb_eq in Ex. apply Z.eqb_eq in Eu.
  assert (x = old) by (apply (NoDup_map_eq ServerNote.ID _ _ _ Hnd Hx Hin); congruence).
  subst x. congruence.
Qed.

(** What another user reads is not touched by an upsert. *)
Lemma UpsertNote_other_view (other : Z) :
  other <> user -> note_view d' other = note_view d other.
Proof.
  intros Hneq. unfold note_view, ServerDB.UpsertNote; cbn [fst ServerDB.notes].
  destruct (existsb _ (ServerDB.notes d)).
  - apply filter_map_stable.
    + intros x. destruct (String.eqb (ServerNote.ID x) key
                          && (ServerNote.UserID x =? user)); reflexivity.
    + intros x Hx. apply Z.eqb_eq in Hx.
      destruct (ServerNote.UserID x =? user) eqn:E.
      * apply Z.eqb_eq in E. congruence.
      * rewrite andb_false_r. reflexivity.
  - rewrite filter_app. simpl.
    destruct (user =? other) eqn:E.
    + apply Z.eqb_eq in E. congruence.
    + apply app_nil_r.
Qed.

End RemoteNotes.

Section RemoteFolders.
Variables (fresh : string) (d : ServerDB.t) (user : Z).
Variables (id title parent : string) (createdAt updatedAt : Time).

Local Abbreviation d' :=
  (fst (ServerDB.UpsertFolder fresh d user id title parent createdAt updatedAt)).
Local Abbreviation key := (ServerDB.mint fresh id).

Lemma UpsertFolder_inserts :
  existsb (fun f => String.eqb (ServerFolder.ID f) key) (ServerDB.folders d) = false ->
  ServerDB.GetFolder d' key user
  = Some (ServerFolder.mk key user title parent createdAt updatedAt).
Proof.
  intros Hnew. unfold ServerDB.UpsertFolder, ServerDB.GetFolder; cbn [fst ServerDB.folders].
  rewrite Hnew.
  rewrite find_app_none.
  - simpl. rewrite String.eqb_refl, Z.eqb_refl. reflexivity.
  - apply (find_none_when _ _ _ Hnew).
    intros x Hx. apply andb_true_iff in Hx. tauto.
Qed.

Lemma UpsertFolder_updates (old : ServerFolder.t) :
  ServerDB.GetFolder d key user = Some old ->
  ServerDB.GetFolder d' key user
  = Some (ServerFolder.mk (ServerFolder.ID old) (ServerFolder.UserID old)
                          title parent (ServerFolder.CreatedAt old) updatedAt).
Proof.
  intros Hold. unfold ServerDB.UpsertFolder, ServerDB.GetFolder in *; cbn [fst ServerDB.folders].
  rewrite (existsb_when_found _ _ _ _ Hold)
    by (intros y Hy; apply andb_true_iff in Hy; tauto).
  simpl. rewrite find_map_stable.
  - rewrite Hold. simpl. apply find_some in Hold. destruct Hold as [_ Hp].
    rewrite Hp. reflexivity.
  - intros x.
    destruct (String.eqb (ServerFolder.ID x) key
              && (ServerFolder.UserID x =? user)) eqn:E;
      simpl; rewrite E; reflexivity.
Qed.

Lemma UpsertFolder_other_view (other : Z) :
  other <> user -> folder_view d' other = folder_view d other.
Proof.
  intros Hneq. unfold folder_view, ServerDB.UpsertFolder; cbn [fst ServerDB.folders].
  destruct (existsb _ (ServerDB.folders d)).
  - apply filter_map_stable.
    + intros x. destruct (String.eqb (ServerFolder.ID x) key
                          && (ServerFolder.UserID x =? user)); reflexivity.
    + intros x Hx. apply Z.eqb_eq in Hx.
      destruct (ServerFolder.UserID x =? user) eqn:E.
      * apply Z.eqb_eq in E. congruence.
      * rewrite andb_false_r. reflexivity.
  - rewrite filter_app. simpl.
    destruct (user =? other) eqn:E.
    + apply Z.eqb_eq in E. congruence.
    + apply app_nil_r.
Qed.

End RemoteFolders.

Lemma Unix_time_Unix (sec : Z) : Unix (time_Unix sec) = sec.
Proof. unfold Unix, time_Unix. apply Z.div_mul. discriminate. Qed.

(** C3, as the code has it.  The upsert handlers store, for each of
    createdAt and updatedAt, the request's value whenever it is positive
    and the server's clock only otherwise.  Under a new id one row is
    added to the table, holding both; an update of the caller's own row
    leaves the table as long as it was, with the new updatedAt and the
    createdAt the row had in that row.  The statement is on the rows the
    table holds after the request. *)
Theorem C3_upsert_stores_request_times
    (now1 now2 : Time) (fresh : string) (d : ServerDB.t) (user : Z) :
  (forall req : server.UpsertNoteRequest,
     server.req_Title req <> "" ->
     let key := ServerDB.mint fresh (server.req_ID req) in
     let d' := fst (server.upsertNoteHandler now1 now2 fresh d user req) in
     (existsb (fun n => String.eqb (ServerNote.ID n) key) (ServerDB.notes d) = false ->
      ServerDB.notes d'
      = ServerDB.notes d
        ++ [ServerNote.mk key user (server.req_Title req) (server.req_Content req)
              (server.req_Tags req) (server.req_ParentFolderID req)
              (stored_time (server.req_CreatedAt req) now1)
              (stored_time (server.req_UpdatedAt req) now2)])
     /\ (forall old,
           In old (ServerDB.notes d) ->
           ServerNote.ID old = key -> ServerNote.UserID old = user ->
           In (ServerNote.mk key user (server.req_Title req)
                 (server.req_Content req) (server.req_Tags req)
                 (server.req_ParentFolderID req)
                 (ServerNote.CreatedAt old)
                 (stored_time (server.req_UpdatedAt req) now2))
              (ServerDB.notes d')
           /\ List.length (ServerDB.notes d') = List.length (ServerDB.notes d)))
  /\ (forall req : server.UpsertFolderRequest,
        server.freq_Title req <> "" ->
        let key := ServerDB.mint fresh (server.freq_ID req) in
        let d' := fst (server.upsertFolderHandler now1 now2 fresh d user req) in
        (existsb (fun f => String.eqb (ServerFolder.ID f) key) (ServerDB.folders d)
         = false ->
         ServerDB.folders d'
         = ServerDB.folders d
           ++ [ServerFolder.mk key user (server.freq_Title req)
                 (server.freq_ParentFolderID req)
                 (stored_time (server.freq_CreatedAt req) now1)
                 (stored_time (server.freq_UpdatedAt req) now2)])
        /\ (forall old,
              In old (ServerDB.folders d) ->
              ServerFolder.ID old = key -> ServerFolder.UserID old = user ->
              In (ServerFolder.mk key user (server.freq_Title req)
                    (server.freq_ParentFolderID req)
                    (ServerFolder.CreatedAt old)
                    (stored_time (server.freq_UpdatedAt req) now2))
                 (ServerDB.folders d')
              /\ List.length (ServerDB.folders d')
                 = List.length (ServerDB.folders d)))
  /\ (forall field now, 0 < field -> stored_time field now = time_Unix field)
  /\ (forall field now, field <= 0 -> stored_time field now = now).
Proof.
  split; [|split; [|split]].
  - intros req Htitle key d'.
    assert (Hd' : d' = fst (ServerDB.UpsertNote fresh d user (server.req_ID req)
                              (server.req_Title req) (server.req_Content req)
                              (server.req_Tags req) (server.req_ParentFolderID req)
                              (stored_time (server.req_CreatedAt req) now1)
                              (stored_time (server.req_UpdatedAt req) now2))).
    { unfold d', server.upsertNoteHandler.
      apply String.eqb_neq in Htitle. rewrite Htitle. reflexivity. }
    rewrite Hd'. unfold ServerDB.UpsertNote. cbn [fst ServerDB.notes]. fold key.
    split.
    + intros Hnew. rewrite Hnew. reflexivity.
    + intros old Hin Hid Hu.
      assert (He : existsb (fun n => String.eqb (ServerNote.ID n) key)
                           (ServerDB.notes d) = true).
      { apply existsb_exists. exists old. split; [exact Hin|].
        apply String.eqb_eq. exact Hid. }
      rewrite He. split; [|apply length_map].
      apply in_map_iff. exists old. split; [|exact Hin].
      rewrite Hid, Hu, String.eqb_refl, Z.eqb_refl. reflexivity.
  - intros req Htitle key d'.
    assert (Hd' : d' = fst (ServerDB.UpsertFolder fresh d user (server.freq_ID req)
                              (server.freq_Title req) (server.freq_ParentFolderID req)
                              (stored_time (server.freq_CreatedAt req) now1)
                              (stored_time (server.freq_UpdatedAt req) now2))).
    { unfold d', server.upsertFolderHandler.
      apply String.eqb_neq in Htitle. rewrite Htitle. reflexivity. }
    rewrite Hd'. unfold ServerDB.UpsertFolder. cbn [fst ServerDB.folders]. fold key.
    split.
    + intros Hnew. rewrite Hnew. reflexivity.
    + intros old Hin Hid Hu.
      assert (He : existsb (fun f => String.eqb (ServerFolder.ID f) key)
                           (ServerDB.folders d) = true).
      { apply existsb_exists. exists old. split; [exact Hin|].
        apply String.eqb_eq. exact Hid. }
      rewrite He. split; [|apply length_map].
      apply in_map_iff. exists old. split; [|exact Hin].
      rewrite Hid, Hu, String.eqb_refl, Z.eqb_refl. reflexivity.
  - intros field now H. unfold stored_time.
    destruct (Z.ltb_spec 0 field); [reflexivity | lia].
  - intros field now H. unfold stored_time.
    destruct (Z.ltb_spec 0 field); [lia | reflexivity].
Qed.

(** C3, as the claim has it, fails: with the server's clock at t=5000 a
    request carrying createdAt=100 and updatedAt=200 is stored with the
    request's two values. *)
Lemma C3_request_times_are_stored :
  map (fun n => (ServerNote.CreatedAt n, ServerNote.UpdatedAt n))
      (ServerDB.notes
         (fst (server.upsertNoteHandler (time_Unix 5000) (time_Unix 5001) "u-1"
                 ServerDB.empty 2 remote_sample.new_request)))
  = [(time_Unix 100, time_Unix 200)]
  /\ ~ (map (fun n => (ServerNote.CreatedAt n, ServerNote.UpdatedAt n))
            (ServerDB.notes
               (fst (server.upsertNoteHandler (time_Unix 5000) (time_Unix 5001)
                       "u-1" ServerDB.empty 2 remote_sample.new_request)))
        = [(time_Unix 5000, time_Unix 5001)]).
Proof.
  split; [reflexivity|]. vm_compute. discriminate.
Qed.

Lemma C3_upsert_stores_request_times_witness :
  map (fun n => (ServerNote.CreatedAt n, ServerNote.UpdatedAt n))
      (ServerDB.notes
         (fst (server.upsertNoteHandler (time_Unix 5000) (time_Unix 5000) "u-1"
                 ServerDB.empty 2 remote_sample.new_request)))
  = [(time_Unix 100, time_Unix 200)]
  /\ map (fun f => (ServerFolder.CreatedAt f, ServerFolder.UpdatedAt f))
         (ServerDB.folders
            (fst (server.upsertFolderHandler (time_Unix 5000) (time_Unix 5000)
                    "u-2" ServerDB.empty 2 remote_sample.new_folder_request)))
     = [(time_Unix 100, time_Unix 200)].
Proof.
  split.
  - destruct (proj1 (C3_upsert_stores_request_times
                       (time_Unix 5000) (time_Unix 5000) "u-1" ServerDB.empty 2)
                    remote_sample.new_request) as [H _].
    + discriminate.
    + rewrite H; reflexivity.
  - destruct (proj1 (proj2 (C3_upsert_stores_request_times
                              (time_Unix 5000) (time_Unix 5000) "u-2"
                              ServerDB.empty 2))
                    remote_sample.new_folder_request) as [H _].
    + discriminate.
    + rewrite H; reflexivity.
Defined.

(** ** The remote store: one user's writes and another user's reads *)

Lemma GetNote_of_view (d : ServerDB.t) (id : string) (userID : Z) :
  ServerDB.GetNote d id userID
  = find (fun n => String.eqb (ServerNote.ID n) id) (note_view d userID).
Proof. apply find_filter. Qed.

Lemma GetNotesSince_of_view (d : ServerDB.t) (userID : Z) (since : Time) :
  ServerDB.GetNotesSince d userID since
  = sqlite.order_by_desc ServerNote.UpdatedAt
      (filter (fun n => since <? ServerNote.UpdatedAt n) (note_view d userID)).
Proof. unfold ServerDB.GetNotesSince, note_view. rewrite filter_filter. reflexivity. Qed.

Lemma GetFolder_of_view (d : ServerDB.t) (id : string) (userID : Z) :
  ServerDB.GetFolder d id userID
  = find (fun f => String.eqb (ServerFolder.ID f) id) (folder_view d userID).
Proof. apply find_filter. Qed.

Lemma GetFoldersSince_of_view (d : ServerDB.t) (userID : Z) (since : Time) :
  ServerDB.GetFoldersSince d userID since
  = sqlite.order_by_desc ServerFolder.UpdatedAt
      (filter (fun f => since <? ServerFolder.UpdatedAt f) (folder_view d userID)).
Proof.
  unfold ServerDB.GetFoldersSince, folder_view. rewrite filter_filter. reflexivity.
Qed.

Lemma DeleteNote_other_view (d : ServerDB.t) (id : string) (user other : Z) :
  other <> user ->
  note_view (ServerDB.DeleteNote d id user) other = note_view d other.
Proof.
  intros Hneq. unfold note_view, ServerDB.DeleteNote; simpl.
  apply filter_filter_out. intros x Hx. apply Z.eqb_eq in Hx.
  destruct (ServerNote.UserID x =? user) eqn:E.
  - apply Z.eqb_eq in E. congruence.
  - rewrite andb_false_r. reflexivity.
Qed.

Lemma DeleteFolder_other_view (d : ServerDB.t) (id : string) (user other : Z) :
  other <> user ->
  folder_view (ServerDB.DeleteFolder d id user) other = folder_view d other.
Proof.
  intros Hneq. unfold folder_view, ServerDB.DeleteFolder; simpl.
  apply filter_filter_out. intros x Hx. apply Z.eqb_eq in Hx.
  destruct (ServerFolder.UserID x =? user) eqn:E.
  - apply Z.eqb_eq in E. congruence.
  - rewrite andb_false_r. reflexivity.
Qed.

(** Notes and folders: whatever one user writes, every read of another
    user returns what it returned before. *)
Lemma remote_notes_and_folders_isolated
    (d : ServerDB.t) (user other : Z) (w : remote_write) :
  other <> user ->
  let d' := apply_write user w d in
  (forall id, ServerDB.GetNote d' id other = ServerDB.GetNote d id other)
  /\ ServerDB.ListNotesByUser d' other = ServerDB.ListNotesByUser d other
  /\ (forall since, ServerDB.GetNotesSince d' other since
                    = ServerDB.GetNotesSince d other since)
  /\ (forall id, ServerDB.GetFolder d' id other = ServerDB.GetFolder d id other)
  /\ ServerDB.ListFoldersByUser d' other = ServerDB.ListFoldersByUser d other
  /\ (forall since, ServerDB.GetFoldersSince d' other since
                    = ServerDB.GetFoldersSince d other since).
Proof.
  intros Hneq d'.
  assert (Hn : note_view d' other = note_view d other).
  { unfold d'. destruct w; simpl.
    - apply UpsertNote_other_view; exact Hneq.
    - apply DeleteNote_other_view; exact Hneq.
    - reflexivity.
    - reflexivity. }
  assert (Hf : folder_view d' other = folder_view d other).
  { unfold d'. destruct w; simpl.
    - reflexivity.
    - reflexivity.
    - apply UpsertFolder_other_view; exact Hneq.
    - apply DeleteFolder_other_view; exact Hneq. }
  repeat split; intros.
  - rewrite !GetNote_of_view, Hn. reflexivity.
  - unfold ServerDB.ListNotesByUser. fold (note_view d' other) (note_view d other).
    rewrite Hn. reflexivity.
  - rewrite !GetNotesSince_of_view, Hn. reflexivity.
  - rewrite !GetFolder_of_view, Hf. reflexivity.
  - unfold ServerDB.ListFoldersByUser.
    fold (folder_view d' other) (folder_view d other). rewrite Hf. reflexivity.
  - rewrite !GetFoldersSince_of_view, Hf. reflexivity.
Qed.

(** The ownership guard on folders, and a delete that names a row of
    another user. *)
Lemma UpsertFolder_foreign_id (fresh : string) (d : ServerDB.t) (user : Z)
    (id title parent : string) (createdAt updatedAt : Time)
    (owner : Z) (old : ServerFolder.t) :
  NoDup (map ServerFolder.ID (ServerDB.folders d)) ->
  owner <> user ->
  ServerDB.GetFolder d (ServerDB.mint fresh id) owner = Some old ->
  fst (ServerDB.UpsertFolder fresh d user id title parent createdAt updatedAt) = d.
Proof.
  intros Hnd Hneq Hold. unfold ServerDB.UpsertFolder; cbn [fst].
  unfold ServerDB.GetFolder in Hold.
  rewrite (existsb_when_found _ _ _ _ Hold)
    by (intros y Hy; apply andb_true_iff in Hy; tauto).
  apply find_some in Hold. destruct Hold as [Hin Hp].
  apply andb_true_iff in Hp. destruct Hp as [Hid Hu].
  apply String.eqb_eq in Hid. apply Z.eqb_eq in Hu.
  rewrite map_id_when; [destruct d; reflexivity|].
  intros x Hx.
  destruct (String.eqb (ServerFolder.ID x) (ServerDB.mint fresh id)
            && (ServerFolder.UserID x =? user)) eqn:E; [|reflexivity].
  apply andb_true_iff in E. destruct E as [Ex Eu].
  apply String.eqb_eq in Ex. apply Z.eqb_eq in Eu.
  assert (x = old)
    by (apply (NoDup_map_eq ServerFolder.ID _ _ _ Hnd Hx Hin); congruence).
  subst x. congruence.
Qed.

Lemma filter_keeps_all {A : Type} (p : A -> bool) (l : list A) :
  (forall x, In x l -> p x = true) -> filter p l = l.
Proof.
  induction l as [|x l IH]; simpl; intros H; [reflexivity|].
  rewrite (H x) by (left; reflexivity). rewrite IH; [reflexivity|].
  intros y Hy. apply H. right. exact Hy.
Qed.

Lemma DeleteNote_foreign_id (d : ServerDB.t) (id : string) (user owner : Z)
    (old : ServerNote.t) :
  NoDup (map ServerNote.ID (ServerDB.notes d)) ->
  owner <> user ->
  ServerDB.GetNote d id owner = Some old ->
  ServerDB.DeleteNote d id user = d.
Proof.
  intros Hnd Hneq Hold. unfold ServerDB.DeleteNote.
  unfold ServerDB.GetNote in Hold. apply find_some in Hold.
  destruct Hold as [Hin Hp]. apply andb_true_iff in Hp. destruct Hp as [Hid Hu].
  apply String.eqb_eq in Hid. apply Z.eqb_eq in Hu.
  rewrite filter_keeps_all; [destruct d; reflexivity|].
  intros x Hx. apply negb_true_iff.
  destruct (String.eqb (ServerNote.ID x) id && (ServerNote.UserID x =? user)) eqn:E;
    [|reflexivity].
  apply andb_true_iff in E. destruct E as [Ex Eu].
  apply String.eqb_eq in Ex. apply Z.eqb_eq in Eu.
  assert (x = old)
    by (apply (NoDup_map_eq ServerNote.ID _ _ _ Hnd Hx Hin); congruence).
  subst x. congruence.
Qed.

Lemma DeleteFolder_foreign_id (d : ServerDB.t) (id : string) (user owner : Z)
    (old : ServerFolder.t) :
  NoDup (map ServerFolder.ID (ServerDB.folders d)) ->
  owner <> user ->
  ServerDB.GetFolder d id owner = Some old ->
  ServerDB.DeleteFolder d id user = d.
Proof.
  intros Hnd Hneq Hold. unfold ServerDB.DeleteFolder.
  unfold ServerDB.GetFolder in Hold. apply find_some in Hold.
  destruct Hold as [Hin Hp]. apply andb_true_iff in Hp. destruct Hp as [Hid Hu].
  apply String.eqb_eq in Hid. apply Z.eqb_eq in Hu.
  rewrite filter_keeps_all; [destruct d; reflexivity|].
  intros x Hx. apply negb_true_iff.
  destruct (String.eqb (ServerFolder.ID x) id && (ServerFolder.UserID x =? user))
    eqn:E; [|reflexivity].
  apply andb_true_iff in E. destruct E as [Ex Eu].
  apply String.eqb_eq in Ex. apply Z.eqb_eq in Eu.
  assert (x = old)
    by (apply (NoDup_map_eq ServerFolder.ID _ _ _ Hnd Hx Hin); congruence).
  subst x. congruence.
Qed.

(** C6.  Notes and folders of the remote store are scoped by owner, on a
    store whose ids are distinct (the primary keys).  Every read of a user
    returns rows of that user only, the reads of version rows included.
    Whatever a user writes (an upsert or
    a delete of a note or of a folder), the rows of another user are the
    rows they were, and every get, list and fetch of that other user
    returns what it returned before.  An upsert that names an id owned by
    another user leaves the store as it was and is answered 200 like any
    other; a delete that names such an id leaves the store as it was and
    is answered 204. *)
Theorem C6_remote_rows_are_scoped_by_owner (d : ServerDB.t) (user other : Z) :
  other <> user ->
  NoDup (map ServerNote.ID (ServerDB.notes d)) ->
  NoDup (map ServerFolder.ID (ServerDB.folders d)) ->
  ((forall id n, ServerDB.GetNote d id user = Some n -> ServerNote.UserID n = user)
   /\ (forall n, In n (ServerDB.ListNotesByUser d user) -> ServerNote.UserID n = user)
   /\ (forall since n, In n (ServerDB.GetNotesSince d user since) ->
                       ServerNote.UserID n = user)
   /\ (forall id f, ServerDB.GetFolder d id user = Some f ->
                    ServerFolder.UserID f = user)
   /\ (forall f, In f (ServerDB.ListFoldersByUser d user) ->
                 ServerFolder.UserID f = user)
   /\ (forall since f, In f (ServerDB.GetFoldersSince d user since) ->
                       ServerFolder.UserID f = user)
   /\ (forall noteID v, In v (ServerDB.ListVersionsByNote d noteID user) ->
                        ServerNoteVersion.UserID v = user)
   /\ (forall since v, In v (ServerDB.GetVersionsSince d user since) ->
                       ServerNoteVersion.UserID v = user))
  /\ (forall w : remote_write,
        let d' := apply_write user w d in
        note_view d' other = note_view d other
        /\ folder_view d' other = folder_view d other
        /\ (forall id, ServerDB.GetNote d' id other = ServerDB.GetNote d id other)
        /\ ServerDB.ListNotesByUser d' other = ServerDB.ListNotesByUser d other
        /\ (forall since, ServerDB.GetNotesSince d' other since
                          = ServerDB.GetNotesSince d other since)
        /\ (forall id, ServerDB.GetFolder d' id other = ServerDB.GetFolder d id other)
        /\ ServerDB.ListFoldersByUser d' other = ServerDB.ListFoldersByUser d other
        /\ (forall since, ServerDB.GetFoldersSince d' other since
                          = ServerDB.GetFoldersSince d other since))
  /\ (forall now1 now2 fresh (req : server.UpsertNoteRequest) old,
        server.req_Title req <> "" ->
        ServerDB.GetNote d (ServerDB.mint fresh (server.req_ID req)) other
        = Some old ->
        fst (server.upsertNoteHandler now1 now2 fresh d user req) = d
        /\ exists body,
             snd (server.upsertNoteHandler now1 now2 fresh d user req)
             = server.jsonResponse body 200)
  /\ (forall now1 now2 fresh (req : server.UpsertFolderRequest) old,
        server.freq_Title req <> "" ->
        ServerDB.GetFolder d (ServerDB.mint fresh (server.freq_ID req)) other
        = Some old ->
        fst (server.upsertFolderHandler now1 now2 fresh d user req) = d
        /\ exists body,
             snd (server.upsertFolderHandler now1 now2 fresh d user req)
             = server.jsonResponse body 200)
  /\ (forall id old,
        ServerDB.GetNote d id other = Some old ->
        server.deleteNoteHandler d user id = (d, server.WriteHeader 204))
  /\ (forall id old,
        ServerDB.GetFolder d id other = Some old ->
        server.deleteFolderHandler d user id = (d, server.WriteHeader 204)).
Proof.
  intros Hneq Hnotes Hfolders.
  split; [|split; [|split; [|split; [|split]]]].
  - repeat split.
    + intros id n H. unfold ServerDB.GetNote in H. apply find_some in H.
      destruct H as [_ H]. apply andb_true_iff in H. apply Z.eqb_eq. tauto.
    + intros n H. unfold ServerDB.ListNotesByUser, sqlite.order_by_desc in H.
      apply (Permutation_in _ (order_by_perm _ _)) in H.
      apply filter_In in H. apply Z.eqb_eq. tauto.
    + intros since n H. unfold ServerDB.GetNotesSince, sqlite.order_by_desc in H.
      apply (Permutation_in _ (order_by_perm _ _)) in H.
      apply filter_In in H. destruct H as [_ H].
      apply andb_true_iff in H. apply Z.eqb_eq. tauto.
    + intros id f H. unfold ServerDB.GetFolder in H. apply find_some in H.
      destruct H as [_ H]. apply andb_true_iff in H. apply Z.eqb_eq. tauto.
    + intros f H. unfold ServerDB.ListFoldersByUser, sqlite.order_by_text in H.
      apply (Permutation_in _ (order_by_perm _ _)) in H.
      apply filter_In in H. apply Z.eqb_eq. tauto.
    + intros since f H. unfold ServerDB.GetFoldersSince, sqlite.order_by_desc in H.
      apply (Permutation_in _ (order_by_perm _ _)) in H.
      apply filter_In in H. destruct H as [_ H].
      apply andb_true_iff in H. apply Z.eqb_eq. tauto.
    + intros noteID v H. unfold ServerDB.ListVersionsByNote, sqlite.order_by_desc in H.
      apply (Permutation_in _ (order_by_perm _ _)) in H.
      apply filter_In in H. destruct H as [_ H].
      apply andb_true_iff in H. apply Z.eqb_eq. tauto.
    + intros since v H. unfold ServerDB.GetVersionsSince, sqlite.order_by_desc in H.
      apply (Permutation_in _ (order_by_perm _ _)) in H.
      apply filter_In in H. destruct H as [_ H].
      apply andb_true_iff in H. apply Z.eqb_eq. tauto.
  - intros w d'.
    split; [|split; [|exact (remote_notes_and_folders_isolated d user other w Hneq)]].
    + unfold d'. destruct w; simpl.
      * apply UpsertNote_other_view; exact Hneq.
      * apply DeleteNote_other_view; exact Hneq.
      * reflexivity.
      * reflexivity.
    + unfold d'. destruct w; simpl.
      * reflexivity.
      * reflexivity.
      * apply UpsertFolder_other_view; exact Hneq.
      * apply DeleteFolder_other_view; exact Hneq.
  - intros now1 now2 fresh req old Htitle Hold.
    unfold server.upsertNoteHandler.
    apply String.eqb_neq in Htitle. rewrite Htitle. cbn [fst snd].
    split; [|eexists; reflexivity].
    apply (UpsertNote_foreign_id fresh d user _ _ _ _ _ _ _ other old
             Hnotes Hneq Hold).
  - intros now1 now2 fresh req old Htitle Hold.
    unfold server.upsertFolderHandler.
    apply String.eqb_neq in Htitle. rewrite Htitle. cbn [fst snd].
    split; [|eexists; reflexivity].
    apply (UpsertFolder_foreign_id fresh d user _ _ _ _ _ other old
             Hfolders Hneq Hold).
  - intros id old Hold. unfold server.deleteNoteHandler.
    rewrite (DeleteNote_foreign_id d id user other old Hnotes Hneq Hold).
    reflexivity.
  - intros id old Hold. unfold server.deleteFolderHandler.
    rewrite (DeleteFolder_foreign_id d id user other old Hfolders Hneq Hold).
    reflexivity.
Qed.

(** Bob (user 2) names the id of Alice's note (user 1): the store is as it
    was, Bob is answered 200, Alice reads her note as before; Bob's delete
    of that id removes nothing. *)
Lemma C6_remote_rows_are_scoped_by_owner_witness :
  fst (server.upsertNoteHandler (time_Unix 5000) (time_Unix 5001) "u-1"
         remote_sample.store 2 remote_sample.bob_request)
  = remote_sample.store
  /\ server.deleteNoteHandler remote_sample.store 2 "n1"
     = (remote_sample.store, server.WriteHeader 204)
  /\ ServerDB.GetNote
       (apply_write 2 (WriteUpsertNote "u-1" "n2" "bob title" "bob body" "[]" ""
                         (time_Unix 99) (time_Unix 99))
                    remote_sample.store)
       "n1" 1
     = Some remote_sample.alice_note.
Proof.
  destruct (C6_remote_rows_are_scoped_by_owner remote_sample.store 2 1)
    as (_ & Hwrite & Hupsert & _ & Hdelete & _).
  - discriminate.
  - simpl. constructor; [intros [] | constructor].
  - constructor.
  - split; [|split].
    + apply (Hupsert (time_Unix 5000) (time_Unix 5001) "u-1"
               remote_sample.bob_request remote_sample.alice_note);
        [discriminate | reflexivity].
    + apply (Hdelete "n1" remote_sample.alice_note). reflexivity.
    + destruct (Hwrite (WriteUpsertNote "u-1" "n2" "bob title" "bob body" "[]" ""
                          (time_Unix 99) (time_Unix 99)))
        as (_ & _ & Hget & _).
      rewrite Hget. reflexivity.
Defined.

(** ** The answer to an upsert *)

(** C10.  The handler's answer to an accepted upsert (non-empty title) is a
    200 whose body is made of the request and of nothing stored: the id
    (minted when empty), title, content, tags and parent of the request,
    and its two timestamps whenever they are positive.  When the id belongs
    to another user the store is left as it was, that user still reads the
    row unchanged, and the answer is the same echo. *)
Theorem C10_upsert_answer_echoes_request
    (now1 now2 : Time) (fresh : string) (d : ServerDB.t) (user : Z)
    (req : server.UpsertNoteRequest) :
  server.req_Title req <> "" ->
  let key := ServerDB.mint fresh (server.req_ID req) in
  let out := server.upsertNoteHandler now1 now2 fresh d user req in
  snd out
  = server.jsonResponse
      (server.mkNoteResponse key (server.req_Title req) (server.req_Content req)
         (server.req_Tags req) (server.req_ParentFolderID req)
         (Unix (stored_time (server.req_CreatedAt req) now1))
         (Unix (stored_time (server.req_UpdatedAt req) now2)))
      200
  /\ (0 < server.req_CreatedAt req ->
      Unix (stored_time (server.req_CreatedAt req) now1) = server.req_CreatedAt req)
  /\ (0 < server.req_UpdatedAt req ->
      Unix (stored_time (server.req_UpdatedAt req) now2) = server.req_UpdatedAt req)
  /\ (forall owner old,
        NoDup (map ServerNote.ID (ServerDB.notes d)) ->
        owner <> user ->
        ServerDB.GetNote d key owner = Some old ->
        fst out = d /\ ServerDB.GetNote (fst out) key owner = Some old).
Proof.
  intros Htitle key out.
  assert (Hout : out = (fst (ServerDB.UpsertNote fresh d user (server.req_ID req)
                               (server.req_Title req) (server.req_Content req)
                               (server.req_Tags req) (server.req_ParentFolderID req)
                               (stored_time (server.req_CreatedAt req) now1)
                               (stored_time (server.req_UpdatedAt req) now2)),
                        server.jsonResponse
                          (server.mkNoteResponse key (server.req_Title req)
                             (server.req_Content req) (server.req_Tags req)
                             (server.req_ParentFolderID req)
                             (Unix (stored_time (server.req_CreatedAt req) now1))
                             (Unix (stored_time (server.req_UpdatedAt req) now2)))
                          200)).
  { unfold out, server.upsertNoteHandler.
    apply String.eqb_neq in Htitle. rewrite Htitle. reflexivity. }
  rewrite Hout. cbn [fst snd].
  split; [reflexivity|]. split; [|split].
  - intros H. unfold stored_time. destruct (Z.ltb_spec 0 (server.req_CreatedAt req));
      [apply Unix_time_Unix | lia].
  - intros H. unfold stored_time. destruct (Z.ltb_spec 0 (server.req_UpdatedAt req));
      [apply Unix_time_Unix | lia].
  - intros owner old Hnd Hneq Hold.
    assert (Hsame := UpsertNote_foreign_id fresh d user (server.req_ID req)
                       (server.req_Title req) (server.req_Content req)
                       (server.req_Tags req) (server.req_ParentFolderID req)
                       (stored_time (server.req_CreatedAt req) now1)
                       (stored_time (server.req_UpdatedAt req) now2)
                       owner old Hnd Hneq Hold).
    rewrite Hsame. split; [reflexivity | exact Hold].
Qed.

Lemma C10_upsert_answer_witness :
  snd (server.upsertNoteHandler (time_Unix 5000) (time_Unix 5001) "u-1"
         remote_sample.store 2 remote_sample.bob_request)
  = server.jsonResponse
      (server.mkNoteResponse "n1" "bob title" "bob body" "[]" "" 100 200) 200
  /\ fst (server.upsertNoteHandler (time_Unix 5000) (time_Unix 5001) "u-1"
            remote_sample.store 2 remote_sample.bob_request)
     = remote_sample.store.
Proof.
  assert (Ht : server.req_Title remote_sample.bob_request <> "") by discriminate.
  destruct (C10_upsert_answer_echoes_request
              (time_Unix 5000) (time_Unix 5001) "u-1" remote_sample.store 2
              remote_sample.bob_request Ht) as (Hans & _ & _ & Hguard).
  split.
  - rewrite Hans. reflexivity.
  - apply (Hguard 1 remote_sample.alice_note).
    + repeat constructor; simpl; tauto.
    + discriminate.
    + reflexivity.
Defined.

(** ** The local store: what a mutation leaves on the row *)

Lemma fold_max_ge (l : list Z) (a : Z) :
  a <= fold_left Z.max l a /\ forall x, In x l -> x <= fold_left Z.max l a.
Proof.
  revert a. induction l as [|y l IH]; simpl; intros a.
  - split; [lia | contradiction].
  - destruct (IH (Z.max a y)) as [H1 H2]. split; [lia|].
    intros x [-> | Hx]; [lia | apply H2; exact Hx].
Qed.

Lemma max_or_zero_ge (l : list Z) (x : Z) :
  In x l -> x <= sqlite.max_or_zero l.
Proof.
  destruct l as [|a l]; simpl; [contradiction|].
  destruct (fold_max_ge l a) as [H1 H2].
  intros [<- | Hx]; [exact H1 | apply H2; exact Hx].
Qed.

Lemma next_rowid_fresh (seq : Z) (ids : list Z) (x : Z) :
  In x ids -> x < DB.next_rowid seq ids.
Proof.
  intros Hx. apply max_or_zero_ge in Hx. unfold DB.next_rowid. lia.
Qed.

Lemma find_note_fresh (rows : list NoteRow.t) (seq : Z) :
  find (fun r => NoteRow.id r =? DB.next_rowid seq (map NoteRow.id rows)) rows
  = None.
Proof.
  destruct (find _ rows) as [r|] eqn:E; [|reflexivity].
  apply find_some in E. destruct E as [Hin He]. apply Z.eqb_eq in He.
  assert (NoteRow.id r < DB.next_rowid seq (map NoteRow.id rows))
    by (apply next_rowid_fresh, in_map; exact Hin).
  lia.
Qed.

Lemma find_note_set (d : DB.t) (f : NoteRow.t -> NoteRow.t) (id : Z) :
  (forall r, NoteRow.id (f r) = NoteRow.id r) ->
  DB.find_note (DB.set_notes d (map f (DB.notes d))) id
  = option_map f (DB.find_note d id).
Proof.
  intros Hf. unfold DB.find_note; simpl. apply find_map_stable.
  intros x. rewrite Hf. reflexivity.
Qed.

Lemma find_note_id (d : DB.t) (id : Z) (r : NoteRow.t) :
  DB.find_note d id = Some r -> NoteRow.id r = id.
Proof.
  intros H. apply find_some in H. destruct H as [_ H]. apply Z.eqb_eq. exact H.
Qed.

Section LocalMutations.
Context {codec : JSON}.
Variables (now : Time) (d : DB.t).

Lemma UpdateNote_row (id : Z) (title content : string) (tags : strings)
    (r : NoteRow.t) :
  DB.find_note d id = Some r ->
  DB.find_note (DB.UpdateNote now d id title content tags) id
  = Some (NoteRow.mk id title content (json_Marshal tags) (NoteRow.password r)
                     (NoteRow.parent_folder_id r) (NoteRow.created_at r) now
                     (NoteRow.server_id r) SyncStatusPending (NoteRow.deleted r)).
Proof.
  intros H. unfold DB.UpdateNote. rewrite find_note_set.
  - rewrite H. simpl. rewrite (find_note_id _ _ _ H), Z.eqb_refl. reflexivity.
  - intros x. destruct (NoteRow.id x =? id); reflexivity.
Qed.

Lemma DeleteNote_row (id : Z) (r : NoteRow.t) :
  DB.find_note d id = Some r ->
  DB.find_note (DB.DeleteNote now d id) id
  = Some (NoteRow.mk id (NoteRow.title r) (NoteRow.content r) (NoteRow.tags r)
                     (NoteRow.password r) (NoteRow.parent_folder_id r)
                     (NoteRow.created_at r) now (NoteRow.server_id r)
                     SyncStatusPending true).
Proof.
  intros H. unfold DB.DeleteNote. rewrite find_note_set.
  - rewrite H. simpl. rewrite (find_note_id _ _ _ H), Z.eqb_refl. reflexivity.
  - intros x. destruct (NoteRow.id x =? id); reflexivity.
Qed.

Lemma SetNotePassword_row (id : Z) (password : string) (r : NoteRow.t) :
  DB.find_note d id = Some r ->
  DB.find_note (DB.SetNotePassword now d id password) id
  = Some (NoteRow.mk id (NoteRow.title r) (NoteRow.content r) (NoteRow.tags r)
                     (Some password) (NoteRow.parent_folder_id r)
                     (NoteRow.created_at r) now (NoteRow.server_id r)
                     (NoteRow.sync_status r) (NoteRow.deleted r)).
Proof.
  intros H. unfold DB.SetNotePassword. rewrite find_note_set.
  - rewrite H. simpl. rewrite (find_note_id _ _ _ H), Z.eqb_refl. reflexivity.
  - intros x. destruct (NoteRow.id x =? id); reflexivity.
Qed.

Lemma CreateNote_row (title content : string) (tags : strings) :
  let out := DB.CreateNote now d title content tags in
  DB.find_note (fst out) (Note.ID (snd out))
  = Some (NoteRow.mk (Note.ID (snd out)) title content (json_Marshal tags)
                     None None now now None SyncStatusPending false)
  /\ Note.SyncStatus (snd out) = SyncStatusPending.
Proof.
  simpl. split; [|reflexivity].
  unfold DB.find_note; simpl. rewrite find_app_none by apply find_note_fresh.
  simpl. rewrite Z.eqb_refl. reflexivity.
Qed.

Lemma CreateNoteInFolder_row (title content : string) (tags : strings)
    (folderID : Z) :
  let out := DB.CreateNoteInFolder now d title content tags folderID in
  DB.find_note (fst out) (Note.ID (snd out))
  = Some (NoteRow.mk (Note.ID (snd out)) title content (json_Marshal tags)
                     None (if 0 <? folderID then Some folderID else None)
                     now now None SyncStatusPending false)
  /\ Note.SyncStatus (snd out) = SyncStatusPending.
Proof.
  simpl. split; [|reflexivity].
  unfold DB.find_note; simpl. rewrite find_app_none by apply find_note_fresh.
  simpl. rewrite Z.eqb_refl. reflexivity.
Qed.

Lemma folder_update_row (f : FolderRow.t -> FolderRow.t) (id : Z)
    (r : FolderRow.t) :
  (forall x, FolderRow.id (f x) = FolderRow.id x) ->
  find (fun x => FolderRow.id x =? id) (DB.folders d) = Some r ->
  find (fun x => FolderRow.id x =? id)
       (map (fun x => if FolderRow.id x =? id then f x else x) (DB.folders d))
  = Some (f r).
Proof.
  intros Hf H. rewrite find_map_stable.
  - rewrite H. simpl. apply find_some in H. destruct H as [_ H]. rewrite H.
    reflexivity.
  - intros x. destruct (FolderRow.id x =? id) eqn:E; [rewrite Hf|]; exact E.
Qed.

(** C4, as the code has it.  On notes: update and soft delete stamp
    [updated_at] with the clock and mark the row pending, and a created
    note starts pending with that stamp; setting a password stamps
    [updated_at] and leaves [sync_status] as it was.  On folders, whose
    rows carry no sync status: set-password and delete stamp [updated_at],
    and a created folder starts with that stamp. *)
Theorem C4_mutations_restamp_and_mark :
  (forall id title content tags r,
     DB.find_note d id = Some r ->
     exists r', DB.find_note (DB.UpdateNote now d id title content tags) id = Some r'
                /\ NoteRow.updated_at r' = now
                /\ NoteRow.sync_status r' = SyncStatusPending)
  /\ (forall id r,
        DB.find_note d id = Some r ->
        exists r', DB.find_note (DB.DeleteNote now d id) id = Some r'
                   /\ NoteRow.updated_at r' = now
                   /\ NoteRow.sync_status r' = SyncStatusPending
                   /\ NoteRow.deleted r' = true)
  /\ (forall title content tags,
        exists r',
          DB.find_note (fst (DB.CreateNote now d title content tags))
                       (Note.ID (snd (DB.CreateNote now d title content tags)))
          = Some r'
          /\ NoteRow.updated_at r' = now
          /\ NoteRow.sync_status r' = SyncStatusPending)
  /\ (forall title content tags folderID,
        exists r',
          DB.find_note
            (fst (DB.CreateNoteInFolder now d title content tags folderID))
            (Note.ID (snd (DB.CreateNoteInFolder now d title content tags folderID)))
          = Some r'
          /\ NoteRow.updated_at r' = now
          /\ NoteRow.sync_status r' = SyncStatusPending)
  /\ (forall id password r,
        DB.find_note d id = Some r ->
        exists r', DB.find_note (DB.SetNotePassword now d id password) id = Some r'
                   /\ NoteRow.updated_at r' = now
                   /\ NoteRow.sync_status r' = NoteRow.sync_status r)
  /\ (forall id password r,
        find (fun x => FolderRow.id x =? id) (DB.folders d) = Some r ->
        exists r', find (fun x => FolderRow.id x =? id)
                        (DB.folders (DB.SetFolderPassword now d id password))
                   = Some r'
                   /\ FolderRow.updated_at r' = now)
  /\ (forall id r,
        find (fun x => FolderRow.id x =? id) (DB.folders d) = Some r ->
        exists r', find (fun x => FolderRow.id x =? id)
                        (DB.folders (DB.DeleteFolder now d id))
                   = Some r'
                   /\ FolderRow.updated_at r' = now
                   /\ FolderRow.deleted r' = true)
  /\ (forall title parentID,
        exists r', DB.folders (fst (DB.CreateFolder now d title parentID))
                   = DB.folders d ++ [r']
                   /\ FolderRow.id r' = snd (DB.CreateFolder now d title parentID)
                   /\ FolderRow.updated_at r' = now).
Proof.
  repeat apply conj.
  - intros id title content tags r H. eexists.
    split; [apply UpdateNote_row; exact H|]. split; reflexivity.
  - intros id r H. eexists.
    split; [apply DeleteNote_row; exact H|]. repeat split.
  - intros title content tags. eexists.
    split; [apply (proj1 (CreateNote_row title content tags))|]. split; reflexivity.
  - intros title content tags folderID. eexists.
    split; [apply (proj1 (CreateNoteInFolder_row title content tags folderID))|].
    split; reflexivity.
  - intros id password r H. eexists.
    split; [apply SetNotePassword_row; exact H|]. split; reflexivity.
  - intros id password r H. eexists. split.
    + unfold DB.SetFolderPassword; simpl.
      apply (folder_update_row
               (fun f => FolderRow.mk (FolderRow.id f) (FolderRow.title f)
                           (Some password) (FolderRow.parent_folder_id f)
                           (FolderRow.created_at f) now (FolderRow.deleted f)));
        [reflexivity | exact H].
    + reflexivity.
  - intros id r H. eexists. split.
    + unfold DB.DeleteFolder; simpl.
      apply (folder_update_row
               (fun f => FolderRow.mk (FolderRow.id f) (FolderRow.title f)
                           (FolderRow.password f) (FolderRow.parent_folder_id f)
                           (FolderRow.created_at f) now true));
        [reflexivity | exact H].
    + split; reflexivity.
  - intros title parentID. eexists. split; [reflexivity|]. split; reflexivity.
Qed.

End LocalMutations.

(** C4, as the claim has it, fails: setting a password on a synced note
    leaves it synced. *)
Lemma C4_SetNotePassword_keeps_sync_status :
  option_map NoteRow.sync_status
    (DB.find_note (DB.SetNotePassword (time_Unix 900) sample.local_db 1 "secret") 1)
  = Some SyncStatusSynced
  /\ option_map NoteRow.updated_at
       (DB.find_note (DB.SetNotePassword (time_Unix 900) sample.local_db 1 "secret") 1)
     = Some (time_Unix 900)
  /\ ~ (option_map NoteRow.sync_status
          (DB.find_note
             (DB.SetNotePassword (time_Unix 900) sample.local_db 1 "secret") 1)
        = Some SyncStatusPending).
Proof.
  split; [|split]; [reflexivity | reflexivity | discriminate].
Qed.

Lemma C4_mutations_witness :
  (exists r',
     DB.find_note (DB.UpdateNote (time_Unix 900) sample.local_db 1 "A2" "body2"
                                 (Some ["work"])) 1
     = Some r'
     /\ NoteRow.updated_at r' = time_Unix 900
     /\ NoteRow.sync_status r' = SyncStatusPending)
  /\ (exists r',
        DB.find_note (DB.SetNotePassword (time_Unix 900) sample.folder_db 1 "secret") 1
        = Some r'
        /\ NoteRow.updated_at r' = time_Unix 900
        /\ NoteRow.sync_status r' = SyncStatusSynced)
  /\ (exists f',
        find (fun x => FolderRow.id x =? 1)
             (DB.folders (DB.DeleteFolder (time_Unix 900) sample.folder_db 1))
        = Some f'
        /\ FolderRow.updated_at f' = time_Unix 900
        /\ FolderRow.deleted f' = true).
Proof.
  split; [|split].
  - apply (proj1 (C4_mutations_restamp_and_mark (time_Unix 900) sample.local_db)
                 1 "A2" "body2" (Some ["work"]) sample.note_A).
    reflexivity.
  - apply (proj1 (proj2 (proj2 (proj2 (proj2
             (C4_mutations_restamp_and_mark (time_Unix 900) sample.folder_db)))))
                 1 "secret" sample.note_A).
    reflexivity.
  - apply (proj1 (proj2 (proj2 (proj2 (proj2 (proj2 (proj2
             (C4_mutations_restamp_and_mark (time_Unix 900) sample.folder_db)))))))
                 1 sample.folder_F).
    reflexivity.
Defined.

(** ** Restoring a version *)

Section Restore.
Context {codec : JSON}.

Lemma RestoreNoteVersion_keeps_versions (now : Time) (d : DB.t)
    (noteID versionID : Z) :
  DB.note_versions (fst (DB.RestoreNoteVersion now d noteID versionID))
  = DB.note_versions d
  /\ DB.note_versions_seq (fst (DB.RestoreNoteVersion now d noteID versionID))
     = DB.note_versions_seq d.
Proof.
  unfold DB.RestoreNoteVersion.
  destruct (DB.GetNoteVersion d versionID); split; reflexivity.
Qed.

(** C7.  Restoring writes the chosen version's title, content and tags on
    the live note, marks it pending and stamps [updated_at]; the table of
    versions is the same list of rows afterwards, so every history reads as
    before, whichever version was chosen.  The tags are written as the JSON
    of the decoded tags of the version, which is the version's own tags
    text whenever that text is one the encoder writes.  A version id that
    does not exist is an error and changes nothing. *)
Theorem C7_restore_copies_and_keeps_history (now : Time) (d : DB.t)
    (noteID versionID : Z) :
  let out := DB.RestoreNoteVersion now d noteID versionID in
  DB.note_versions (fst out) = DB.note_versions d
  /\ (forall n, DB.GetNoteVersions (fst out) n = DB.GetNoteVersions d n)
  /\ (forall v, DB.GetNoteVersion (fst out) v = DB.GetNoteVersion d v)
  /\ (forall version r,
        DB.GetNoteVersion d versionID = inr version ->
        DB.find_note d noteID = Some r ->
        snd out = None
        /\ DB.find_note (fst out) noteID
           = Some (NoteRow.mk noteID (NoteVersion.Title version)
                     (NoteVersion.Content version)
                     (json_Marshal (NoteVersion.Tags version))
                     (NoteRow.password r) (NoteRow.parent_folder_id r)
                     (NoteRow.created_at r) now (NoteRow.server_id r)
                     SyncStatusPending (NoteRow.deleted r)))
  /\ (forall v r,
        find (fun v => VersionRow.id v =? versionID) (DB.note_versions d) = Some v ->
        DB.find_note d noteID = Some r ->
        json_Marshal (fst (json_Unmarshal (VersionRow.tags v))) = VersionRow.tags v ->
        option_map (fun r' => (NoteRow.title r', NoteRow.content r', NoteRow.tags r'))
                   (DB.find_note (fst out) noteID)
        = Some (VersionRow.title v, VersionRow.content v, VersionRow.tags v))
  /\ (forall err,
        DB.GetNoteVersion d versionID = inl err ->
        out = (d, Some err)).
Proof.
  intros out.
  destruct (RestoreNoteVersion_keeps_versions now d noteID versionID) as [Hv _].
  fold out in Hv.
  assert (Hrow : forall version r,
            DB.GetNoteVersion d versionID = inr version ->
            DB.find_note d noteID = Some r ->
            snd out = None
            /\ DB.find_note (fst out) noteID
               = Some (NoteRow.mk noteID (NoteVersion.Title version)
                         (NoteVersion.Content version)
                         (json_Marshal (NoteVersion.Tags version))
                         (NoteRow.password r) (NoteRow.parent_folder_id r)
                         (NoteRow.created_at r) now (NoteRow.server_id r)
                         SyncStatusPending (NoteRow.deleted r))).
  { intros version r Hversion Hr. unfold out, DB.RestoreNoteVersion.
    rewrite Hversion. cbn [fst snd]. split; [reflexivity|].
    rewrite find_note_set.
    + rewrite Hr. simpl. rewrite (find_note_id _ _ _ Hr), Z.eqb_refl. reflexivity.
    + intros x. destruct (NoteRow.id x =? noteID); reflexivity. }
  split; [exact Hv|]. split; [|split; [|split; [exact Hrow|split]]].
  - intros n. unfold DB.GetNoteVersions, DB.versions_of. rewrite Hv. reflexivity.
  - intros v. unfold DB.GetNoteVersion. rewrite Hv. reflexivity.
  - intros v r Hfind Hr Hcodec.
    destruct (Hrow (DB.scan_version v) r) as [_ Hnote]; [|exact Hr|].
    + unfold DB.GetNoteVersion. rewrite Hfind. reflexivity.
    + rewrite Hnote. simpl. rewrite Hcodec. reflexivity.
  - intros err Herr. unfold out, DB.RestoreNoteVersion. rewrite Herr. reflexivity.
Qed.

End Restore.

Lemma C7_restore_witness :
  option_map (fun r => (NoteRow.title r, NoteRow.content r, NoteRow.tags r,
                        NoteRow.sync_status r, NoteRow.updated_at r))
    (DB.find_note
       (fst (DB.RestoreNoteVersion (time_Unix 900) sample.versioned_db 1 1)) 1)
  = Some ("old title", "old body", "null", SyncStatusPending, time_Unix 900)
  /\ DB.note_versions
       (fst (DB.RestoreNoteVersion (time_Unix 900) sample.versioned_db 1 1))
     = [sample.version_1]
  /\ option_map (fun r => (NoteRow.title r, NoteRow.content r, NoteRow.tags r))
       (DB.find_note
          (fst (DB.RestoreNoteVersion (time_Unix 900) sample.versioned_db 1 1)) 1)
     = Some (VersionRow.title sample.version_1, VersionRow.content sample.version_1,
             VersionRow.tags sample.version_1).
Proof.
  destruct (C7_restore_copies_and_keeps_history
              (time_Unix 900) sample.versioned_db 1 1)
    as (Hv & _ & _ & Hr & Htags & _).
  split; [|split; [exact Hv|]].
  - destruct (Hr (DB.scan_version sample.version_1) sample.note_A) as [_ Hrow];
      [reflexivity | reflexivity |].
    rewrite Hrow. reflexivity.
  - apply (Htags sample.version_1 sample.note_A); reflexivity.
Defined.

(** ** The upload phase: deleted rows *)

Lemma PermanentlyDeleteSynced_other (d : DB.t) (x id : Z) :
  id <> x ->
  DB.find_note (DB.PermanentlyDeleteSynced d x) id = DB.find_note d id.
Proof.
  intros Hneq. unfold DB.find_note, DB.PermanentlyDeleteSynced; simpl.
  apply find_filter_keep. intros r Hr. apply Z.eqb_eq in Hr.
  destruct (NoteRow.id r =? x) eqn:E; [apply Z.eqb_eq in E; lia | reflexivity].
Qed.

Lemma SetNoteSynced_other (d : DB.t) (x id : Z) (serverID : string) :
  id <> x ->
  DB.find_note (DB.SetNoteSynced d x serverID) id = DB.find_note d id.
Proof.
  intros Hneq. unfold DB.SetNoteSynced. rewrite find_note_set.
  - destruct (DB.find_note d id) as [r|] eqn:E; [|reflexivity].
    simpl. apply find_note_id in E.
    destruct (NoteRow.id r =? x) eqn:Ex; [apply Z.eqb_eq in Ex; lia | reflexivity].
  - intros r. destruct (NoteRow.id r =? x); reflexivity.
Qed.

Lemma PermanentlyDeleteSynced_removes (d : DB.t) (id : Z) :
  all_deleted d id ->
  DB.find_note (DB.PermanentlyDeleteSynced d id) id = None.
Proof.
  intros Hall. unfold DB.find_note, DB.PermanentlyDeleteSynced; simpl.
  destruct (find _ (filter _ (DB.notes d))) as [r|] eqn:E; [|reflexivity].
  apply find_some in E. destruct E as [Hin Hid].
  apply filter_In in Hin. destruct Hin as [Hin Hkeep].
  apply Z.eqb_eq in Hid. rewrite (Hall r Hin Hid) in Hkeep.
  apply Z.eqb_eq in Hid. rewrite Hid in Hkeep. discriminate.
Qed.

Lemma PermanentlyDeleteSynced_all_deleted (d : DB.t) (x id : Z) :
  all_deleted d id -> all_deleted (DB.PermanentlyDeleteSynced d x) id.
Proof.
  unfold all_deleted, DB.PermanentlyDeleteSynced; simpl.
  intros H r Hin. apply filter_In in Hin. apply H. tauto.
Qed.

Lemma SetNoteSynced_all_deleted (d : DB.t) (x id : Z) (serverID : string) :
  all_deleted d id -> all_deleted (DB.SetNoteSynced d x serverID) id.
Proof.
  unfold all_deleted, DB.SetNoteSynced; simpl.
  intros H r Hin Hid. apply in_map_iff in Hin. destruct Hin as (r0 & Hr & Hin).
  destruct (NoteRow.id r0 =? x); subst r; simpl in *; apply (H r0 Hin Hid).
Qed.

Section Upload.
Context {codec : JSON}.
Variable client : api.Client.

(** The five ways through the body of the upload loop. *)
Lemma upload_note_cases (st : api.state) (n : Note.t) :
  let st' := api.upload_note client st n in
  (Note.Deleted n = true /\ Note.ServerID n = ""
   /\ api.log st' = api.log st
   /\ api.database st' = DB.PermanentlyDeleteSynced (api.database st) (Note.ID n))
  \/ (Note.Deleted n = true /\ Note.ServerID n <> ""
      /\ api.log st'
         = api.log st ++ [api.mkEvent (Some (Note.ID n))
                                      (api.CallDeleteNote (Note.ServerID n)) true]
      /\ api.database st' = api.database st)
  \/ (Note.Deleted n = true /\ Note.ServerID n <> ""
      /\ api.log st'
         = api.log st ++ [api.mkEvent (Some (Note.ID n))
                                      (api.CallDeleteNote (Note.ServerID n)) false]
      /\ api.database st'
         = DB.PermanentlyDeleteSynced (api.database st) (Note.ID n))
  \/ (Note.Deleted n = false
      /\ exists req,
           api.log st'
           = api.log st ++ [api.mkEvent (Some (Note.ID n)) (api.CallUpsertNote req) true]
           /\ api.database st' = api.database st)
  \/ (Note.Deleted n = false
      /\ exists req serverID,
           api.log st'
           = api.log st ++ [api.mkEvent (Some (Note.ID n)) (api.CallUpsertNote req) false]
           /\ api.database st'
              = DB.SetNoteSynced (api.database st) (Note.ID n) serverID).
Proof.
  unfold api.upload_note. destruct (Note.Deleted n).
  - destruct (String.eqb_spec (Note.ServerID n) "") as [He|He]; simpl.
    + left. repeat split; assumption.
    + destruct (api.DeleteNote client (api.log st) (Note.ServerID n)); simpl.
      * right; left. repeat split; assumption.
      * right; right; left. repeat split; assumption.
  - destruct (api.UpsertNote client (api.log st) _) eqn:E; simpl.
    + right; right; right; left. split; [reflexivity|]. eexists. split; reflexivity.
    + right; right; right; right. split; [reflexivity|].
      eexists. eexists. split; reflexivity.
Qed.

Lemma upload_note_frame (st : api.state) (n : Note.t) (id : Z) :
  id <> Note.ID n ->
  DB.find_note (api.database (api.upload_note client st n)) id
  = DB.find_note (api.database st) id.
Proof.
  intros Hneq.
  destruct (upload_note_cases st n)
    as [(_ & _ & _ & Hd) | [(_ & _ & _ & Hd) | [(_ & _ & _ & Hd)
        | [(_ & req & _ & Hd) | (_ & req & sid & _ & Hd)]]]];
    rewrite Hd.
  - apply PermanentlyDeleteSynced_other; exact Hneq.
  - reflexivity.
  - apply PermanentlyDeleteSynced_other; exact Hneq.
  - reflexivity.
  - apply SetNoteSynced_other; exact Hneq.
Qed.

Lemma upload_note_all_deleted (st : api.state) (n : Note.t) (id : Z) :
  all_deleted (api.database st) id ->
  all_deleted (api.database (api.upload_note client st n)) id.
Proof.
  intros H.
  destruct (upload_note_cases st n)
    as [(_ & _ & _ & Hd) | [(_ & _ & _ & Hd) | [(_ & _ & _ & Hd)
        | [(_ & req & _ & Hd) | (_ & req & sid & _ & Hd)]]]];
    rewrite Hd.
  - apply PermanentlyDeleteSynced_all_deleted; exact H.
  - exact H.
  - apply PermanentlyDeleteSynced_all_deleted; exact H.
  - exact H.
  - apply SetNoteSynced_all_deleted; exact H.
Qed.

(** What the step for [n] may add to the log. *)
Lemma upload_note_log (st : api.state) (n : Note.t) (ev : api.Event) :
  In ev (api.log (api.upload_note client st n)) ->
  In ev (api.log st)
  \/ (api.origin ev = Some (Note.ID n)
      /\ (Note.Deleted n = true -> Note.ServerID n <> "")
      /\ (forall sid, api.call ev = api.CallDeleteNote sid ->
                      Note.Deleted n = true /\ Note.ServerID n = sid)
      /\ (api.failed ev = true ->
          api.database (api.upload_note client st n) = api.database st)).
Proof.
  intros Hin.
  destruct (upload_note_cases st n)
    as [(Hdel & Hsid & Hl & Hd) | [(Hdel & Hsid & Hl & Hd) | [(Hdel & Hsid & Hl & Hd)
        | [(Hdel & req & Hl & Hd) | (Hdel & req & sid & Hl & Hd)]]]];
    rewrite Hl in Hin.
  - left. exact Hin.
  - apply in_app_or in Hin. destruct Hin as [Hin | [<- | []]]; [left; exact Hin|].
    right. simpl. repeat split; try assumption; intros; congruence.
  - apply in_app_or in Hin. destruct Hin as [Hin | [<- | []]]; [left; exact Hin|].
    right. simpl. repeat split; try assumption; intros; congruence.
  - apply in_app_or in Hin. destruct Hin as [Hin | [<- | []]]; [left; exact Hin|].
    right. simpl. repeat split; try assumption; intros; congruence.
  - apply in_app_or in Hin. destruct Hin as [Hin | [<- | []]]; [left; exact Hin|].
    right. simpl. repeat split; try assumption; intros; congruence.
Qed.

Lemma upload_fold_frame (l : list Note.t) (st : api.state) (id : Z) :
  ~ In id (map Note.ID l) ->
  DB.find_note (api.database (fold_left (api.upload_note client) l st)) id
  = DB.find_note (api.database st) id.
Proof.
  revert st. induction l as [|n l IH]; simpl; intros st Hnot; [reflexivity|].
  rewrite IH by tauto. apply upload_note_frame. intros ->. tauto.
Qed.

Lemma upload_fold_log (l : list Note.t) (st : api.state) (ev : api.Event) :
  In ev (api.log (fold_left (api.upload_note client) l st)) ->
  In ev (api.log st)
  \/ exists n, In n l
               /\ api.origin ev = Some (Note.ID n)
               /\ (Note.Deleted n = true -> Note.ServerID n <> "")
               /\ (forall sid, api.call ev = api.CallDeleteNote sid ->
                               Note.Deleted n = true /\ Note.ServerID n = sid).
Proof.
  revert st. induction l as [|n l IH]; simpl; intros st Hin; [left; exact Hin|].
  destruct (IH _ Hin) as [Hst | (m & Hm & H)].
  - destruct (upload_note_log _ _ _ Hst) as [Hold | (Ho & Hs & Hc & _)].
    + left. exact Hold.
    + right. exists n. split; [left; reflexivity|].
      split; [exact Ho|]. split; [exact Hs | exact Hc].
  - right. exists m. split; [right; exact Hm | exact H].
Qed.

Lemma upload_fold_removes (l : list Note.t) (st : api.state) (n : Note.t) :
  NoDup (map Note.ID l) ->
  In n l ->
  Note.Deleted n = true ->
  Note.ServerID n = "" ->
  all_deleted (api.database st) (Note.ID n) ->
  DB.find_note (api.database (fold_left (api.upload_note client) l st)) (Note.ID n)
  = None.
Proof.
  revert st. induction l as [|h l IH]; simpl; intros st Hnd Hin Hdel Hsid Hall;
    [contradiction|].
  inversion Hnd as [|? ? Hnotin Hnd']; subst.
  destruct Hin as [-> | Hin].
  - rewrite upload_fold_frame by exact Hnotin.
    destruct (upload_note_cases st n)
      as [(_ & _ & _ & Hd) | [(_ & Hs & _) | [(_ & Hs & _)
          | [(Hd & _) | (Hd & _)]]]]; try congruence.
    rewrite Hd. apply PermanentlyDeleteSynced_removes. exact Hall.
  - apply IH; try assumption. apply upload_note_all_deleted. exact Hall.
Qed.

Lemma upload_fold_failed (l : list Note.t) (st : api.state) (n : Note.t)
    (ev : api.Event) :
  NoDup (map Note.ID l) ->
  In n l ->
  (forall e, In e (api.log st) -> api.origin e <> Some (Note.ID n)) ->
  In ev (api.log (fold_left (api.upload_note client) l st)) ->
  api.origin ev = Some (Note.ID n) ->
  api.failed ev = true ->
  DB.find_note (api.database (fold_left (api.upload_note client) l st)) (Note.ID n)
  = DB.find_note (api.database st) (Note.ID n).
Proof.
  revert st. induction l as [|h l IH]; simpl; intros st Hnd Hin Hlog Hev Ho Hf;
    [contradiction|].
  inversion Hnd as [|? ? Hnotin Hnd']; subst.
  destruct Hin as [-> | Hin].
  - rewrite upload_fold_frame by exact Hnotin.
    destruct (upload_fold_log _ _ _ Hev) as [Hst | (m & Hm & Hom & _)].
    + destruct (upload_note_log _ _ _ Hst) as [Hold | (_ & _ & _ & Hsame)].
      * exfalso. apply (Hlog ev Hold). exact Ho.
      * rewrite (Hsame Hf). reflexivity.
    + exfalso. apply Hnotin. rewrite Ho in Hom. injection Hom as ->.
      apply in_map. exact Hm.
  - assert (Hneq : Note.ID n <> Note.ID h).
    { intros E. apply Hnotin. rewrite <- E. apply in_map. exact Hin. }
    rewrite IH; try assumption.
    + apply upload_note_frame. exact Hneq.
    + intros e He. destruct (upload_note_log _ _ _ He) as [Hold | (Hoh & _)].
      * apply Hlog. exact Hold.
      * rewrite Hoh. intros E. injection E as E. congruence.
Qed.

End Upload.

Section UploadDeleted.
Context {codec : JSON}.

Lemma GetPendingNotes_ids (d : DB.t) :
  NoDup (map NoteRow.id (DB.notes d)) ->
  NoDup (map Note.ID (DB.GetPendingNotes d)).
Proof.
  intros H. unfold DB.GetPendingNotes. rewrite map_map. simpl.
  apply NoDup_map_filter. exact H.
Qed.

Lemma GetPendingNotes_row (d : DB.t) (n : Note.t) :
  In n (DB.GetPendingNotes d)
  <-> exists r, In r (DB.notes d)
                /\ n = DB.scan_note_lax r
                /\ NoteRow.sync_status r = SyncStatusPending.
Proof.
  unfold DB.GetPendingNotes. rewrite in_map_iff. split.
  - intros (r & <- & Hin). apply filter_In in Hin. destruct Hin as [Hin Hp].
    exists r. repeat split; try assumption.
    destruct (NoteRow.sync_status r); [discriminate | discriminate | reflexivity].
  - intros (r & Hin & -> & Hp). exists r. split; [reflexivity|].
    apply filter_In. split; [exact Hin|]. rewrite Hp. reflexivity.
Qed.

Lemma find_note_of_In (d : DB.t) (r : NoteRow.t) :
  NoDup (map NoteRow.id (DB.notes d)) ->
  In r (DB.notes d) ->
  DB.find_note d (NoteRow.id r) = Some r.
Proof.
  intros Hnd Hin. unfold DB.find_note.
  destruct (find _ (DB.notes d)) as [r'|] eqn:E.
  - apply find_some in E. destruct E as [Hin' He]. apply Z.eqb_eq in He.
    f_equal. apply (NoDup_map_eq NoteRow.id _ _ _ Hnd Hin' Hin He).
  - exfalso. apply (find_none _ _ E) in Hin. rewrite Z.eqb_refl in Hin.
    discriminate.
Qed.

(** C8.  The upload phase over a table with distinct ids.  A pending row
    that is deleted and has no server id is gone afterwards, and no request
    of the phase was sent for it.  Every remote delete of the phase was
    sent for a pending deleted row with a non-empty server id, and names
    that id.  A row whose request failed is found afterwards exactly as it
    was, and is among the pending notes of the next pass. *)
Theorem C8_upload_deleted_rows (client : api.Client) (d : DB.t) :
  NoDup (map NoteRow.id (DB.notes d)) ->
  let final := api.upload client (api.begin d) in
  (forall n,
     In n (DB.GetPendingNotes d) ->
     Note.Deleted n = true ->
     Note.ServerID n = "" ->
     DB.find_note (api.database final) (Note.ID n) = None
     /\ forall ev, In ev (api.log final) -> api.origin ev <> Some (Note.ID n))
  /\ (forall ev serverID,
        In ev (api.log final) ->
        api.call ev = api.CallDeleteNote serverID ->
        exists n, In n (DB.GetPendingNotes d)
                  /\ api.origin ev = Some (Note.ID n)
                  /\ Note.Deleted n = true
                  /\ Note.ServerID n = serverID
                  /\ serverID <> "")
  /\ (forall n ev,
        In n (DB.GetPendingNotes d) ->
        In ev (api.log final) ->
        api.origin ev = Some (Note.ID n) ->
        api.failed ev = true ->
        DB.find_note (api.database final) (Note.ID n) = DB.find_note d (Note.ID n)
        /\ In n (DB.GetPendingNotes (api.database final))).
Proof.
  intros Hnd final. unfold final, api.upload. simpl api.database at 1.
  assert (Hids := GetPendingNotes_ids d Hnd).
  split; [|split].
  - intros n Hn Hdel Hsid. split.
    + apply upload_fold_removes; try assumption.
      destruct (proj1 (GetPendingNotes_row d n) Hn) as (r & Hr & -> & _).
      intros r' Hr' Hid'. simpl in Hr', Hid', Hdel.
      assert (r' = r) by (apply (NoDup_map_eq NoteRow.id _ _ _ Hnd Hr' Hr); congruence).
      subst r'. exact Hdel.
    + intros ev Hev Ho.
      destruct (upload_fold_log _ _ _ _ Hev) as [[] | (m & Hm & Hom & Hs & _)].
      assert (m = n).
      { apply (NoDup_map_eq Note.ID _ _ _ Hids Hm Hn). congruence. }
      subst m. apply (Hs Hdel). exact Hsid.
  - intros ev serverID Hev Hcall.
    destruct (upload_fold_log _ _ _ _ Hev) as [[] | (m & Hm & Hom & Hs & Hc)].
    destruct (Hc serverID Hcall) as [Hdel Hsid].
    exists m. repeat split; try assumption.
    rewrite <- Hsid. apply Hs. exact Hdel.
  - intros n ev Hn Hev Ho Hf.
    assert (Hsame :
      DB.find_note
        (api.database (fold_left (api.upload_note client)
                                 (DB.GetPendingNotes d) (api.begin d)))
        (Note.ID n)
      = DB.find_note d (Note.ID n)).
    { apply (upload_fold_failed client _ (api.begin d) n ev Hids Hn);
        try assumption.
      intros e []. }
    split; [exact Hsame|].
    destruct (proj1 (GetPendingNotes_row d n) Hn) as (r & Hr & -> & Hp).
    apply GetPendingNotes_row. exists r. split; [|split; [reflexivity | exact Hp]].
    simpl in Hsame. rewrite (find_note_of_In d r Hnd Hr) in Hsame.
    apply find_some in Hsame. tauto.
Qed.

End UploadDeleted.

Lemma C8_upload_deleted_rows_witness :
  DB.find_note
    (api.database (api.upload sample.client_delete_down (api.begin sample.deleted_db)))
    1
  = None
  /\ map api.call
         (api.log (api.upload sample.client_delete_down
                              (api.begin sample.deleted_db)))
     = [api.CallDeleteNote "srv-2"]
  /\ DB.find_note
       (api.database (api.upload sample.client_delete_down
                                 (api.begin sample.deleted_db)))
       2
     = Some sample.note_deleted_synced.
Proof.
  assert (Hnd : NoDup (map NoteRow.id (DB.notes sample.deleted_db))).
  { repeat constructor; simpl; intuition discriminate. }
  destruct (C8_upload_deleted_rows sample.client_delete_down sample.deleted_db Hnd)
    as (Hgone & _ & Hkept).
  split; [|split].
  - apply (Hgone (DB.scan_note_lax sample.note_deleted_local)).
    + left. reflexivity.
    + reflexivity.
    + reflexivity.
  - reflexivity.
  - apply (proj1 (Hkept (DB.scan_note_lax sample.note_deleted_synced)
                        (api.mkEvent (Some 2) (api.CallDeleteNote "srv-2") true)
                        (or_intror (or_introl eq_refl)) (or_introl eq_refl)
                        eq_refl eq_refl)).
Defined.

(** ** The version history *)

Lemma max_or_zero_in (l : list Z) :
  l <> [] -> In (sqlite.max_or_zero l) l.
Proof.
  destruct l as [|a l]; [congruence|]. intros _. simpl.
  revert a. induction l as [|b l IH]; simpl; intros a; [left; reflexivity|].
  destruct (IH (Z.max a b)) as [H | H].
  - destruct (Z.max_spec a b) as [[_ E] | [_ E]]; rewrite E in *.
    + right. left. exact H.
    + left. exact H.
  - right. right. exact H.
Qed.

Lemma one_to_S (k : nat) : one_to (S k) = one_to k ++ [Z.of_nat (S k)].
Proof. unfold one_to. rewrite seq_S, map_app. reflexivity. Qed.

Lemma one_to_bounds (k : nat) (x : Z) :
  In x (one_to k) <-> 1 <= x <= Z.of_nat k.
Proof.
  unfold one_to. rewrite in_map_iff. split.
  - intros (n & <- & Hn). apply in_seq in Hn. lia.
  - intros H. exists (Z.to_nat x). split; [lia|]. apply in_seq. lia.
Qed.

Lemma max_one_to (k : nat) : sqlite.max_or_zero (one_to k) = Z.of_nat k.
Proof.
  destruct k as [|k]; [reflexivity|].
  assert (Hne : one_to (S k) <> []) by (rewrite one_to_S; intros E; destruct (one_to k); discriminate).
  pose proof (max_or_zero_in _ Hne) as Hin. apply one_to_bounds in Hin.
  assert (Hk : In (Z.of_nat (S k)) (one_to (S k))) by (apply one_to_bounds; lia).
  apply max_or_zero_ge in Hk. lia.
Qed.

Lemma one_to_sorted (k : nat) : StronglySorted Z.lt (one_to k).
Proof.
  induction k as [|k IH]; [constructor|].
  rewrite one_to_S.
  assert (Hall : Forall (fun x => x < Z.of_nat (S k)) (one_to k)).
  { apply Forall_forall. intros x Hx. apply one_to_bounds in Hx. lia. }
  clear - IH Hall. induction IH as [|a l Hl IHl Ha]; simpl.
  - repeat constructor.
  - inversion Hall; subst. constructor; [apply IHl; assumption|].
    apply Forall_app. split; [exact Ha | repeat constructor; assumption].
Qed.

Lemma sorted_NoDup (l : list Z) : StronglySorted Z.lt l -> NoDup l.
Proof.
  induction 1 as [|a l Hl IH Ha]; constructor; [|exact IH].
  intros Hin. rewrite Forall_forall in Ha. specialize (Ha a Hin). lia.
Qed.

Lemma wrap64_small (x : Z) : - 2 ^ 63 <= x < 2 ^ 63 -> wrap64 x = x.
Proof. intros H. unfold wrap64. rewrite Z.mod_small; lia. Qed.

Section Versions.
Context {codec : JSON}.

Lemma SaveNoteVersion_unfold (d : DB.t) (op : SaveOp) :
  save d op
  = if same_as_last d (op_noteID op) (op_content op) then d
    else DB.mk (DB.notes d) (DB.notes_seq d) (DB.folders d) (DB.folders_seq d)
               (DB.note_versions d ++ [version_row d op])
               (VersionRow.id (version_row d op)).
Proof. reflexivity. Qed.

Lemma versions_of_app (d : DB.t) (op : SaveOp) (n : Z) :
  filter (fun v => VersionRow.note_id v =? n)
         (DB.note_versions d ++ [version_row d op])
  = DB.versions_of d n ++ (if op_noteID op =? n then [version_row d op] else []).
Proof. rewrite filter_app. reflexivity. Qed.

Lemma save_length (d : DB.t) (op : SaveOp) :
  (List.length (DB.note_versions (save d op))
   <= S (List.length (DB.note_versions d)))%nat.
Proof.
  rewrite SaveNoteVersion_unfold.
  destruct (same_as_last d (op_noteID op) (op_content op)); simpl.
  - lia.
  - rewrite length_app. simpl. lia.
Qed.

Lemma save_versions_ok (d : DB.t) (op : SaveOp) :
  versions_ok d ->
  Z.of_nat (List.length (DB.note_versions d)) < 2 ^ 63 - 1 ->
  versions_ok (save d op).
Proof.
  intros Hok Hlen. rewrite SaveNoteVersion_unfold.
  destruct (same_as_last d (op_noteID op) (op_content op)); [exact Hok|].
  intros n. unfold version_nums, DB.versions_of. simpl DB.note_versions.
  rewrite versions_of_app.
  destruct (op_noteID op =? n) eqn:E.
  - apply Z.eqb_eq in E. subst n.
    rewrite map_app, length_app. simpl.
    fold (version_nums d (op_noteID op)).
    rewrite (Hok (op_noteID op)), max_one_to.
    assert (Hk : (List.length (DB.versions_of d (op_noteID op))
                  <= List.length (DB.note_versions d))%nat)
      by apply filter_length_le.
    rewrite wrap64_small by lia.
    rewrite Nat.add_1_r, one_to_S. f_equal. f_equal. lia.
  - rewrite !app_nil_r. apply Hok.
Qed.

Lemma save_all_versions_ok (ops : list SaveOp) (d : DB.t) :
  versions_ok d ->
  Z.of_nat (List.length (DB.note_versions d)) + Z.of_nat (List.length ops)
  < 2 ^ 63 ->
  versions_ok (save_all ops d).
Proof.
  revert d. induction ops as [|op ops IH]; simpl; intros d Hok Hlen; [exact Hok|].
  apply IH.
  - apply save_versions_ok; [exact Hok | lia].
  - pose proof (save_length d op). lia.
Qed.

(** A second save of the same content finds the first one's row on top. *)
Lemma save_twice (d : DB.t) (op op' : SaveOp) :
  op_noteID op' = op_noteID op ->
  op_content op' = op_content op ->
  wrap64 (sqlite.max_or_zero (version_nums d (op_noteID op)) + 1)
  = sqlite.max_or_zero (version_nums d (op_noteID op)) + 1 ->
  save (save d op) op' = save d op.
Proof.
  intros Hid Hc Hwrap. rewrite (SaveNoteVersion_unfold d op).
  destruct (same_as_last d (op_noteID op) (op_content op)) eqn:E.
  - rewrite SaveNoteVersion_unfold, Hid, Hc, E. reflexivity.
  - rewrite SaveNoteVersion_unfold, Hid, Hc.
    assert (Hlast : same_as_last
                      (DB.mk (DB.notes d) (DB.notes_seq d) (DB.folders d)
                             (DB.folders_seq d)
                             (DB.note_versions d ++ [version_row d op])
                             (VersionRow.id (version_row d op)))
                      (op_noteID op) (op_content op) = true).
    { unfold same_as_last, DB.last_version, DB.versions_of. simpl DB.note_versions.
      rewrite versions_of_app, Z.eqb_refl.
      rewrite order_by_desc_newest.
      - simpl. rewrite String.eqb_refl. reflexivity.
      - intros y Hy. simpl. rewrite Hwrap.
        assert (VersionRow.version_num y
                <= sqlite.max_or_zero (version_nums d (op_noteID op)))
          by (apply max_or_zero_ge, in_map; exact Hy).
        lia. }
    rewrite Hlast. reflexivity.
Qed.

End Versions.

(** *** The short hash is twelve hex digits of the digest *)

Lemma be_bytes_length (n : nat) (x : Z) : List.length (sha256.be_bytes n x) = n.
Proof. induction n as [|n IH]; simpl; [reflexivity | rewrite IH; reflexivity]. Qed.

Lemma round_length (s : list Z) (kw : Z * Z) :
  List.length s = 8%nat -> List.length (sha256.round s kw) = 8%nat.
Proof.
  intros H. do 9 (destruct s as [|? s]; try discriminate). reflexivity.
Qed.

Lemma compress_length (h block : list Z) :
  List.length h = 8%nat -> List.length (sha256.compress h block) = 8%nat.
Proof.
  intros H. unfold sha256.compress. rewrite length_map, length_combine.
  assert (Hs : List.length (fold_left sha256.round
                              (combine sha256.K (sha256.schedule block)) h) = 8%nat).
  { apply fold_left_invariant; [exact H | intros; apply round_length; assumption]. }
  rewrite Hs, H. reflexivity.
Qed.

Lemma blocks_length (n : nat) (h ws : list Z) :
  List.length h = 8%nat -> List.length (sha256.blocks n h ws) = 8%nat.
Proof.
  revert h ws. induction n as [|n IH]; simpl; intros h ws H; [exact H|].
  destruct ws; [exact H|]. apply IH. apply compress_length. exact H.
Qed.

Lemma flat_map_length4 (l : list Z) :
  List.length (flat_map (sha256.be_bytes 4) l) = (4 * List.length l)%nat.
Proof.
  induction l as [|x l IH]; [reflexivity|].
  change (flat_map (sha256.be_bytes 4) (x :: l))
    with (sha256.be_bytes 4 x ++ flat_map (sha256.be_bytes 4) l).
  rewrite length_app, be_bytes_length, IH. simpl. lia.
Qed.

Lemma Sum256_length (data : string) : List.length (sha256.Sum256 data) = 32%nat.
Proof.
  unfold sha256.Sum256. rewrite flat_map_length4, blocks_length; reflexivity.
Qed.

Lemma EncodeToString_length (bs : list Z) :
  String.length (hex.EncodeToString bs) = (2 * List.length bs)%nat.
Proof. induction bs as [|b bs IH]; simpl; [reflexivity | rewrite IH; lia]. Qed.

Lemma substring_prefix (n : nat) (s : string) :
  (n <= String.length s)%nat ->
  String.length (substring 0 n s) = n
  /\ exists rest, s = (substring 0 n s ++ rest)%string.
Proof.
  revert s. induction n as [|n IH]; intros s H.
  - destruct s; simpl; (split; [reflexivity | eexists; reflexivity]).
  - destruct s as [|c s]; simpl in *; [lia|].
    destruct (IH s) as [Hl [rest Hr]]; [lia|].
    split; [rewrite Hl; reflexivity|].
    exists rest. rewrite <- Hr. reflexivity.
Qed.

Lemma hashStr_is_prefix (content : string) :
  String.length (DB.hashStr content) = 12%nat
  /\ exists rest,
       hex.EncodeToString (sha256.Sum256 content)
       = (DB.hashStr content ++ rest)%string.
Proof.
  unfold DB.hashStr. apply substring_prefix.
  rewrite EncodeToString_length, Sum256_length. simpl. lia.
Qed.

Section History.
Context {codec : JSON}.

(** C5.  [SaveNoteVersion] takes the first twelve hex digits of the
    SHA-256 digest of the content.  The most recent version of a note is a
    row of the greatest number among its versions.  When it carries that
    hash ([same_as_last]), the database is left as it was; otherwise one
    row is appended, with that hash and numbered one above the largest
    number of the note (1 for a first version).  From an empty table,
    whatever the saves, the numbers of every note read 1, 2, ..., k in the
    order written: strictly increasing, no number twice.  Saving the same
    content twice in a row changes nothing the second time, so an accepted
    save followed by its repeat writes one row. *)
Theorem C5_SaveNoteVersion_history (d : DB.t) (op : SaveOp) :
  (String.length (DB.hashStr (op_content op)) = 12%nat
   /\ exists rest,
        hex.EncodeToString (sha256.Sum256 (op_content op))
        = (DB.hashStr (op_content op) ++ rest)%string)
  /\ (forall v,
        DB.last_version d (op_noteID op) = Some v ->
        In v (DB.versions_of d (op_noteID op))
        /\ forall w, In w (DB.versions_of d (op_noteID op)) ->
                     VersionRow.version_num w <= VersionRow.version_num v)
  /\ (same_as_last d (op_noteID op) (op_content op) = true -> save d op = d)
  /\ (same_as_last d (op_noteID op) (op_content op) = false ->
      DB.note_versions (save d op) = DB.note_versions d ++ [version_row d op]
      /\ VersionRow.note_id (version_row d op) = op_noteID op
      /\ VersionRow.hash (version_row d op) = Some (DB.hashStr (op_content op))
      /\ VersionRow.version_num (version_row d op)
         = wrap64 (sqlite.max_or_zero (version_nums d (op_noteID op)) + 1)
      /\ (version_nums d (op_noteID op) = [] ->
          VersionRow.version_num (version_row d op) = 1))
  /\ (forall ops n,
        Z.of_nat (List.length ops) < 2 ^ 63 ->
        version_nums (save_all ops DB.empty) n
        = one_to (List.length (DB.versions_of (save_all ops DB.empty) n))
        /\ StronglySorted Z.lt (version_nums (save_all ops DB.empty) n)
        /\ NoDup (version_nums (save_all ops DB.empty) n))
  /\ (forall op',
        op_noteID op' = op_noteID op ->
        op_content op' = op_content op ->
        wrap64 (sqlite.max_or_zero (version_nums d (op_noteID op)) + 1)
        = sqlite.max_or_zero (version_nums d (op_noteID op)) + 1 ->
        save (save d op) op' = save d op
        /\ (same_as_last d (op_noteID op) (op_content op) = false ->
            List.length (DB.note_versions (save (save d op) op'))
            = S (List.length (DB.note_versions d)))).
Proof.
  split; [apply hashStr_is_prefix|].
  split; [intros v Hv; apply (order_by_desc_head VersionRow.version_num); exact Hv|].
  split; [intros H; rewrite SaveNoteVersion_unfold, H; reflexivity|].
  split.
  { intros H. rewrite SaveNoteVersion_unfold, H. simpl.
    repeat split. intros He. rewrite He. reflexivity. }
  split.
  { intros ops n Hlen.
    assert (Hok : versions_ok (save_all ops DB.empty)).
    { apply save_all_versions_ok; [intros m; reflexivity | simpl; lia]. }
    split; [apply Hok|].
    rewrite (Hok n). split; [apply one_to_sorted|].
    apply sorted_NoDup, one_to_sorted. }
  intros op' Hid Hc Hwrap.
  rewrite (save_twice d op op' Hid Hc Hwrap).
  split; [reflexivity|].
  intros H. rewrite SaveNoteVersion_unfold, H. simpl.
  rewrite length_app. simpl. lia.
Qed.

End History.

Lemma C5_SaveNoteVersion_witness :
  map (fun v => (VersionRow.version_num v, VersionRow.hash v))
      (DB.note_versions
         (save (save DB.empty (mkSaveOp (time_Unix 10) 1 "t" "abc" None))
               (mkSaveOp (time_Unix 11) 1 "t" "abc" None)))
  = [(1, Some "ba7816bf8f01")]
  /\ version_nums
       (save_all [mkSaveOp (time_Unix 10) 1 "t" "abc" None;
                  mkSaveOp (time_Unix 11) 1 "t" "abc" None;
                  mkSaveOp (time_Unix 12) 1 "t" "" None;
                  mkSaveOp (time_Unix 13) 2 "u" "abc" None;
                  mkSaveOp (time_Unix 14) 1 "t" "abc" None]
                 DB.empty) 1
     = [1; 2; 3].
Proof.
  destruct (C5_SaveNoteVersion_history DB.empty
              (mkSaveOp (time_Unix 10) 1 "t" "abc" None))
    as (_ & _ & _ & _ & Hhist & Htwice).
  split.
  - destruct (Htwice (mkSaveOp (time_Unix 11) 1 "t" "abc" None)) as [Hsame _];
      [reflexivity | reflexivity | reflexivity |].
    rewrite Hsame. vm_compute. reflexivity.
  - destruct (Hhist [mkSaveOp (time_Unix 10) 1 "t" "abc" None;
                     mkSaveOp (time_Unix 11) 1 "t" "abc" None;
                     mkSaveOp (time_Unix 12) 1 "t" "" None;
                     mkSaveOp (time_Unix 13) 2 "u" "abc" None;
                     mkSaveOp (time_Unix 14) 1 "t" "abc" None] 1) as [Hnums _].
    + vm_compute. reflexivity.
    + rewrite Hnums. vm_compute. reflexivity.
Defined.

(** ** Search *)

Lemma skip_cont_length (s : string) :
  (String.length (sqlite.skip_cont s) <= String.length s)%nat.
Proof.
  induction s as [|c s IH]; simpl; [lia|].
  destruct ((128 <=? sqlite.byte c) && (sqlite.byte c <? 192)); simpl; lia.
Qed.

Lemma skip_char_length (t t' : string) :
  sqlite.skip_char t = Some t' -> (String.length t' < String.length t)%nat.
Proof.
  destruct t as [|c t]; simpl; [discriminate|].
  intros H. injection H as <-.
  destruct (192 <=? sqlite.byte c); [pose proof (skip_cont_length t)|]; lia.
Qed.

Lemma star_spec (rest : string -> bool) (n : nat) (t : string) :
  (String.length t <= n)%nat ->
  sqlite.star rest n t = true <-> exists s, char_suffix t s /\ rest s = true.
Proof.
  revert t. induction n as [|n IH]; intros t Hlen; simpl.
  - split.
    + intros H. rewrite orb_false_r in H. exists t. split; [constructor | exact H].
    + intros (s & Hs & Hr). rewrite orb_false_r.
      inversion Hs as [|? t' ? Hskip]; subst; [exact Hr|].
      apply skip_char_length in Hskip. lia.
  - split.
    + intros H. apply orb_true_iff in H. destruct H as [H | H].
      * exists t. split; [constructor | exact H].
      * destruct (sqlite.skip_char t) as [t'|] eqn:E; [|discriminate].
        pose proof (skip_char_length _ _ E).
        apply IH in H; [|lia]. destruct H as (s & Hs & Hr).
        exists s. split; [econstructor; eassumption | exact Hr].
    + intros (s & Hs & Hr). apply orb_true_iff.
      inversion Hs as [|? t' ? Hskip Hs']; subst; [left; exact Hr|].
      right. rewrite Hskip. pose proof (skip_char_length _ _ Hskip).
      apply IH; [lia|]. exists s. split; assumption.
Qed.

Lemma char_suffix_empty (t : string) : char_suffix t "".
Proof.
  remember (String.length t) as n eqn:Hn.
  assert (Hle : (String.length t <= n)%nat) by lia. clear Hn.
  revert t Hle. induction n as [|n IH]; intros t Hle.
  - destruct t; [constructor | simpl in Hle; lia].
  - destruct (sqlite.skip_char t) as [t'|] eqn:E.
    + pose proof (skip_char_length _ _ E).
      econstructor; [exact E | apply IH; lia].
    + destruct t; [constructor | discriminate].
Qed.

Lemma like_percent (t : string) : sqlite.like "%" t = true.
Proof.
  simpl. apply star_spec; [lia|]. exists "". split; [apply char_suffix_empty|].
  reflexivity.
Qed.

Lemma like_prefix (q s : string) :
  no_wildcard q = true ->
  sqlite.like (q ++ "%") s = starts_with_ci q s.
Proof.
  revert s. induction q as [|c q IH]; intros s Hq.
  - apply like_percent.
  - simpl in Hq. apply andb_true_iff in Hq. destruct Hq as [Hc Hq].
    apply andb_true_iff in Hc. destruct Hc as [Hp Hu].
    apply negb_true_iff in Hp, Hu.
    change (String c q ++ "%")%string with (String c (q ++ "%")).
    cbn [sqlite.like]. rewrite Hp, Hu.
    destruct s as [|c' s]; simpl; [reflexivity|].
    rewrite IH by exact Hq. reflexivity.
Qed.

Lemma like_contains (q t : string) :
  no_wildcard q = true ->
  sqlite.like ("%" ++ q ++ "%") t = true
  <-> exists s, char_suffix t s /\ starts_with_ci q s = true.
Proof.
  intros Hq. change ("%" ++ q ++ "%")%string with (String "%" (q ++ "%")).
  cbn [sqlite.like]. change (Ascii.eqb "%" sqlite.percent) with true. cbv iota.
  rewrite star_spec by lia.
  split; intros (s & Hs & H); exists s; (split; [exact Hs|]).
  - rewrite <- like_prefix; assumption.
  - rewrite like_prefix; assumption.
Qed.

Lemma search_where_spec (query : string) (tags : list string) (r : NoteRow.t) :
  DB.search_where query tags r = true
  <-> NoteRow.deleted r = false
      /\ (query = "" \/ has_text query r = true)
      /\ (forall tag, In tag tags -> has_tag tag r = true).
Proof.
  unfold DB.search_where, has_text, has_tag.
  rewrite !andb_true_iff, negb_true_iff, forallb_forall.
  destruct (String.eqb_spec query "") as [-> | Hne].
  - intuition.
  - intuition congruence.
Qed.

(** C9, as the code has it, on a table whose stamps the driver reads back
    as written.  [SearchNotes] returns one item for each row
    that is not deleted, whose title or content matches the pattern
    [%query%] (any row when the query is empty) and whose stored tags text
    matches [%"tag"%] for every requested tag, and no other item.  For a
    text without [%] and [_] the pattern matches exactly when the text
    occurs at a character boundary up to ASCII case; so matching is not
    case-sensitive, and a [%] or [_] in the query is a wildcard.  The
    order of the items is the order SQLite gives to the stored
    [updated_at] texts, which is not the order of the instants when rows
    were stamped in different forms; nothing is stated about it. *)
Theorem C9_search_returns_like_matches (d : DB.t) (query : string)
    (tags : list string) :
  local_stamps_read_back d = true ->
  (forall item,
     In item (DB.SearchNotes d query tags)
     <-> exists r,
           In r (DB.notes d)
           /\ item = DB.list_item "" r
           /\ NoteRow.deleted r = false
           /\ (query = "" \/ has_text query r = true)
           /\ (forall tag, In tag tags -> has_tag tag r = true))
  /\ Permutation (DB.SearchNotes d query tags)
                 (map (DB.list_item "")
                      (filter (DB.search_where query tags) (DB.notes d)))
  /\ (forall q t,
        no_wildcard q = true ->
        sqlite.like ("%" ++ q ++ "%") t = true
        <-> exists s, char_suffix t s /\ starts_with_ci q s = true).
Proof.
  intros _.
  assert (Hperm : Permutation (DB.SearchNotes d query tags)
                    (map (DB.list_item "")
                         (filter (DB.search_where query tags) (DB.notes d)))).
  { unfold DB.SearchNotes, sqlite.order_by_desc.
    apply Permutation_map, order_by_perm. }
  split; [|split; [exact Hperm|]].
  - intros item. split.
    + intros Hin. apply (Permutation_in _ Hperm) in Hin.
      apply in_map_iff in Hin. destruct Hin as (r & <- & Hr).
      apply filter_In in Hr. destruct Hr as [Hr Hw].
      apply search_where_spec in Hw.
      exists r. tauto.
    + intros (r & Hr & -> & Hw).
      apply (Permutation_in _ (Permutation_sym Hperm)).
      apply in_map, filter_In. split; [exact Hr|].
      apply search_where_spec. exact Hw.
  - intros q t. apply like_contains.
Qed.

(** C9, as the claim has it, fails: the query hello finds the note titled
    Hello, which holds hello nowhere byte for byte, and the query h_llo
    finds it too. *)
Lemma C9_search_ignores_case :
  map NoteListItem.Title (DB.SearchNotes sample.search_db "hello" [])
  = ["world"; "Hello"]
  /\ map NoteListItem.Title (DB.SearchNotes sample.search_db "h_llo" ["WORK"])
     = ["world"; "Hello"]
  /\ ~ (forall r,
          In r (DB.notes sample.search_db) ->
          In (DB.list_item "" r) (DB.SearchNotes sample.search_db "hello" []) ->
          contains "hello" (NoteRow.title r) || contains "hello" (NoteRow.content r)
          = true).
Proof.
  split; [|split]; [reflexivity | reflexivity |].
  intros H. specialize (H sample.note_hello).
  assert (Hc : contains "hello" (NoteRow.title sample.note_hello)
               || contains "hello" (NoteRow.content sample.note_hello) = true).
  { apply H; [left; reflexivity | right; left; reflexivity]. }
  vm_compute in Hc. discriminate Hc.
Qed.

Lemma C9_search_witness :
  In (DB.list_item "" sample.note_hello)
     (DB.SearchNotes sample.search_db "hello" ["work"])
  /\ (sqlite.like "%hello%" "Hello" = true
      <-> exists s, char_suffix "Hello" s /\ starts_with_ci "hello" s = true).
Proof.
  destruct (C9_search_returns_like_matches sample.search_db "hello" ["work"]
              eq_refl)
    as (Hin & _ & Hlike).
  split.
  - apply Hin. exists sample.note_hello.
    split; [left; reflexivity|]. split; [reflexivity|]. split; [reflexivity|].
    split; [right; reflexivity|].
    intros tag [<- | []]. reflexivity.
  - apply (Hlike "hello" "Hello"). reflexivity.
Defined.

(** * Further properties of the code *)

(** ** Primary keys of the local store *)

Lemma In_order_by {A : Type} (le : A -> A -> bool) (l : list A) (x : A) :
  In x (sqlite.order_by le l) <-> In x l.
Proof.
  split; intros H.
  - apply (Permutation_in _ (order_by_perm le l)). exact H.
  - apply (Permutation_in _ (Permutation_sym (order_by_perm le l))). exact H.
Qed.

Lemma table_ok_append (ids : list Z) (seq : Z) :
  table_ok ids seq ->
  table_ok (ids ++ [DB.next_rowid seq ids]) (DB.next_rowid seq ids).
Proof.
  intros [Hnd Hle]. split.
  - apply (Permutation_NoDup (Permutation_cons_append ids _)).
    constructor; [|exact Hnd].
    intros Hin. apply (next_rowid_fresh seq) in Hin. lia.
  - intros x Hx. apply in_app_or in Hx. destruct Hx as [Hx | [<- | []]]; [|lia].
    apply (next_rowid_fresh seq) in Hx. lia.
Qed.

Lemma table_ok_filter {A : Type} (k : A -> Z) (p : A -> bool) (l : list A)
    (seq : Z) :
  table_ok (map k l) seq -> table_ok (map k (filter p l)) seq.
Proof.
  intros [Hnd Hle]. split; [apply NoDup_map_filter; exact Hnd|].
  intros x Hx. apply Hle. apply in_map_iff in Hx. destruct Hx as (y & <- & Hy).
  apply filter_In in Hy. apply in_map. tauto.
Qed.

Lemma ids_map_stable {A : Type} (k : A -> Z) (f : A -> A) (l : list A) :
  (forall x, k (f x) = k x) -> map k (map f l) = map k l.
Proof.
  intros H. rewrite map_map. apply map_ext. exact H.
Qed.

Lemma note_ids_update (f : NoteRow.t -> NoteRow.t) (p : NoteRow.t -> bool)
    (l : list NoteRow.t) :
  (forall r, NoteRow.id (f r) = NoteRow.id r) ->
  map NoteRow.id (map (fun r => if p r then f r else r) l) = map NoteRow.id l.
Proof.
  intros H. apply ids_map_stable. intros r. destruct (p r); [apply H | reflexivity].
Qed.

Lemma folder_ids_update (f : FolderRow.t -> FolderRow.t) (p : FolderRow.t -> bool)
    (l : list FolderRow.t) :
  (forall r, FolderRow.id (f r) = FolderRow.id r) ->
  map FolderRow.id (map (fun r => if p r then f r else r) l) = map FolderRow.id l.
Proof.
  intros H. apply ids_map_stable. intros r. destruct (p r); [apply H | reflexivity].
Qed.

Section LocalKeys.
Context {codec : JSON}.

Lemma apply_local_keys_ok (d : DB.t) (w : local_write) :
  keys_ok d -> keys_ok (apply_local d w).
Proof.
  intros (Hn & Hf & Hv).
  destruct w; simpl; unfold keys_ok.
  - simpl. rewrite map_app. simpl. repeat split; try apply Hf; try apply Hv;
      apply table_ok_append; exact Hn.
  - simpl. rewrite map_app. simpl. repeat split; try apply Hf; try apply Hv;
      apply table_ok_append; exact Hn.
  - simpl. rewrite note_ids_update by reflexivity. tauto.
  - simpl. rewrite note_ids_update by reflexivity. tauto.
  - simpl. rewrite note_ids_update by reflexivity. tauto.
  - unfold DB.UpsertFromServer.
    destruct (DB.GetNoteByServerID d serverID) as [existing|].
    + destruct (After updatedAt (Note.UpdatedAt existing)); [|tauto].
      simpl. rewrite note_ids_update by reflexivity. tauto.
    + simpl. rewrite map_app. simpl. repeat split; try apply Hf; try apply Hv;
        apply table_ok_append; exact Hn.
  - simpl. split; [|tauto]. apply table_ok_filter. exact Hn.
  - unfold DB.SaveNoteVersion.
    destruct (match DB.last_version d noteID with
              | Some v => _
              | None => false
              end); [tauto|].
    simpl. rewrite map_app. simpl. repeat split; try apply Hn; try apply Hf;
      apply table_ok_append; exact Hv.
  - unfold DB.RestoreNoteVersion.
    destruct (DB.GetNoteVersion d versionID); simpl; [tauto|].
    rewrite note_ids_update by reflexivity. tauto.
  - simpl. rewrite map_app. simpl. repeat split; try apply Hn; try apply Hv;
      apply table_ok_append; exact Hf.
  - simpl. rewrite note_ids_update by reflexivity. tauto.
  - simpl. rewrite folder_ids_update by reflexivity. tauto.
  - simpl. rewrite folder_ids_update by reflexivity. tauto.
Qed.

End LocalKeys.


Section LocalRuns.
Context {codec : JSON}.

Lemma notes_seq_step (d : DB.t) (w : local_write) :
  DB.notes_seq d <= DB.notes_seq (apply_local d w).
Proof.
  destruct w; simpl; try lia.
  - unfold DB.next_rowid. lia.
  - unfold DB.next_rowid. lia.
  - unfold DB.UpsertFromServer.
    destruct (DB.GetNoteByServerID d serverID) as [existing|].
    + destruct (After updatedAt (Note.UpdatedAt existing)); simpl; lia.
    + simpl. unfold DB.next_rowid. lia.
  - unfold DB.SaveNoteVersion.
    destruct (match DB.last_version d noteID with
              | Some v => _
              | None => false
              end); simpl; lia.
  - unfold DB.RestoreNoteVersion.
    destruct (DB.GetNoteVersion d versionID); simpl; lia.
Qed.

Lemma notes_seq_run (ws : list local_write) (d : DB.t) :
  DB.notes_seq d <= DB.notes_seq (fold_left apply_local ws d).
Proof.
  revert d. induction ws as [|w ws IH]; simpl; intros d; [lia|].
  pose proof (notes_seq_step d w). pose proof (IH (apply_local d w)). lia.
Qed.

Lemma upload_note_keys_ok (client : api.Client) (st : api.state) (n : Note.t) :
  keys_ok (api.database st) ->
  keys_ok (api.database (api.upload_note client st n)).
Proof.
  intros H.
  destruct (upload_note_cases client st n)
    as [(_ & _ & _ & Hd) | [(_ & _ & _ & Hd) | [(_ & _ & _ & Hd)
        | [(_ & req & _ & Hd) | (_ & req & sid & _ & Hd)]]]];
    rewrite Hd; try exact H.
  - apply (apply_local_keys_ok _ (LocalPermanentlyDeleteSynced (Note.ID n))), H.
  - apply (apply_local_keys_ok _ (LocalPermanentlyDeleteSynced (Note.ID n))), H.
  - apply (apply_local_keys_ok _ (LocalSetNoteSynced (Note.ID n) sid)), H.
Qed.

Lemma download_note_keys_ok (st : api.state) (sn : api.NoteResponse) :
  keys_ok (api.database st) ->
  keys_ok (api.database (api.download_note st sn)).
Proof.
  intros H.
  apply (apply_local_keys_ok _
           (LocalUpsertFromServer (api.nr_ID sn) (api.nr_Title sn)
              (api.nr_Content sn) (api.nr_Tags sn)
              (time_Unix (api.nr_CreatedAt sn)) (time_Unix (api.nr_UpdatedAt sn)))),
        H.
Qed.


(** X2.  A rowid of [notes] is never given twice: whatever is written after
    a note exists, soft deletes and purges included, a note created later
    gets a larger id than that note had. *)
Theorem note_ids_are_never_reused (d : DB.t) (ws : list local_write) (x : Z)
    (now : Time) (title content : string) (tags : strings) (folderID : Z) :
  keys_ok d ->
  In x (map NoteRow.id (DB.notes d)) ->
  let later := fold_left apply_local ws d in
  x < Note.ID (snd (DB.CreateNote now later title content tags))
  /\ x < Note.ID (snd (DB.CreateNoteInFolder now later title content tags folderID)).
Proof.
  intros ((_ & Hle) & _) Hx later. simpl.
  pose proof (Hle x Hx). pose proof (notes_seq_run ws d). fold later in H0.
  unfold DB.next_rowid. lia.
Qed.

(** X3.  A whole sync pass, whatever the remote end answers, leaves the
    local tables with distinct rowids below their counters. *)
Theorem Sync_keeps_keys (client : api.Client) (d : DB.t) (lastSync : Z) :
  keys_ok d ->
  keys_ok (api.database (fst (api.Sync d client lastSync))).
Proof.
  intros H. unfold api.Sync. cbn [fst].
  assert (Hup : keys_ok (api.database (api.upload client (api.begin d)))).
  { unfold api.upload.
    apply (fold_left_invariant (fun st => keys_ok (api.database st))); [exact H|].
    intros st n. apply upload_note_keys_ok. }
  unfold api.download.
  destruct (api.SyncNotes client _ lastSync) as [err | serverNotes]; [exact Hup|].
  apply (fold_left_invariant (fun st => keys_ok (api.database st))); [exact Hup|].
  intros st sn. apply download_note_keys_ok.
Qed.

End LocalRuns.


Lemma keys_ok_pending_db : keys_ok sample.pending_db.
Proof.
  unfold keys_ok, table_ok. simpl.
  repeat split; try (constructor; fail); try (intros ? []; fail).
  - constructor; [intros [] | constructor].
  - intros ? [<- | []]. lia.
Qed.

Lemma note_ids_are_never_reused_witness :
  let later :=
    fold_left apply_local
      [LocalDeleteNote (time_Unix 11) 1; LocalPermanentlyDeleteSynced 1]
      sample.pending_db in
  1 < Note.ID (snd (DB.CreateNote (time_Unix 12) later "again" "body" None))
  /\ 1 < Note.ID (snd (DB.CreateNoteInFolder (time_Unix 12) later "again" "body"
                         None 3)).
Proof.
  apply (note_ids_are_never_reused sample.pending_db
           [LocalDeleteNote (time_Unix 11) 1; LocalPermanentlyDeleteSynced 1] 1).
  - exact keys_ok_pending_db.
  - left. reflexivity.
Defined.

Lemma Sync_keeps_keys_witness :
  keys_ok (api.database (fst (api.Sync sample.pending_db sample.client_with_reply 0))).
Proof.
  apply Sync_keeps_keys. exact keys_ok_pending_db.
Defined.

(** ** Notes that are not there, notes that are deleted *)

Lemma set_notes_same (d : DB.t) : DB.set_notes d (DB.notes d) = d.
Proof. destruct d; reflexivity. Qed.

Lemma update_absent (f : NoteRow.t -> NoteRow.t) (id : Z) (d : DB.t) :
  DB.find_note d id = None ->
  DB.set_notes d (map (fun r => if NoteRow.id r =? id then f r else r) (DB.notes d))
  = d.
Proof.
  intros H. rewrite map_id_when; [apply set_notes_same|].
  intros r Hin. apply (find_none _ _ H) in Hin. simpl in Hin. rewrite Hin.
  reflexivity.
Qed.

Lemma filter_all {A : Type} (p : A -> bool) (l : list A) :
  (forall x, In x l -> p x = true) -> filter p l = l.
Proof.
  intros H. induction l as [|x l IH]; simpl; [reflexivity|].
  rewrite H by (left; reflexivity). f_equal. apply IH.
  intros y Hy. apply H. right. exact Hy.
Qed.

Lemma listed_row (type_ : string) (p : NoteRow.t -> bool) (rows : list NoteRow.t)
    (it : NoteListItem.t) :
  In it (map (DB.list_item type_)
             (sqlite.order_by_desc NoteRow.updated_at (filter p rows)))
  <-> exists r, In r rows /\ p r = true /\ it = DB.list_item type_ r.
Proof.
  rewrite in_map_iff. split.
  - intros (r & <- & Hin). apply In_order_by, filter_In in Hin.
    exists r. tauto.
  - intros (r & Hin & Hp & ->). exists r. split; [reflexivity|].
    apply In_order_by, filter_In. tauto.
Qed.

Section MissingAndDeleted.
Context {codec : JSON}.

(** X4.  A write that names a note id no row has is not an error and
    changes nothing: update, soft delete, set-password, mark-synced and
    purge return the database as it was, and a restore onto such an id
    reports success without writing.  [GetNote] is the only one that
    tells: it finds no row. *)
Theorem writes_to_a_missing_note_change_nothing (now : Time) (d : DB.t) (id : Z)
    (title content password serverID : string) (tags : strings) (versionID : Z) :
  DB.find_note d id = None ->
  DB.UpdateNote now d id title content tags = d
  /\ DB.DeleteNote now d id = d
  /\ DB.SetNotePassword now d id password = d
  /\ DB.SetNoteSynced d id serverID = d
  /\ DB.PermanentlyDeleteSynced d id = d
  /\ (forall version,
        DB.GetNoteVersion d versionID = inr version ->
        DB.RestoreNoteVersion now d id versionID = (d, None))
  /\ DB.GetNote d id = None.
Proof.
  intros H.
  split; [apply update_absent; exact H|].
  split; [apply update_absent; exact H|].
  split; [apply update_absent; exact H|].
  split; [apply update_absent; exact H|].
  split.
  { unfold DB.PermanentlyDeleteSynced. rewrite filter_all; [apply set_notes_same|].
    intros r Hin. apply (find_none _ _ H) in Hin. simpl in Hin. rewrite Hin.
    reflexivity. }
  split.
  { intros version Hv. unfold DB.RestoreNoteVersion. rewrite Hv.
    rewrite update_absent by exact H. reflexivity. }
  unfold DB.GetNote. rewrite H. reflexivity.
Qed.

(** X5.  A soft-deleted note is hidden and kept.  After [DeleteNote], no
    listing shows the id: not the root list, not a folder's list, not a
    search, whatever the query.  The row is still there: [GetNote] returns
    it with its title and content and [Deleted] set, and it is among the
    pending notes, so the next pass tells the server.  Every other note is
    found as before. *)
Theorem soft_deleted_note_is_hidden_and_kept (now : Time) (d : DB.t) (id : Z)
    (r : NoteRow.t) :
  DB.find_note d id = Some r ->
  let d' := DB.DeleteNote now d id in
  (forall it, In it (DB.ListNotes d') -> NoteListItem.ID it <> id)
  /\ (forall folderID it,
        In it (DB.ListNotesInFolder d' folderID) -> NoteListItem.ID it <> id)
  /\ (forall query tags it,
        In it (DB.SearchNotes d' query tags) -> NoteListItem.ID it <> id)
  /\ (exists n, DB.GetNote d' id = Some n
                /\ Note.Deleted n = true
                /\ Note.Title n = NoteRow.title r
                /\ Note.Content n = NoteRow.content r)
  /\ (exists n, In n (DB.GetPendingNotes d')
                /\ Note.ID n = id /\ Note.Deleted n = true)
  /\ (forall x, x <> id -> DB.find_note d' x = DB.find_note d x).
Proof.
  intros Hr d'.
  assert (Hhidden : forall r', In r' (DB.notes d') ->
                               NoteRow.deleted r' = false -> NoteRow.id r' <> id).
  { intros r' Hin Hlive. unfold d', DB.DeleteNote in Hin. simpl in Hin.
    apply in_map_iff in Hin. destruct Hin as (r0 & <- & _).
    destruct (NoteRow.id r0 =? id) eqn:E; [discriminate|].
    apply Z.eqb_neq. exact E. }
  assert (Hrow : DB.find_note d' id
                 = Some (NoteRow.mk id (NoteRow.title r) (NoteRow.content r)
                           (NoteRow.tags r) (NoteRow.password r)
                           (NoteRow.parent_folder_id r) (NoteRow.created_at r) now
                           (NoteRow.server_id r) SyncStatusPending true))
    by (apply DeleteNote_row; exact Hr).
  split; [|split; [|split; [|split; [|split]]]].
  - intros it Hin. apply listed_row in Hin. destruct Hin as (r' & Hin & Hp & ->).
    apply andb_true_iff in Hp. destruct Hp as [Hp _]. apply negb_true_iff in Hp.
    apply (Hhidden r' Hin Hp).
  - intros folderID it Hin. apply listed_row in Hin.
    destruct Hin as (r' & Hin & Hp & ->).
    apply andb_true_iff in Hp. destruct Hp as [_ Hp]. apply negb_true_iff in Hp.
    apply (Hhidden r' Hin Hp).
  - intros query tags it Hin. apply listed_row in Hin.
    destruct Hin as (r' & Hin & Hp & ->). unfold DB.search_where in Hp.
    apply andb_true_iff in Hp. destruct Hp as [Hp _].
    apply andb_true_iff in Hp. destruct Hp as [Hp _]. apply negb_true_iff in Hp.
    apply (Hhidden r' Hin Hp).
  - unfold DB.GetNote. rewrite Hrow. simpl. eexists. split; [reflexivity|].
    repeat split.
  - apply find_some in Hrow. destruct Hrow as [Hin _].
    eexists. split.
    + apply GetPendingNotes_row. eexists. split; [exact Hin|].
      split; reflexivity.
    + split; reflexivity.
  - intros x Hx. unfold d', DB.DeleteNote. rewrite find_note_set.
    + destruct (DB.find_note d x) as [r0|] eqn:E; [|reflexivity].
      simpl. apply find_note_id in E.
      destruct (NoteRow.id r0 =? id) eqn:E'; [apply Z.eqb_eq in E'; lia | reflexivity].
    + intros r0. destruct (NoteRow.id r0 =? id); reflexivity.
Qed.

(** X6.  The purge only takes what was soft-deleted.  On a table with
    distinct ids, [PermanentlyDeleteSynced] of a live note changes nothing;
    of a soft-deleted note it removes that row and no other, after which
    [GetNote] finds nothing under the id.  So a note is gone for good only
    through [DeleteNote] followed by the purge. *)
Theorem purge_takes_only_soft_deleted_notes (now : Time) (d : DB.t) (id : Z)
    (r : NoteRow.t) :
  NoDup (map NoteRow.id (DB.notes d)) ->
  DB.find_note d id = Some r ->
  (NoteRow.deleted r = false -> DB.PermanentlyDeleteSynced d id = d)
  /\ (NoteRow.deleted r = true ->
      DB.GetNote (DB.PermanentlyDeleteSynced d id) id = None
      /\ forall r', In r' (DB.notes (DB.PermanentlyDeleteSynced d id))
                    <-> In r' (DB.notes d) /\ r' <> r)
  /\ DB.GetNote (DB.PermanentlyDeleteSynced (DB.DeleteNote now d id) id) id = None
  /\ (forall x, x <> id ->
        DB.find_note (DB.PermanentlyDeleteSynced (DB.DeleteNote now d id) id) x
        = DB.find_note d x).
Proof.
  intros Hnd Hr.
  assert (Hid : NoteRow.id r = id) by (apply (find_note_id d); exact Hr).
  assert (Hin : In r (DB.notes d)) by (apply find_some in Hr; tauto).
  assert (Hsame : forall r', In r' (DB.notes d) -> NoteRow.id r' = id -> r' = r).
  { intros r' Hin' Hid'. apply (NoDup_map_eq NoteRow.id (DB.notes d)); congruence. }
  split; [|split; [|split]].
  - intros Hlive. unfold DB.PermanentlyDeleteSynced.
    rewrite filter_all; [apply set_notes_same|].
    intros r' Hin'. destruct (NoteRow.id r' =? id) eqn:E; [|reflexivity].
    apply Z.eqb_eq in E. rewrite (Hsame r' Hin' E), Hlive. reflexivity.
  - intros Hdel. split.
    + unfold DB.GetNote. rewrite PermanentlyDeleteSynced_removes; [reflexivity|].
      intros r' Hin' Hid'. rewrite (Hsame r' Hin' Hid'). exact Hdel.
    + intros r'. unfold DB.PermanentlyDeleteSynced. simpl. rewrite filter_In.
      split.
      * intros [Hin' Hkeep]. split; [exact Hin'|]. intros ->.
        rewrite Hid, Z.eqb_refl, Hdel in Hkeep. discriminate.
      * intros [Hin' Hneq]. split; [exact Hin'|].
        destruct (NoteRow.id r' =? id) eqn:E; [|reflexivity].
        apply Z.eqb_eq in E. elim Hneq. apply Hsame; assumption.
  - unfold DB.GetNote. rewrite PermanentlyDeleteSynced_removes; [reflexivity|].
    intros r' Hin' Hid'. unfold DB.DeleteNote in Hin'. simpl in Hin'.
    apply in_map_iff in Hin'. destruct Hin' as (r0 & <- & _).
    destruct (NoteRow.id r0 =? id) eqn:E; [reflexivity|].
    apply Z.eqb_neq in E. contradiction.
  - intros x Hx. rewrite PermanentlyDeleteSynced_other by exact Hx.
    unfold DB.DeleteNote. rewrite find_note_set.
    + destruct (DB.find_note d x) as [r0|] eqn:E; [|reflexivity].
      simpl. apply find_note_id in E.
      destruct (NoteRow.id r0 =? id) eqn:E'; [apply Z.eqb_eq in E'; lia | reflexivity].
    + intros r0. destruct (NoteRow.id r0 =? id); reflexivity.
Qed.

End MissingAndDeleted.

Lemma writes_to_a_missing_note_change_nothing_witness :
  DB.UpdateNote (time_Unix 700) sample.local_db 5 "t" "c" None = sample.local_db
  /\ DB.DeleteNote (time_Unix 700) sample.local_db 5 = sample.local_db
  /\ DB.SetNotePassword (time_Unix 700) sample.local_db 5 "pw" = sample.local_db
  /\ DB.SetNoteSynced sample.local_db 5 "srv-5" = sample.local_db
  /\ DB.PermanentlyDeleteSynced sample.local_db 5 = sample.local_db
  /\ (forall version,
        DB.GetNoteVersion sample.local_db 1 = inr version ->
        DB.RestoreNoteVersion (time_Unix 700) sample.local_db 5 1
        = (sample.local_db, None))
  /\ DB.GetNote sample.local_db 5 = None.
Proof.
  apply (writes_to_a_missing_note_change_nothing
           (time_Unix 700) sample.local_db 5 "t" "c" "pw" "srv-5" None 1).
  reflexivity.
Defined.

Lemma soft_deleted_note_is_hidden_and_kept_witness :
  (forall it,
     In it (DB.ListNotes (DB.DeleteNote (time_Unix 700) sample.local_db 1)) ->
     NoteListItem.ID it <> 1)
  /\ option_map Note.Deleted
       (DB.GetNote (DB.DeleteNote (time_Unix 700) sample.local_db 1) 1)
     = Some true.
Proof.
  destruct (soft_deleted_note_is_hidden_and_kept
              (time_Unix 700) sample.local_db 1 sample.note_A eq_refl)
    as (Hlist & _ & _ & (n & Hn & Hdel & _) & _).
  split; [exact Hlist|].
  rewrite Hn. simpl. rewrite Hdel. reflexivity.
Defined.

Lemma purge_takes_only_soft_deleted_notes_witness :
  DB.PermanentlyDeleteSynced sample.local_db 1 = sample.local_db
  /\ DB.GetNote
       (DB.PermanentlyDeleteSynced (DB.DeleteNote (time_Unix 700) sample.local_db 1) 1)
       1
     = None.
Proof.
  assert (Hnd : NoDup (map NoteRow.id (DB.notes sample.local_db))).
  { simpl. constructor; [intros [] | constructor]. }
  destruct (purge_takes_only_soft_deleted_notes
              (time_Unix 700) sample.local_db 1 sample.note_A Hnd eq_refl)
    as (Hlive & _ & Hgone & _).
  split; [apply Hlive; reflexivity | exact Hgone].
Defined.

(** ** Listings: notes by level, folders, versions *)

(** X7.  Every live note is listed at exactly one level.  On a table with
    distinct ids, a note that is not deleted and has no parent folder is in
    the root list and in no folder's list; one whose parent is folder [p]
    is in the list of [p], not in the root list and in no other folder's
    list.  The count of a folder is the length of its list. *)
Theorem live_note_is_listed_at_one_level (d : DB.t) (r : NoteRow.t) :
  NoDup (map NoteRow.id (DB.notes d)) ->
  In r (DB.notes d) ->
  NoteRow.deleted r = false ->
  match NoteRow.parent_folder_id r with
  | None =>
      In (DB.list_item "" r) (DB.ListNotes d)
      /\ forall folderID it,
           In it (DB.ListNotesInFolder d folderID) ->
           NoteListItem.ID it <> NoteRow.id r
  | Some p =>
      In (DB.list_item "note" r) (DB.ListNotesInFolder d p)
      /\ (forall it, In it (DB.ListNotes d) -> NoteListItem.ID it <> NoteRow.id r)
      /\ forall folderID it,
           folderID <> p ->
           In it (DB.ListNotesInFolder d folderID) ->
           NoteListItem.ID it <> NoteRow.id r
  end
  /\ forall folderID,
       DB.CountNotesInFolder d folderID
       = Z.of_nat (List.length (DB.ListNotesInFolder d folderID)).
Proof.
  intros Hnd Hin Hlive.
  assert (Hsame : forall r', In r' (DB.notes d) ->
                             NoteRow.id r' = NoteRow.id r -> r' = r).
  { intros r' Hin' Hid. apply (NoDup_map_eq NoteRow.id (DB.notes d)); assumption. }
  split.
  - destruct (NoteRow.parent_folder_id r) as [p|] eqn:Ep.
    + split; [|split].
      * apply listed_row. exists r. split; [exact Hin|].
        rewrite Ep, Hlive. simpl. rewrite Z.eqb_refl. split; reflexivity.
      * intros it Hit Hid. apply listed_row in Hit.
        destruct Hit as (r' & Hin' & Hp & ->). simpl in Hid.
        rewrite (Hsame r' Hin' Hid), Ep in Hp. simpl in Hp.
        rewrite andb_false_r in Hp. discriminate.
      * intros folderID it Hneq Hit Hid. apply listed_row in Hit.
        destruct Hit as (r' & Hin' & Hp & ->). simpl in Hid.
        rewrite (Hsame r' Hin' Hid), Ep in Hp. simpl in Hp.
        apply andb_true_iff in Hp. destruct Hp as [Hp _].
        apply Z.eqb_eq in Hp. congruence.
    + split.
      * apply listed_row. exists r. split; [exact Hin|].
        rewrite Ep, Hlive. split; reflexivity.
      * intros folderID it Hit Hid. apply listed_row in Hit.
        destruct Hit as (r' & Hin' & Hp & ->). simpl in Hid.
        rewrite (Hsame r' Hin' Hid), Ep in Hp. discriminate.
  - intros folderID. unfold DB.CountNotesInFolder, DB.ListNotesInFolder.
    rewrite length_map. f_equal. symmetry. apply Permutation_length.
    apply order_by_perm.
Qed.

Lemma live_note_is_listed_at_one_level_witness :
  In (DB.list_item "" sample.note_hello) (DB.ListNotes sample.search_db)
  /\ (forall folderID it,
        In it (DB.ListNotesInFolder sample.search_db folderID) ->
        NoteListItem.ID it <> 1).
Proof.
  assert (Hnd : NoDup (map NoteRow.id (DB.notes sample.search_db))).
  { simpl. repeat constructor; simpl; intuition discriminate. }
  destruct (live_note_is_listed_at_one_level sample.search_db sample.note_hello Hnd)
    as [H _]; [left; reflexivity | reflexivity | exact H].
Defined.

Lemma GetFolder_scan (d : DB.t) (id : Z) :
  DB.GetFolder d id
  = match find (fun f => FolderRow.id f =? id) (DB.folders d) with
    | Some f => inr (DB.scan_folder f)
    | None => inl sql_ErrNoRows
    end.
Proof. reflexivity. Qed.

Lemma listed_folder (d : DB.t) (parentID : Z) (f : Folder.t) :
  In f (DB.ListFolders d parentID)
  <-> exists row,
        In row (DB.folders d)
        /\ FolderRow.deleted row = false
        /\ (FolderRow.parent_folder_id row = Some parentID
            \/ (FolderRow.parent_folder_id row = None /\ parentID = 0))
        /\ f = DB.scan_folder row.
Proof.
  unfold DB.ListFolders. rewrite in_map_iff. split.
  - intros (row & <- & Hin). apply In_order_by, filter_In in Hin.
    destruct Hin as [Hin Hp]. exists row.
    apply andb_true_iff in Hp. destruct Hp as [Hp Hlive].
    apply negb_true_iff in Hlive. repeat split; try assumption.
    destruct (FolderRow.parent_folder_id row) as [p|]; simpl in Hp.
    + left. rewrite orb_false_r in Hp. apply Z.eqb_eq in Hp. congruence.
    + right. apply Z.eqb_eq in Hp. tauto.
  - intros (row & Hin & Hlive & Hp & ->). exists row. split; [reflexivity|].
    apply In_order_by, filter_In. split; [exact Hin|].
    rewrite Hlive. destruct Hp as [Hp | [Hp ->]]; rewrite Hp; simpl.
    + rewrite Z.eqb_refl. reflexivity.
    + reflexivity.
Qed.

(** X8.  Folders.  A folder just created is found under its id and listed
    under the parent it was created with.  [ListFolders] shows the folders
    of one level that are not deleted, each with that level as its parent;
    level 0 takes both the rows stored with parent 0 and those with no
    parent.  A deleted folder is in no list, while [GetFolder] still
    returns it, flagged; its notes are untouched: every note listing reads
    as before. *)
Theorem folder_is_listed_until_deleted (now now' : Time) (d : DB.t)
    (title : string) (parentID : Z) :
  let d' := fst (DB.CreateFolder now d title parentID) in
  let id := snd (DB.CreateFolder now d title parentID) in
  let created := Folder.mk id title "" parentID now now false in
  In created (DB.ListFolders d' parentID)
  /\ DB.GetFolder d' id = inr created
  /\ (forall level f,
        In f (DB.ListFolders d' level) ->
        Folder.Deleted f = false /\ Folder.ParentFolder f = level)
  /\ (forall row,
        In row (DB.folders d') -> FolderRow.deleted row = false ->
        FolderRow.parent_folder_id row = None ->
        In (DB.scan_folder row) (DB.ListFolders d' 0))
  /\ (forall level f,
        In f (DB.ListFolders (DB.DeleteFolder now' d' id) level) ->
        Folder.ID f <> id)
  /\ DB.GetFolder (DB.DeleteFolder now' d' id) id
     = inr (Folder.mk id title "" parentID now now' true)
  /\ DB.notes (DB.DeleteFolder now' d' id) = DB.notes d'
  /\ (forall level,
        DB.ListNotesInFolder (DB.DeleteFolder now' d' id) level
        = DB.ListNotesInFolder d' level).
Proof.
  intros d' id created.
  assert (Hfresh : find (fun f => FolderRow.id f =? id) (DB.folders d) = None).
  { destruct (find _ (DB.folders d)) as [f|] eqn:E; [|reflexivity].
    apply find_some in E. destruct E as [Hin He]. apply Z.eqb_eq in He.
    assert (FolderRow.id f < id)
      by (apply next_rowid_fresh, in_map; exact Hin).
    lia. }
  assert (Hfind : find (fun f => FolderRow.id f =? id) (DB.folders d')
                  = Some (FolderRow.mk id title None (Some parentID) now now false)).
  { unfold d'. simpl. rewrite find_app_none by exact Hfresh. simpl.
    fold id. rewrite Z.eqb_refl. reflexivity. }
  split; [|split; [|split; [|split; [|split; [|split; [|split]]]]]].
  - apply listed_folder.
    exists (FolderRow.mk id title None (Some parentID) now now false).
    split; [unfold d'; simpl; apply in_or_app; right; left; reflexivity|].
    split; [reflexivity|]. split; [left; reflexivity | reflexivity].
  - rewrite GetFolder_scan, Hfind. reflexivity.
  - intros level f Hf. apply listed_folder in Hf.
    destruct Hf as (row & _ & Hlive & Hp & ->). split; [exact Hlive|].
    unfold DB.scan_folder; simpl. destruct Hp as [-> | [-> ->]]; reflexivity.
  - intros row Hin Hlive Hp. apply listed_folder. exists row.
    repeat split; try assumption. right. split; [exact Hp | reflexivity].
  - intros level f Hf. apply listed_folder in Hf.
    destruct Hf as (row & Hin & Hlive & _ & ->). simpl.
    unfold DB.DeleteFolder in Hin. simpl in Hin.
    apply in_map_iff in Hin. destruct Hin as (row0 & <- & _).
    destruct (FolderRow.id row0 =? id) eqn:E; [discriminate|].
    apply Z.eqb_neq. exact E.
  - rewrite GetFolder_scan. unfold DB.DeleteFolder, DB.set_folders.
    cbn [DB.folders].
    rewrite (folder_update_row d'
               (fun f => FolderRow.mk (FolderRow.id f) (FolderRow.title f)
                           (FolderRow.password f) (FolderRow.parent_folder_id f)
                           (FolderRow.created_at f) now' true)
               id _ (fun _ => eq_refl) Hfind).
    reflexivity.
  - reflexivity.
  - reflexivity.
Qed.

Lemma hd_error_map {A B : Type} (f : A -> B) (l : list A) :
  hd_error (map f l) = option_map f (hd_error l).
Proof. destruct l; reflexivity. Qed.

Section VersionListing.
Context {codec : JSON}.

(** X9.  The history as [GetNoteVersions] shows it: the versions of the
    note asked for and of no other note, every one of them, highest number
    first.  After a save that was not skipped as a repeat, the version just
    written heads the list.  On a table with distinct version ids, each
    entry is what [GetNoteVersion] returns for its id. *)
Theorem GetNoteVersions_lists_the_note_newest_first (d : DB.t) (noteID : Z) :
  StronglySorted
    (fun a b => NoteVersion.VersionNum b <= NoteVersion.VersionNum a)
    (DB.GetNoteVersions d noteID)
  /\ (forall v,
        In v (DB.GetNoteVersions d noteID)
        <-> exists row, In row (DB.note_versions d)
                        /\ VersionRow.note_id row = noteID
                        /\ v = DB.scan_version row)
  /\ (forall v, In v (DB.GetNoteVersions d noteID) -> NoteVersion.NoteID v = noteID)
  /\ (forall op,
        op_noteID op = noteID ->
        same_as_last d noteID (op_content op) = false ->
        versions_ok d ->
        Z.of_nat (List.length (DB.note_versions d)) < 2 ^ 63 - 1 ->
        hd_error (DB.GetNoteVersions (save d op) noteID)
        = Some (DB.scan_version (version_row d op)))
  /\ (NoDup (map VersionRow.id (DB.note_versions d)) ->
      forall v, In v (DB.GetNoteVersions d noteID) ->
                DB.GetNoteVersion d (NoteVersion.ID v) = inr v).
Proof.
  assert (Hmem : forall v,
            In v (DB.GetNoteVersions d noteID)
            <-> exists row, In row (DB.note_versions d)
                            /\ VersionRow.note_id row = noteID
                            /\ v = DB.scan_version row).
  { intros v. unfold DB.GetNoteVersions, DB.versions_of. rewrite in_map_iff. split.
    - intros (row & <- & Hin). apply In_order_by, filter_In in Hin.
      destruct Hin as [Hin Hid]. apply Z.eqb_eq in Hid. exists row. tauto.
    - intros (row & Hin & Hid & ->). exists row. split; [reflexivity|].
      apply In_order_by, filter_In. split; [exact Hin|]. apply Z.eqb_eq. exact Hid. }
  split; [|split; [exact Hmem|split; [|split]]].
  - unfold DB.GetNoteVersions. apply sorted_map.
    apply (order_by_desc_sorted VersionRow.version_num).
  - intros v Hv. apply Hmem in Hv. destruct Hv as (row & _ & Hid & ->). exact Hid.
  - intros op Hop Hnew Hok Hlen. subst noteID.
    rewrite SaveNoteVersion_unfold, Hnew.
    unfold DB.GetNoteVersions, DB.versions_of. simpl DB.note_versions.
    rewrite versions_of_app, Z.eqb_refl, hd_error_map.
    rewrite order_by_desc_newest; [reflexivity|].
    intros y Hy. simpl.
    assert (Hk : (List.length (DB.versions_of d (op_noteID op))
                  <= List.length (DB.note_versions d))%nat)
      by apply filter_length_le.
    rewrite (Hok (op_noteID op)), max_one_to, wrap64_small by lia.
    assert (Hy' : In (VersionRow.version_num y) (version_nums d (op_noteID op)))
      by (apply in_map; exact Hy).
    rewrite (Hok (op_noteID op)) in Hy'. apply one_to_bounds in Hy'. lia.
  - intros Hnd v Hv. apply Hmem in Hv. destruct Hv as (row & Hin & _ & ->).
    unfold DB.GetNoteVersion. simpl.
    destruct (find _ (DB.note_versions d)) as [row'|] eqn:E.
    + apply find_some in E. destruct E as [Hin' He]. apply Z.eqb_eq in He.
      rewrite (NoDup_map_eq VersionRow.id _ _ _ Hnd Hin' Hin He). reflexivity.
    + apply (find_none _ _ E) in Hin. rewrite Z.eqb_refl in Hin. discriminate.
Qed.

End VersionListing.

Lemma GetNoteVersions_lists_the_note_newest_first_witness :
  hd_error
    (DB.GetNoteVersions
       (save sample.versioned_db (mkSaveOp (time_Unix 70) 1 "A" "body" None)) 1)
  = Some (DB.scan_version
            (version_row sample.versioned_db
               (mkSaveOp (time_Unix 70) 1 "A" "body" None))).
Proof.
  destruct (GetNoteVersions_lists_the_note_newest_first sample.versioned_db 1)
    as (_ & _ & _ & Hhead & _).
  apply Hhead.
  - reflexivity.
  - vm_compute. reflexivity.
  - intros n. unfold version_nums, DB.versions_of.
    cbn [DB.note_versions sample.versioned_db filter VersionRow.note_id
         sample.version_1].
    destruct (1 =? n); reflexivity.
  - simpl. lia.
Defined.

(** ** The download phase, applied again *)

Section DownloadAgain.
Context {codec : JSON}.

Lemma download_note_same (st : api.state) (sn : api.NoteResponse) :
  up_to_date (api.database st) sn ->
  api.database (api.download_note st sn) = api.database st.
Proof.
  intros (r & Hr & Hle). unfold api.download_note; simpl.
  unfold DB.UpsertFromServer, DB.GetNoteByServerID.
  rewrite find_hd_filter. fold (rows_with_server_id (api.database st) (api.nr_ID sn)).
  rewrite Hr. simpl. unfold After.
  destruct (Z.ltb_spec (NoteRow.updated_at r) (time_Unix (api.nr_UpdatedAt sn)));
    [lia | reflexivity].
Qed.





Lemma download_fold_counts (l : list api.NoteResponse) (st : api.state) :
  api.Downloaded (api.result (fold_left api.download_note l st))
  = api.Downloaded (api.result st) + Z.of_nat (List.length l)
  /\ api.Errors (api.result (fold_left api.download_note l st))
     = api.Errors (api.result st)
  /\ api.Uploaded (api.result (fold_left api.download_note l st))
     = api.Uploaded (api.result st)
  /\ api.Deleted (api.result (fold_left api.download_note l st))
     = api.Deleted (api.result st)
  /\ api.log (fold_left api.download_note l st) = api.log st.
Proof.
  revert st. induction l as [|h l IH]; intros st.
  - simpl. repeat split; lia.
  - cbn [fold_left]. destruct (IH (api.download_note st h)) as (H1 & H2 & H3 & H4 & H5).
    rewrite H1, H2, H3, H4, H5. cbn [List.length]. rewrite Nat2Z.inj_succ.
    unfold api.download_note, api.incr_Downloaded.
    cbn [api.result api.log api.Downloaded api.Errors api.Uploaded api.Deleted].
    repeat split. lia.
Qed.



Lemma download_note_unique (st : api.state) (sn : api.NoteResponse) :
  unique_server_ids (api.database st) ->
  unique_server_ids (api.database (api.download_note st sn)).
Proof.
  intros H sid.
  destruct (String.eqb_spec (api.nr_ID sn) sid) as [<- | E].
  - destruct (download_note_rows st sn) as [id Hid]. rewrite Hid.
    specialize (H (api.nr_ID sn)). unfold downloaded.
    destruct (rows_with_server_id (api.database st) (api.nr_ID sn)) as [|r rs];
      [simpl; lia|].
    destruct (NoteRow.updated_at r <? time_Unix (api.nr_UpdatedAt sn));
      [rewrite length_map|]; exact H.
  - rewrite download_note_frame by exact E. apply H.
Qed.

(** X11.  The download phase never makes a second local copy of a server
    note: if no server id is carried by two local rows before the phase,
    none is afterwards, whatever the fetch returns (the same note twice
    included) and also when the fetch fails. *)
Theorem download_keeps_server_ids_unique (client : api.Client) (lastSync : Z)
    (st : api.state) :
  unique_server_ids (api.database st) ->
  unique_server_ids (api.database (api.download client lastSync st)).
Proof.
  intros H. unfold api.download.
  destruct (api.SyncNotes client (api.log st) lastSync) as [err | serverNotes];
    [exact H|].
  apply (fold_left_invariant (fun s => unique_server_ids (api.database s)));
    [exact H|].
  intros s sn. apply download_note_unique.
Qed.

End DownloadAgain.


Lemma download_keeps_server_ids_unique_witness :
  unique_server_ids
    (api.database
       (api.download
          (api.mkClient "token" (fun _ _ => None)
             (api.UpsertNote sample.client_up)
             (fun _ _ => inr [sample.remote_unknown; sample.remote_newer;
                              sample.remote_unknown]))
          0 (api.begin sample.local_db))).
Proof.
  apply download_keeps_server_ids_unique.
  intros sid. unfold rows_with_server_id.
  cbn [api.begin api.database sample.local_db DB.notes filter].
  destruct (DB.option_string_eqb _ sid); simpl; lia.
Defined.

(** ** The upload phase: what it counts, what it leaves pending *)

Section UploadCounts.
Context {codec : JSON}.
Variable client : api.Client.

Lemma upload_note_counts (st : api.state) (n : Note.t) :
  let r := api.result st in
  let r' := api.result (api.upload_note client st n) in
  api.Uploaded r' + api.Deleted r' + Z.of_nat (List.length (api.Errors r'))
  = api.Uploaded r + api.Deleted r + Z.of_nat (List.length (api.Errors r)) + 1
  /\ api.Downloaded r' = api.Downloaded r.
Proof.
  unfold api.upload_note.
  destruct (Note.Deleted n).
  - destruct (negb (String.eqb (Note.ServerID n) "")).
    + destruct (api.DeleteNote client (api.log st) (Note.ServerID n)); simpl;
        rewrite ?length_app; simpl; split; lia.
    + simpl. split; lia.
  - destruct (api.UpsertNote client (api.log st) _); simpl;
      rewrite ?length_app; simpl; split; lia.
Qed.

Lemma upload_fold_counts (l : list Note.t) (st : api.state) :
  let r := api.result st in
  let r' := api.result (fold_left (api.upload_note client) l st) in
  api.Uploaded r' + api.Deleted r' + Z.of_nat (List.length (api.Errors r'))
  = api.Uploaded r + api.Deleted r + Z.of_nat (List.length (api.Errors r))
    + Z.of_nat (List.length l)
  /\ api.Downloaded r' = api.Downloaded r.
Proof.
  revert st. induction l as [|n l IH]; intros st.
  - simpl. split; lia.
  - cbn [fold_left List.length]. rewrite Nat2Z.inj_succ.
    destruct (IH (api.upload_note client st n)) as [H1 H2].
    destruct (upload_note_counts st n) as [H3 H4].
    cbv zeta in *. split; lia.
Qed.

(** X12.  The counters of a pass add up.  The upload loop handles every
    pending note of its snapshot exactly once: each one ends as an upload,
    as a deletion or as an error, so the three counts sum to the number of
    pending notes.  A failed fetch adds its error and downloads nothing; a
    fetch that succeeds adds no error and counts every note of the
    reply. *)
Theorem Sync_counts_add_up (d : DB.t) (lastSync : Z) :
  let up := api.upload client (api.begin d) in
  let final := fst (api.Sync d client lastSync) in
  api.Uploaded (api.result up) + api.Deleted (api.result up)
  + Z.of_nat (List.length (api.Errors (api.result up)))
  = Z.of_nat (List.length (DB.GetPendingNotes d))
  /\ api.Uploaded (api.result final) = api.Uploaded (api.result up)
  /\ api.Deleted (api.result final) = api.Deleted (api.result up)
  /\ match api.SyncNotes client (api.log up) lastSync with
     | inl err =>
         api.Downloaded (api.result final) = 0
         /\ api.Errors (api.result final) = api.Errors (api.result up) ++ [err]
     | inr serverNotes =>
         api.Downloaded (api.result final) = Z.of_nat (List.length serverNotes)
         /\ api.Errors (api.result final) = api.Errors (api.result up)
     end.
Proof.
  intros up final.
  destruct (upload_fold_counts (DB.GetPendingNotes d) (api.begin d)) as [Hsum Hdown].
  simpl in Hsum, Hdown.
  change (fold_left (api.upload_note client) (DB.GetPendingNotes d) (api.begin d))
    with up in Hsum, Hdown.
  split; [exact Hsum|].
  unfold final, api.Sync. cbn [fst]. fold up. unfold api.download.
  destruct (api.SyncNotes client (api.log up) lastSync) as [err | serverNotes].
  - simpl. repeat split. exact Hdown.
  - destruct (download_fold_counts serverNotes
                (api.mkState (api.database up)
                   (api.log up ++ [api.mkEvent None (api.CallSyncNotes lastSync) false])
                   (api.result up)))
      as (H1 & H2 & H3 & H4 & _).
    cbn [api.result] in H1, H2, H3, H4. repeat split; try assumption. lia.
Qed.

Lemma upload_note_errors_grow (st : api.state) (n : Note.t) :
  (List.length (api.Errors (api.result st))
   <= List.length (api.Errors (api.result (api.upload_note client st n))))%nat.
Proof.
  unfold api.upload_note.
  destruct (Note.Deleted n).
  - destruct (negb (String.eqb (Note.ServerID n) "")).
    + destruct (api.DeleteNote client (api.log st) (Note.ServerID n)); simpl;
        rewrite ?length_app; simpl; lia.
    + simpl. lia.
  - destruct (api.UpsertNote client (api.log st) _); simpl;
      rewrite ?length_app; simpl; lia.
Qed.

Lemma upload_fold_errors_grow (l : list Note.t) (st : api.state) :
  (List.length (api.Errors (api.result st))
   <= List.length
        (api.Errors (api.result (fold_left (api.upload_note client) l st))))%nat.
Proof.
  revert st. induction l as [|n l IH]; simpl; intros st; [lia|].
  pose proof (upload_note_errors_grow st n).
  pose proof (IH (api.upload_note client st n)). lia.
Qed.

(** A step that adds no error leaves pending only rows that were pending
    and are not the note of the step. *)
Lemma upload_note_clean (st : api.state) (n : Note.t) (r : NoteRow.t) :
  api.Errors (api.result (api.upload_note client st n)) = [] ->
  In r (DB.notes (api.database (api.upload_note client st n))) ->
  NoteRow.sync_status r = SyncStatusPending ->
  In r (DB.notes (api.database st)) /\ DB.scan_note_lax r <> n.
Proof.
  assert (Hpurge : In r (DB.notes (DB.PermanentlyDeleteSynced (api.database st)
                                     (Note.ID n))) ->
                   Note.Deleted n = true ->
                   In r (DB.notes (api.database st)) /\ DB.scan_note_lax r <> n).
  { intros Hin Hdel. unfold DB.PermanentlyDeleteSynced in Hin. simpl in Hin.
    apply filter_In in Hin. destruct Hin as [Hin Hkeep]. split; [exact Hin|].
    intros E. rewrite <- E in Hkeep, Hdel. simpl in Hkeep, Hdel.
    rewrite Z.eqb_refl, Hdel in Hkeep. discriminate. }
  unfold api.upload_note.
  destruct (Note.Deleted n) eqn:Hdel.
  - destruct (negb (String.eqb (Note.ServerID n) "")).
    + destruct (api.DeleteNote client (api.log st) (Note.ServerID n)); simpl.
      * intros He. destruct (api.Errors (api.result st)); discriminate.
      * intros _ Hin _. apply Hpurge; [exact Hin | reflexivity].
    + simpl. intros _ Hin _. apply Hpurge; [exact Hin | reflexivity].
  - destruct (api.UpsertNote client (api.log st) _) as [err | resp]; simpl.
    + intros He. destruct (api.Errors (api.result st)); discriminate.
    + intros _ Hin Hp. apply in_map_iff in Hin. destruct Hin as (r0 & <- & Hin).
      destruct (NoteRow.id r0 =? Note.ID n) eqn:E; [discriminate|].
      split; [exact Hin|]. intros E'. rewrite <- E' in E. simpl in E.
      rewrite Z.eqb_refl in E. discriminate.
Qed.

Lemma upload_fold_clean (l : list Note.t) (st : api.state) :
  (forall r, In r (DB.notes (api.database st)) ->
             NoteRow.sync_status r = SyncStatusPending ->
             In (DB.scan_note_lax r) l) ->
  api.Errors (api.result (fold_left (api.upload_note client) l st)) = [] ->
  forall r, In r (DB.notes (api.database (fold_left (api.upload_note client) l st))) ->
            NoteRow.sync_status r <> SyncStatusPending.
Proof.
  revert st. induction l as [|n l IH]; simpl; intros st Hcover Hclean r Hin Hp.
  - apply (Hcover r Hin Hp).
  - assert (Hstep : api.Errors (api.result (api.upload_note client st n)) = []).
    { pose proof (upload_fold_errors_grow l (api.upload_note client st n)) as Hg.
      rewrite Hclean in Hg. simpl in Hg.
      destruct (api.Errors (api.result (api.upload_note client st n)));
        [reflexivity | simpl in Hg; lia]. }
    apply (IH (api.upload_note client st n)) with (r := r); try assumption.
    intros r' Hin' Hp'.
    destruct (upload_note_clean st n r' Hstep Hin' Hp') as [Hold Hneq].
    destruct (Hcover r' Hold Hp') as [E | Hl]; [congruence | exact Hl].
Qed.

(** X13.  An upload phase without an error leaves nothing pending.  When
    [result.Errors] is empty after the upload loop, no row of the local
    table is pending any more: the pending notes of the next pass are none,
    so an upload phase run again sends no request and counts nothing. *)
Theorem clean_upload_leaves_nothing_pending (d : DB.t) :
  let up := api.upload client (api.begin d) in
  api.Errors (api.result up) = [] ->
  (forall r, In r (DB.notes (api.database up)) ->
             NoteRow.sync_status r <> SyncStatusPending)
  /\ DB.GetPendingNotes (api.database up) = []
  /\ forall client',
       api.upload client' (api.begin (api.database up))
       = api.begin (api.database up).
Proof.
  intros up Hclean.
  assert (Hnone : forall r, In r (DB.notes (api.database up)) ->
                            NoteRow.sync_status r <> SyncStatusPending).
  { apply upload_fold_clean; [|exact Hclean].
    simpl. intros r Hin Hp. apply GetPendingNotes_row. exists r. tauto. }
  assert (Hpending : DB.GetPendingNotes (api.database up) = []).
  { destruct (DB.GetPendingNotes (api.database up)) as [|n rest] eqn:E;
      [reflexivity|].
    assert (Hn : In n (DB.GetPendingNotes (api.database up)))
      by (rewrite E; left; reflexivity).
    apply GetPendingNotes_row in Hn. destruct Hn as (r & Hin & _ & Hp).
    elim (Hnone r Hin Hp). }
  split; [exact Hnone|]. split; [exact Hpending|].
  intros client'. unfold api.upload at 1. cbn [api.database api.begin].
  rewrite Hpending. reflexivity.
Qed.

End UploadCounts.

Lemma clean_upload_leaves_nothing_pending_witness :
  DB.GetPendingNotes
    (api.database (api.upload sample.client_up (api.begin sample.pending_db)))
  = [].
Proof.
  apply (clean_upload_leaves_nothing_pending sample.client_up sample.pending_db).
  reflexivity.
Defined.

(** ** The remote store: primary keys *)

Lemma upsert_keeps_ids {A : Type} (k : A -> string) (p : A -> bool)
    (f : A -> A) (l : list A) (x : A) (key : string) :
  (forall a, k (f a) = k a) ->
  k x = key ->
  NoDup (map k l) ->
  NoDup (map k (if existsb (fun a => String.eqb (k a) key) l
                then map (fun a => if p a then f a else a) l
                else l ++ [x])).
Proof.
  intros Hf Hx Hnd. destruct (existsb _ l) eqn:E.
  - rewrite map_map.
    rewrite (map_ext (fun a => k (if p a then f a else a)) k); [exact Hnd|].
    intros a. destruct (p a); [apply Hf | reflexivity].
  - rewrite map_app. simpl.
    apply (Permutation_NoDup (Permutation_cons_append _ _)).
    constructor; [|exact Hnd].
    intros Hin. apply in_map_iff in Hin. destruct Hin as (a & Ha & Hin).
    assert (existsb (fun a => String.eqb (k a) key) l = true).
    { apply existsb_exists. exists a. split; [exact Hin|].
      apply String.eqb_eq. congruence. }
    congruence.
Qed.

Lemma serve_keys_ok (d : ServerDB.t) (q : remote_request) :
  remote_keys_ok d -> remote_keys_ok (serve d q).
Proof.
  intros (Hn & Hf & Hv). destruct q as [userID w | userID fresh id noteID title
    content tags hash versionNum createdAt].
  - destruct w; simpl; unfold remote_keys_ok; cbn [ServerDB.notes ServerDB.folders
      ServerDB.note_versions].
    + split; [|tauto].
      apply (upsert_keeps_ids ServerNote.ID
               (fun n => String.eqb (ServerNote.ID n) (ServerDB.mint fresh id)
                         && (ServerNote.UserID n =? userID))
               (fun n => ServerNote.mk (ServerNote.ID n) (ServerNote.UserID n)
                           title content tags parent (ServerNote.CreatedAt n)
                           updatedAt));
        [reflexivity | reflexivity | exact Hn].
    + split; [|tauto]. apply NoDup_map_filter. exact Hn.
    + split; [exact Hn|]. split; [|exact Hv].
      apply (upsert_keeps_ids ServerFolder.ID
               (fun f => String.eqb (ServerFolder.ID f) (ServerDB.mint fresh id)
                         && (ServerFolder.UserID f =? userID))
               (fun f => ServerFolder.mk (ServerFolder.ID f) (ServerFolder.UserID f)
                           title parent (ServerFolder.CreatedAt f) updatedAt));
        [reflexivity | reflexivity | exact Hf].
    + split; [exact Hn|]. split; [|exact Hv]. apply NoDup_map_filter. exact Hf.
  - simpl. unfold remote_keys_ok; cbn [ServerDB.notes ServerDB.folders
      ServerDB.note_versions].
    split; [exact Hn|]. split; [exact Hf|].
    apply (upsert_keeps_ids ServerNoteVersion.ID
             (fun v => String.eqb (ServerNoteVersion.ID v) (ServerDB.mint fresh id))
             (fun v => ServerNoteVersion.mk (ServerNoteVersion.ID v)
                         (ServerNoteVersion.NoteID v) (ServerNoteVersion.UserID v)
                         title content tags hash (ServerNoteVersion.VersionNum v)
                         (ServerNoteVersion.CreatedAt v)));
      [reflexivity | reflexivity | exact Hv].
Qed.

(** X14.  The remote store keeps its primary keys.  Along any run of
    upserts and deletes of notes, folders and versions, made for whatever
    users, with whatever ids the requests carry and whatever UUIDs are
    minted, no table of the store ever holds two rows of one id.  A store
    grown from an empty one is such a store. *)
Theorem remote_writes_keep_ids_distinct (qs : list remote_request)
    (d : ServerDB.t) :
  remote_keys_ok d -> remote_keys_ok (fold_left serve qs d).
Proof.
  revert d. induction qs as [|q qs IH]; simpl; intros d H; [exact H|].
  apply IH, serve_keys_ok, H.
Qed.

Lemma remote_writes_keep_ids_distinct_witness :
  remote_keys_ok
    (fold_left serve
       [RemoteWrite 1 (WriteUpsertNote "u-1" "" "t" "c" "[]" "" 10 20);
        RemoteWrite 2 (WriteUpsertNote "u-1" "" "t2" "c2" "[]" "" 10 20);
        RemoteWrite 2 (WriteUpsertNote "u-2" "u-1" "t3" "c3" "[]" "" 10 20);
        RemoteUpsertVersion 2 "u-3" "" "u-1" "t" "c" "[]" "h" 1 30;
        RemoteWrite 1 (WriteDeleteNote "u-1")]
       ServerDB.empty).
Proof.
  apply remote_writes_keep_ids_distinct.
  repeat split; constructor.
Defined.

(** ** The remote store: reading, deleting, fetching *)



(** X15.  A remote delete is scoped to the caller and silent.  After
    [DeleteNote] the caller finds nothing under the id, by lookup, by the
    GET handler (404) or in the list; exactly the rows of that id owned by
    the caller are gone and every other user reads what they read before.
    When the caller owns no note of the id (none exists, or it is another
    user's) the store is left as it was, and the handler's answer is 204
    all the same.  Folders behave alike. *)
Theorem remote_delete_is_scoped_and_silent (d : ServerDB.t) (id : string)
    (user : Z) :
  let d' := ServerDB.DeleteNote d id user in
  ServerDB.GetNote d' id user = None
  /\ server.getNoteHandler d' user id = server.jsonError "note not found" 404
  /\ (forall n, In n (ServerDB.ListNotesByUser d' user) -> ServerNote.ID n <> id)
  /\ (forall n, In n (ServerDB.notes d')
                <-> In n (ServerDB.notes d)
                    /\ ~ (ServerNote.ID n = id /\ ServerNote.UserID n = user))
  /\ (forall other, other <> user -> note_view d' other = note_view d other)
  /\ (ServerDB.GetNote d id user = None ->
      server.deleteNoteHandler d user id = (d, server.WriteHeader 204))
  /\ snd (server.deleteNoteHandler d user id) = server.WriteHeader 204
  /\ ServerDB.GetFolder (ServerDB.DeleteFolder d id user) id user = None
  /\ (ServerDB.GetFolder d id user = None ->
      server.deleteFolderHandler d user id = (d, server.WriteHeader 204)).
Proof.
  intros d'.
  assert (Hmem : forall n, In n (ServerDB.notes d')
                           <-> In n (ServerDB.notes d)
                               /\ ~ (ServerNote.ID n = id /\ ServerNote.UserID n = user)).
  { intros n. unfold d', ServerDB.DeleteNote. cbn [ServerDB.notes].
    rewrite filter_In, negb_true_iff, andb_false_iff, String.eqb_neq, Z.eqb_neq.
    split; [tauto|]. intros [Hin Hnot]. split; [exact Hin|].
    destruct (String.eqb_spec (ServerNote.ID n) id); [|tauto].
    destruct (Z.eq_dec (ServerNote.UserID n) user); tauto. }
  assert (Hnone : ServerDB.GetNote d' id user = None).
  { unfold ServerDB.GetNote.
    destruct (find _ (ServerDB.notes d')) as [n|] eqn:E; [|reflexivity].
    apply find_some in E. destruct E as [Hin Hp]. apply Hmem in Hin.
    apply andb_true_iff in Hp. destruct Hp as [Hid Hu].
    apply String.eqb_eq in Hid. apply Z.eqb_eq in Hu. tauto. }
  split; [exact Hnone|].
  split; [unfold server.getNoteHandler; rewrite Hnone; reflexivity|].
  split.
  { intros n Hn Hid. unfold ServerDB.ListNotesByUser in Hn.
    apply In_order_by, filter_In in Hn. destruct Hn as [Hin Hu].
    apply Hmem in Hin. apply Z.eqb_eq in Hu. tauto. }
  split; [exact Hmem|].
  split; [intros other Hneq; apply DeleteNote_other_view; exact Hneq|].
  split.
  { intros Hmiss. unfold server.deleteNoteHandler, ServerDB.DeleteNote.
    rewrite filter_all; [destruct d; reflexivity|].
    intros n Hin. apply (find_none _ _ Hmiss) in Hin. simpl in Hin.
    rewrite Hin. reflexivity. }
  split; [reflexivity|].
  split.
  { unfold ServerDB.GetFolder, ServerDB.DeleteFolder. cbn [ServerDB.folders].
    destruct (find _ (filter _ (ServerDB.folders d))) as [f|] eqn:E; [|reflexivity].
    apply find_some in E. destruct E as [Hin Hp]. apply filter_In in Hin.
    destruct Hin as [_ Hkeep]. rewrite Hp in Hkeep. discriminate. }
  intros Hmiss. unfold server.deleteFolderHandler, ServerDB.DeleteFolder.
  rewrite filter_all; [destruct d; reflexivity|].
  intros f Hin. apply (find_none _ _ Hmiss) in Hin. simpl in Hin.
  rewrite Hin. reflexivity.
Qed.





(** ** The remote store: an upsert, then a read *)

Lemma upsertNoteHandler_accepts (now1 now2 : Time) (fresh : string)
    (d : ServerDB.t) (user : Z) (req : server.UpsertNoteRequest) :
  server.req_Title req <> "" ->
  server.upsertNoteHandler now1 now2 fresh d user req
  = (fst (ServerDB.UpsertNote fresh d user (server.req_ID req)
            (server.req_Title req) (server.req_Content req) (server.req_Tags req)
            (server.req_ParentFolderID req)
            (stored_time (server.req_CreatedAt req) now1)
            (stored_time (server.req_UpdatedAt req) now2)),
     server.jsonResponse
       (server.mkNoteResponse (ServerDB.mint fresh (server.req_ID req))
          (server.req_Title req) (server.req_Content req) (server.req_Tags req)
          (server.req_ParentFolderID req)
          (Unix (stored_time (server.req_CreatedAt req) now1))
          (Unix (stored_time (server.req_UpdatedAt req) now2)))
       200).
Proof.
  intros Ht. unfold server.upsertNoteHandler.
  destruct (String.eqb_spec (server.req_Title req) ""); [contradiction|].
  reflexivity.
Qed.






(** ** Client and server together: an upload, then the fetch of it *)

Lemma time_Unix_floor (t : Time) : time_Unix (Unix t) <= t.
Proof.
  unfold time_Unix, Unix. pose proof (Z.mul_div_le t 1000000000). lia.
Qed.

Lemma stored_time_positive (field : Z) (now : Time) :
  0 < field -> stored_time field now = time_Unix field.
Proof.
  intros H. unfold stored_time. apply Z.ltb_lt in H. rewrite H. reflexivity.
Qed.

Lemma hd_error_all_same {A : Type} (l : list A) (x : A) :
  In x l -> (forall y, In y l -> y = x) -> hd_error l = Some x.
Proof.
  destruct l as [|a l]; simpl; [contradiction|].
  intros _ H. f_equal. apply H. left. reflexivity.
Qed.

Section UploadAndFetch.
Context {codec : JSON}.
Variables (client : api.Client) (now1 now2 : Time) (fresh : string)
          (s : ServerDB.t) (user : Z).

Lemma upload_note_live (st : api.state) (n : Note.t) (resp : api.NoteResponse) :
  Note.Deleted n = false ->
  api.UpsertNote client (api.log st) (upsert_request n) = inr resp ->
  api.database (api.upload_note client st n)
  = DB.SetNoteSynced (api.database st) (Note.ID n) (api.nr_ID resp).
Proof.
  intros Hlive Hresp. unfold api.upload_note. rewrite Hlive.
  fold (upsert_request n). rewrite Hresp. reflexivity.
Qed.

(** X19.  An uploaded note reaches the server and comes back without
    touching the local row.  Take a live local note with a title, stamped
    after the first second of 1970, the only local row of its server id,
    and let the client's reply to the upsert be what [upsertNoteHandler]
    answers for a user who owns the id or for whom it is new.  Then the
    local row is marked synced under the id the server stored; the server
    holds the note with the local title, content and tags, no parent
    folder, and the local [updated_at] cut to whole seconds; and applying
    that stored note to the local database, as the download loop does,
    changes nothing: the stamp that comes back is never later than the
    local one. *)
Theorem uploaded_note_comes_back_unchanged (st : api.state) (r : NoteRow.t) :
  let n := DB.scan_note_lax r in
  let key := ServerDB.mint fresh (Note.ServerID n) in
  let answer :=
    server.upsertNoteHandler now1 now2 fresh s user
      (wire.request (upsert_request n)) in
  NoDup (map NoteRow.id (DB.notes (api.database st))) ->
  In r (DB.notes (api.database st)) ->
  NoteRow.deleted r = false ->
  NoteRow.title r <> "" ->
  0 < Unix (NoteRow.updated_at r) ->
  (forall x, In x (DB.notes (api.database st)) ->
             NoteRow.server_id x = Some key -> x = r) ->
  (existsb (fun m => String.eqb (ServerNote.ID m) key) (ServerDB.notes s) = false
   \/ exists old, ServerDB.GetNote s key user = Some old) ->
  api.UpsertNote client (api.log st) (upsert_request n)
  = wire.note_reply (snd answer) ->
  let st' := api.upload_note client st n in
  DB.find_note (api.database st') (NoteRow.id r) = Some (synced_as key r)
  /\ exists m,
       ServerDB.GetNote (fst answer) key user = Some m
       /\ ServerNote.Title m = NoteRow.title r
       /\ ServerNote.Content m = NoteRow.content r
       /\ ServerNote.Tags m = json_Marshal (Note.Tags n)
       /\ ServerNote.ParentFolderID m = ""
       /\ ServerNote.UpdatedAt m = time_Unix (Unix (NoteRow.updated_at r))
       /\ forall st2,
            api.database st2 = api.database st' ->
            api.database
              (api.download_note st2 (wire.note (server.note_response m)))
            = api.database st'.
Proof.
  intros n key answer Hnd Hin Hlive Htitle Hstamp Honly Hown Hreply st'.
  pose proof (upsertNoteHandler_accepts now1 now2 fresh s user
                (wire.request (upsert_request n)) Htitle) as Hacc.
  change (server.upsertNoteHandler now1 now2 fresh s user
            (wire.request (upsert_request n))) with answer in Hacc.
  cbn [wire.request upsert_request server.req_ID server.req_Title
       server.req_Content server.req_Tags server.req_ParentFolderID
       server.req_CreatedAt server.req_UpdatedAt api.req_ID api.req_Title
       api.req_Content api.req_Tags api.req_CreatedAt api.req_UpdatedAt] in Hacc.
  change (Note.UpdatedAt n) with (NoteRow.updated_at r) in Hacc.
  change (Note.Title n) with (NoteRow.title r) in Hacc.
  change (Note.Content n) with (NoteRow.content r) in Hacc.
  change (ServerDB.mint fresh (Note.ServerID n)) with key in Hacc.
  rewrite (stored_time_positive _ now2 Hstamp) in Hacc.
  rewrite Hacc in Hreply. cbn [snd wire.note_reply] in Hreply.
  change (400 <=? 200) with false in Hreply. cbv iota in Hreply.
  assert (Hd : api.database st'
               = DB.SetNoteSynced (api.database st) (NoteRow.id r) key).
  { unfold st'. rewrite (upload_note_live st n _ Hlive Hreply). reflexivity. }
  assert (Hrows : DB.notes (api.database st')
                  = map (fun x => if NoteRow.id x =? NoteRow.id r
                                  then synced_as key x else x)
                        (DB.notes (api.database st))).
  { rewrite Hd. reflexivity. }
  assert (Hback : forall m,
            ServerNote.ID m = key ->
            ServerNote.UpdatedAt m = time_Unix (Unix (NoteRow.updated_at r)) ->
            forall st2,
              api.database st2 = api.database st' ->
              api.database
                (api.download_note st2 (wire.note (server.note_response m)))
              = api.database st').
  { intros m Hid Hupd st2 Hst2. rewrite <- Hst2. apply download_note_same.
    exists (synced_as key r). split.
    - cbn [wire.note server.note_response api.nr_ID server.nr_ID]. rewrite Hid.
      unfold rows_with_server_id. rewrite Hst2, Hrows.
      apply hd_error_all_same.
      + apply filter_In. split.
        * apply in_map_iff. exists r. rewrite Z.eqb_refl. split; [reflexivity | exact Hin].
        * simpl. apply String.eqb_refl.
      + intros y Hy. apply filter_In in Hy. destruct Hy as [Hy Hcarries].
        apply in_map_iff in Hy. destruct Hy as (x & <- & Hx).
        destruct (NoteRow.id x =? NoteRow.id r) eqn:E.
        * apply Z.eqb_eq in E.
          rewrite (NoDup_map_eq NoteRow.id _ _ _ Hnd Hx Hin E). reflexivity.
        * destruct (NoteRow.server_id x) as [sid|] eqn:Es; [|discriminate].
          simpl in Hcarries. apply String.eqb_eq in Hcarries. subst sid.
          rewrite (Honly x Hx Es), Z.eqb_refl in E. discriminate.
    - cbn [wire.note server.note_response api.nr_UpdatedAt server.nr_UpdatedAt].
      rewrite Hupd, Unix_time_Unix. simpl. apply time_Unix_floor. }
  split.
  - rewrite Hd. unfold DB.SetNoteSynced. rewrite find_note_set.
    + rewrite (find_note_of_In _ _ Hnd Hin). simpl. rewrite Z.eqb_refl. reflexivity.
    + intros x. destruct (NoteRow.id x =? NoteRow.id r); reflexivity.
  - rewrite Hacc. cbn [fst]. destruct Hown as [Hnew | (old & Hold)].
    + eexists. split; [apply UpsertNote_inserts; exact Hnew|].
      cbn [ServerNote.Title ServerNote.Content ServerNote.Tags
           ServerNote.ParentFolderID ServerNote.UpdatedAt].
      repeat split. apply Hback; reflexivity.
    + eexists. split; [apply UpsertNote_updates; exact Hold|].
      cbn [ServerNote.Title ServerNote.Content ServerNote.Tags
           ServerNote.ParentFolderID ServerNote.UpdatedAt].
      repeat split. apply Hback; [|reflexivity].
      unfold ServerDB.GetNote in Hold. apply find_some in Hold.
      destruct Hold as [_ Hp]. apply andb_true_iff in Hp. destruct Hp as [Hid _].
      apply String.eqb_eq in Hid. exact Hid.
Qed.

End UploadAndFetch.

Lemma uploaded_note_comes_back_unchanged_witness :
  DB.find_note
    (api.database
       (api.upload_note (served_by (time_Unix 5000) "u-1" ServerDB.empty 2)
          (api.begin sample.pending_db) (DB.scan_note_lax sample.note_pending)))
    1
  = Some (synced_as "u-1" sample.note_pending).
Proof.
  apply (uploaded_note_comes_back_unchanged
           (served_by (time_Unix 5000) "u-1" ServerDB.empty 2)
           (time_Unix 5000) (time_Unix 5000) "u-1" ServerDB.empty 2
           (api.begin sample.pending_db) sample.note_pending).
  - simpl. constructor; [intros [] | constructor].
  - left. reflexivity.
  - reflexivity.
  - discriminate.
  - reflexivity.
  - intros x [<- | []] _. reflexivity.
  - left. reflexivity.
  - reflexivity.
Defined.

Section DeleteAndPurge.
Context {codec : JSON}.

(** X20.  A deletion reaches the server and the local row goes.  For a
    soft-deleted local note that carries a server id, with the client's
    reply being what [deleteNoteHandler] answers: the handler never
    refuses, so the step adds no error, counts one deletion and purges the
    local row; afterwards the server holds no note of that id for the
    user.  This is so also when the server had no such note to delete, its
    store then being left as it was. *)
Theorem deleted_note_is_purged_at_both_ends (client : api.Client)
    (s : ServerDB.t) (user : Z) (st : api.state) (r : NoteRow.t)
    (serverID : string) :
  let n := DB.scan_note_lax r in
  let answer := server.deleteNoteHandler s user serverID in
  NoDup (map NoteRow.id (DB.notes (api.database st))) ->
  In r (DB.notes (api.database st)) ->
  NoteRow.deleted r = true ->
  NoteRow.server_id r = Some serverID ->
  serverID <> "" ->
  api.DeleteNote client (api.log st) serverID = wire.empty_reply (snd answer) ->
  let st' := api.upload_note client st n in
  DB.find_note (api.database st') (NoteRow.id r) = None
  /\ (forall x, x <> NoteRow.id r ->
                DB.find_note (api.database st') x = DB.find_note (api.database st) x)
  /\ api.Errors (api.result st') = api.Errors (api.result st)
  /\ api.Deleted (api.result st') = api.Deleted (api.result st) + 1
  /\ ServerDB.GetNote (fst answer) serverID user = None
  /\ (ServerDB.GetNote s serverID user = None -> fst answer = s).
Proof.
  intros n answer Hnd Hin Hdel Hsid Hne Hreply st'.
  assert (Hst : st' = api.mkState
                        (DB.PermanentlyDeleteSynced (api.database st) (NoteRow.id r))
                        (api.log st
                         ++ [api.mkEvent (Some (NoteRow.id r))
                                         (api.CallDeleteNote serverID) false])
                        (api.incr_Deleted (api.result st))).
  { unfold st', api.upload_note.
    change (Note.Deleted n) with (NoteRow.deleted r).
    change (Note.ServerID n) with (DB.string_or_empty (NoteRow.server_id r)).
    rewrite Hdel, Hsid. cbn [DB.string_or_empty].
    destruct (String.eqb_spec serverID ""); [contradiction|]. cbn [negb].
    rewrite Hreply. reflexivity. }
  rewrite Hst. cbn [api.database api.result api.incr_Deleted api.Errors api.Deleted].
  split.
  { apply PermanentlyDeleteSynced_removes. intros x Hx Hid.
    rewrite (NoDup_map_eq NoteRow.id _ _ _ Hnd Hx Hin Hid). exact Hdel. }
  split.
  { intros x Hx. apply PermanentlyDeleteSynced_other. exact Hx. }
  split; [reflexivity|]. split; [reflexivity|].
  split.
  { unfold answer, server.deleteNoteHandler. cbn [fst].
    unfold ServerDB.GetNote, ServerDB.DeleteNote. cbn [ServerDB.notes].
    destruct (find _ (filter _ (ServerDB.notes s))) as [m|] eqn:E; [|reflexivity].
    apply find_some in E. destruct E as [Hm Hp]. apply filter_In in Hm.
    destruct Hm as [_ Hkeep]. rewrite Hp in Hkeep. discriminate. }
  intros Hmiss. unfold answer, server.deleteNoteHandler, ServerDB.DeleteNote.
  cbn [fst]. rewrite filter_all; [destruct s; reflexivity|].
  intros m Hm. apply (find_none _ _ Hmiss) in Hm. simpl in Hm.
  rewrite Hm. reflexivity.
Qed.

End DeleteAndPurge.

Lemma deleted_note_is_purged_at_both_ends_witness :
  DB.find_note
    (api.database
       (api.upload_note (served_by (time_Unix 5000) "u-1" remote_sample.store 2)
          (api.begin sample.deleted_db)
          (DB.scan_note_lax sample.note_deleted_synced)))
    2
  = None.
Proof.
  apply (deleted_note_is_purged_at_both_ends
           (served_by (time_Unix 5000) "u-1" remote_sample.store 2)
           remote_sample.store 2 (api.begin sample.deleted_db)
           sample.note_deleted_synced "srv-2").
  - simpl. repeat constructor; simpl; intuition discriminate.
  - right. left. reflexivity.
  - reflexivity.
  - reflexivity.
  - discriminate.
  - reflexivity.
Defined.

(** ** The rate limiter *)

Lemma Allow_keeps_settings (now : Time) (rl : RateLimiter.t) (ip : string) :
  RateLimiter.limit (fst (RateLimiter.Allow now rl ip)) = RateLimiter.limit rl
  /\ RateLimiter.window (fst (RateLimiter.Allow now rl ip)) = RateLimiter.window rl.
Proof.
  unfold RateLimiter.Allow.
  destruct (RateLimiter.requests rl ip) as [req|]; [|split; reflexivity].
  destruct (After now (RateLimiter.windowEnd req)); [split; reflexivity|].
  destruct (RateLimiter.limit rl <=? RateLimiter.count req); split; reflexivity.
Qed.

Lemma Allow_other (now : Time) (rl : RateLimiter.t) (ip k : string) :
  k <> ip ->
  RateLimiter.requests (fst (RateLimiter.Allow now rl ip)) k
  = RateLimiter.requests rl k.
Proof.
  intros Hneq. unfold RateLimiter.Allow.
  assert (Hk : String.eqb k ip = false) by (apply String.eqb_neq; exact Hneq).
  destruct (RateLimiter.requests rl ip) as [req|]; simpl.
  - destruct (After now (RateLimiter.windowEnd req)); simpl;
      [rewrite Hk; reflexivity|].
    destruct (RateLimiter.limit rl <=? RateLimiter.count req); simpl;
      [reflexivity | rewrite Hk; reflexivity].
  - rewrite Hk. reflexivity.
Qed.

Lemma run_cons (rl : RateLimiter.t) (now : Time) (ip : string)
    (reqs : list (Time * string)) :
  snd (RateLimiter.run rl ((now, ip) :: reqs))
  = snd (RateLimiter.Allow now rl ip)
    :: snd (RateLimiter.run (fst (RateLimiter.Allow now rl ip)) reqs).
Proof.
  cbn [RateLimiter.run]. destruct (RateLimiter.Allow now rl ip) as [rl' ok].
  cbn [fst snd]. destruct (RateLimiter.run rl' reqs) as [rl'' oks]. reflexivity.
Qed.

Lemma allowed_cons (ip k : string) (now : Time) (ok : bool)
    (reqs : list (Time * string)) (oks : list bool) :
  RateLimiter.allowed ip ((now, k) :: reqs) (ok :: oks)
  = ((if String.eqb k ip && ok then 1 else 0) + RateLimiter.allowed ip reqs oks)%nat.
Proof.
  unfold RateLimiter.allowed. simpl.
  destruct (String.eqb k ip && ok); reflexivity.
Qed.

Lemma from_cons (ip k : string) (now : Time) (reqs : list (Time * string)) :
  RateLimiter.from ip ((now, k) :: reqs)
  = ((if String.eqb k ip then 1 else 0) + RateLimiter.from ip reqs)%nat.
Proof.
  unfold RateLimiter.from. simpl. destruct (String.eqb k ip); reflexivity.
Qed.

(** While the window of [ip] is open, its requests pass until the count
    reaches the limit. *)
Lemma run_in_open_window (reqs : list (Time * string)) (rl : RateLimiter.t)
    (ip : string) (req : RateLimiter.clientRequests) :
  RateLimiter.requests rl ip = Some req ->
  (forall t k, In (t, k) reqs -> t <= RateLimiter.windowEnd req) ->
  RateLimiter.allowed ip reqs (snd (RateLimiter.run rl reqs))
  = Nat.min (RateLimiter.from ip reqs)
            (Z.to_nat (RateLimiter.limit rl - RateLimiter.count req)).
Proof.
  revert rl req. induction reqs as [|[now k] reqs IH]; intros rl req Hreq Hin.
  - reflexivity.
  - rewrite run_cons, allowed_cons, from_cons.
    assert (Hnow : now <= RateLimiter.windowEnd req)
      by (apply (Hin now k); left; reflexivity).
    assert (Hrest : forall t k', In (t, k') reqs -> t <= RateLimiter.windowEnd req)
      by (intros t k' H; apply (Hin t k'); right; exact H).
    destruct (String.eqb_spec k ip) as [-> | Hneq].
    + unfold RateLimiter.Allow. rewrite Hreq. unfold After.
      destruct (Z.ltb_spec (RateLimiter.windowEnd req) now) as [|_]; [lia|].
      destruct (Z.leb_spec (RateLimiter.limit rl) (RateLimiter.count req)).
      * cbn [fst snd andb]. rewrite (IH rl req Hreq Hrest).
        replace (Z.to_nat (RateLimiter.limit rl - RateLimiter.count req))
          with 0%nat by lia.
        rewrite !Nat.min_0_r. reflexivity.
      * cbn [fst snd andb].
        rewrite (IH _ (RateLimiter.mkClientRequests (RateLimiter.count req + 1)
                         (RateLimiter.windowEnd req))).
        -- cbn [RateLimiter.set_entry RateLimiter.limit RateLimiter.count]. lia.
        -- cbn [RateLimiter.set_entry RateLimiter.requests].
           rewrite String.eqb_refl. reflexivity.
        -- exact Hrest.
    + cbn [andb]. simpl Nat.add.
      destruct (Allow_keeps_settings now rl k) as [Hl _].
      rewrite (IH (fst (RateLimiter.Allow now rl k)) req).
      * rewrite Hl. reflexivity.
      * rewrite Allow_other by congruence. exact Hreq.
      * exact Hrest.
Qed.

Lemma run_before_first (reqs : list (Time * string)) (rl : RateLimiter.t)
    (ip : string) (t0 : Time) :
  RateLimiter.requests rl ip = None ->
  (forall t k, In (t, k) reqs -> t0 <= t <= t0 + RateLimiter.window rl) ->
  RateLimiter.allowed ip reqs (snd (RateLimiter.run rl reqs))
  = Nat.min (RateLimiter.from ip reqs)
            (Z.to_nat (Z.max (RateLimiter.limit rl) 1)).
Proof.
  revert rl. induction reqs as [|[now k] reqs IH]; intros rl Hnone Hin.
  - reflexivity.
  - rewrite run_cons, allowed_cons, from_cons.
    assert (Hnow : t0 <= now <= t0 + RateLimiter.window rl)
      by (apply (Hin now k); left; reflexivity).
    destruct (Allow_keeps_settings now rl k) as [Hl Hw].
    destruct (String.eqb_spec k ip) as [-> | Hneq].
    + unfold RateLimiter.Allow. rewrite Hnone. cbn [fst snd andb].
      rewrite (run_in_open_window reqs _ ip
                 (RateLimiter.mkClientRequests 1 (now + RateLimiter.window rl))).
      * cbn [RateLimiter.set_entry RateLimiter.limit RateLimiter.count]. lia.
      * cbn [RateLimiter.set_entry RateLimiter.requests].
        rewrite String.eqb_refl. reflexivity.
      * intros t k' H. cbn [RateLimiter.windowEnd].
        assert (t0 <= t <= t0 + RateLimiter.window rl)
          by (apply (Hin t k'); right; exact H).
        lia.
    + cbn [andb]. simpl Nat.add.
      rewrite (IH (fst (RateLimiter.Allow now rl k))).
      * rewrite Hl. reflexivity.
      * rewrite Allow_other by congruence. exact Hnone.
      * intros t k' H. rewrite Hw. apply (Hin t k'). right. exact H.
Qed.

Lemma run_distinct_keys (reqs : list (Time * string)) (rl : RateLimiter.t) :
  NoDup (map snd reqs) ->
  (forall k, In k (map snd reqs) -> RateLimiter.requests rl k = None) ->
  snd (RateLimiter.run rl reqs) = map (fun _ => true) reqs.
Proof.
  revert rl. induction reqs as [|[now k] reqs IH]; intros rl Hnd Hnone.
  - reflexivity.
  - rewrite run_cons. simpl in Hnd. inversion Hnd as [|? ? Hnotin Hnd']; subst.
    simpl map. f_equal.
    + unfold RateLimiter.Allow. rewrite (Hnone k) by (left; reflexivity).
      reflexivity.
    + apply IH; [exact Hnd'|]. intros k' Hk'.
      rewrite Allow_other.
      * apply Hnone. right. exact Hk'.
      * intros ->. contradiction.
Qed.

(** X21.  A burst in one window.  From a limiter that holds no entry for
    a key, over any requests interleaved in any order with those of other
    keys and all made within one window's length of some instant, the
    number of requests of the key that are allowed is the smaller of their
    number and [limit]; the first request of a key is always allowed, so a
    limit of zero or below still lets one through.  The key is what
    [getClientIP] returns, the [X-Forwarded-For] header when the request
    carries one: requests whose headers are pairwise distinct and new to
    the limiter are all allowed, whatever peer address they come from. *)
Theorem burst_is_cut_at_the_limit (rl : RateLimiter.t)
    (reqs : list (Time * string)) (ip : string) (t0 : Time) :
  RateLimiter.requests rl ip = None ->
  (forall t k, In (t, k) reqs -> t0 <= t <= t0 + RateLimiter.window rl) ->
  RateLimiter.allowed ip reqs (snd (RateLimiter.run rl reqs))
  = Nat.min (RateLimiter.from ip reqs) (Z.to_nat (Z.max (RateLimiter.limit rl) 1))
  /\ forall rs : list (Time * RateLimiter.Request),
       let keyed := map (fun x => (fst x, RateLimiter.getClientIP (snd x))) rs in
       (forall x, In x rs -> RateLimiter.X_Forwarded_For (snd x) <> "") ->
       NoDup (map (fun x => RateLimiter.X_Forwarded_For (snd x)) rs) ->
       (forall x, In x rs ->
                  RateLimiter.requests rl (RateLimiter.X_Forwarded_For (snd x))
                  = None) ->
       snd (RateLimiter.run rl keyed) = map (fun _ => true) rs.
Proof.
  intros Hnone Hin. split; [apply (run_before_first reqs rl ip t0); assumption|].
  intros rs keyed Hxff Hnd Hnew.
  assert (Hkeys : map snd keyed
                  = map (fun x => RateLimiter.X_Forwarded_For (snd x)) rs).
  { unfold keyed. rewrite map_map. apply map_ext_in. intros x Hx. simpl.
    unfold RateLimiter.getClientIP.
    destruct (String.eqb_spec (RateLimiter.X_Forwarded_For (snd x)) "") as [E|E];
      [elim (Hxff x Hx E) | reflexivity]. }
  rewrite run_distinct_keys.
  - unfold keyed. rewrite map_map. reflexivity.
  - rewrite Hkeys. exact Hnd.
  - intros k Hk. rewrite Hkeys in Hk. apply in_map_iff in Hk.
    destruct Hk as (x & <- & Hx). apply Hnew. exact Hx.
Qed.

Lemma burst_is_cut_at_the_limit_witness :
  RateLimiter.allowed "10.0.0.1"
    [(0, "10.0.0.1"); (1, "10.0.0.2"); (2, "10.0.0.1"); (3, "10.0.0.1");
     (4, "10.0.0.1"); (5, "10.0.0.1"); (6, "10.0.0.1"); (7, "10.0.0.1")]
    (snd (RateLimiter.run RateLimiter.NewAuthRateLimiter
            [(0, "10.0.0.1"); (1, "10.0.0.2"); (2, "10.0.0.1"); (3, "10.0.0.1");
             (4, "10.0.0.1"); (5, "10.0.0.1"); (6, "10.0.0.1"); (7, "10.0.0.1")]))
  = 5%nat.
Proof.
  destruct (burst_is_cut_at_the_limit RateLimiter.NewAuthRateLimiter
              [(0, "10.0.0.1"); (1, "10.0.0.2"); (2, "10.0.0.1"); (3, "10.0.0.1");
               (4, "10.0.0.1"); (5, "10.0.0.1"); (6, "10.0.0.1"); (7, "10.0.0.1")]
              "10.0.0.1" 0) as [H _].
  - reflexivity.
  - intros t k Hin. simpl in Hin.
    repeat (destruct Hin as [Hin | Hin]; [injection Hin as <- <-; simpl; lia|]).
    contradiction.
  - rewrite H. reflexivity.
Defined.

(** What a cleanup may have removed by the instant [tc]. *)
Lemma cleanup_spec (tc : Time) (rl : RateLimiter.t) (k : string) :
  RateLimiter.requests (RateLimiter.cleanup tc rl) k = RateLimiter.requests rl k
  \/ (RateLimiter.requests (RateLimiter.cleanup tc rl) k = None
      /\ exists req, RateLimiter.requests rl k = Some req
                     /\ RateLimiter.windowEnd req < tc).
Proof.
  unfold RateLimiter.cleanup. simpl.
  destruct (RateLimiter.requests rl k) as [req|]; [|left; reflexivity].
  unfold After. destruct (Z.ltb_spec (RateLimiter.windowEnd req) tc).
  - right. split; [reflexivity|]. exists req. split; [reflexivity | assumption].
  - left. reflexivity.
Qed.

Lemma Allow_after_cleanup (tc now : Time) (rl1 rl2 : RateLimiter.t) (ip : string) :
  RateLimiter.limit rl2 = RateLimiter.limit rl1 ->
  RateLimiter.window rl2 = RateLimiter.window rl1 ->
  (forall k, RateLimiter.requests rl2 k = RateLimiter.requests rl1 k
             \/ (RateLimiter.requests rl2 k = None
                 /\ exists req, RateLimiter.requests rl1 k = Some req
                                /\ RateLimiter.windowEnd req < tc)) ->
  tc <= now ->
  snd (RateLimiter.Allow now rl2 ip) = snd (RateLimiter.Allow now rl1 ip)
  /\ forall k,
       RateLimiter.requests (fst (RateLimiter.Allow now rl2 ip)) k
       = RateLimiter.requests (fst (RateLimiter.Allow now rl1 ip)) k
       \/ (RateLimiter.requests (fst (RateLimiter.Allow now rl2 ip)) k = None
           /\ exists req,
                RateLimiter.requests (fst (RateLimiter.Allow now rl1 ip)) k
                = Some req
                /\ RateLimiter.windowEnd req < tc).
Proof.
  intros Hl Hw Hrel Htc.
  assert (Hother : forall k, k <> ip ->
            RateLimiter.requests (fst (RateLimiter.Allow now rl2 ip)) k
            = RateLimiter.requests (fst (RateLimiter.Allow now rl1 ip)) k
            \/ (RateLimiter.requests (fst (RateLimiter.Allow now rl2 ip)) k = None
                /\ exists req,
                     RateLimiter.requests (fst (RateLimiter.Allow now rl1 ip)) k
                     = Some req
                     /\ RateLimiter.windowEnd req < tc)).
  { intros k Hk. rewrite !Allow_other by exact Hk. apply Hrel. }
  assert (Hip : snd (RateLimiter.Allow now rl2 ip) = snd (RateLimiter.Allow now rl1 ip)
                /\ RateLimiter.requests (fst (RateLimiter.Allow now rl2 ip)) ip
                   = RateLimiter.requests (fst (RateLimiter.Allow now rl1 ip)) ip).
  { unfold RateLimiter.Allow. rewrite Hl, Hw.
    destruct (Hrel ip) as [E | (E & req & E1 & Hexp)].
    - rewrite E. destruct (RateLimiter.requests rl1 ip) as [req|] eqn:E1; simpl.
      + destruct (After now (RateLimiter.windowEnd req)); simpl.
        * rewrite String.eqb_refl. split; reflexivity.
        * destruct (RateLimiter.limit rl1 <=? RateLimiter.count req); simpl.
          -- split; [reflexivity | congruence].
          -- rewrite String.eqb_refl. split; reflexivity.
      + rewrite String.eqb_refl. split; reflexivity.
    - rewrite E, E1. unfold After.
      destruct (Z.ltb_spec (RateLimiter.windowEnd req) now); [|lia].
      simpl. rewrite String.eqb_refl. split; reflexivity. }
  split; [apply Hip|].
  intros k. destruct (String.eqb_spec k ip) as [-> | Hk];
    [left; apply Hip | apply Hother; exact Hk].
Qed.

(** X22.  The cleanup is not observable.  Removing, at an instant, the
    entries whose window has ended changes no later answer: whatever
    requests follow, made at that instant or later, the limiter answers
    each of them as it would have answered without the cleanup. *)
Theorem cleanup_changes_no_answer (tc : Time) (rl : RateLimiter.t)
    (reqs : list (Time * string)) :
  (forall t k, In (t, k) reqs -> tc <= t) ->
  snd (RateLimiter.run (RateLimiter.cleanup tc rl) reqs)
  = snd (RateLimiter.run rl reqs).
Proof.
  assert (Hgen : forall rl1 rl2,
            RateLimiter.limit rl2 = RateLimiter.limit rl1 ->
            RateLimiter.window rl2 = RateLimiter.window rl1 ->
            (forall k, RateLimiter.requests rl2 k = RateLimiter.requests rl1 k
                       \/ (RateLimiter.requests rl2 k = None
                           /\ exists req, RateLimiter.requests rl1 k = Some req
                                          /\ RateLimiter.windowEnd req < tc)) ->
            (forall t k, In (t, k) reqs -> tc <= t) ->
            snd (RateLimiter.run rl2 reqs) = snd (RateLimiter.run rl1 reqs)).
  { induction reqs as [|[now ip] reqs IH]; intros rl1 rl2 Hl Hw Hrel Hin.
    - reflexivity.
    - rewrite !run_cons.
      assert (Htc : tc <= now) by (apply (Hin now ip); left; reflexivity).
      destruct (Allow_after_cleanup tc now rl1 rl2 ip Hl Hw Hrel Htc) as [Hok Hrel'].
      destruct (Allow_keeps_settings now rl1 ip) as [Hl1 Hw1].
      destruct (Allow_keeps_settings now rl2 ip) as [Hl2 Hw2].
      rewrite Hok. f_equal. apply IH; try congruence; [exact Hrel'|].
      intros t k H. apply (Hin t k). right. exact H. }
  intros Hin. apply Hgen; try reflexivity; [|exact Hin].
  intros k. apply cleanup_spec.
Qed.

Lemma cleanup_changes_no_answer_witness :
  snd (RateLimiter.run
         (RateLimiter.cleanup 70000000000
            (fst (RateLimiter.run RateLimiter.NewAuthRateLimiter
                    [(0, "10.0.0.1"); (1, "10.0.0.2")])))
         [(70000000000, "10.0.0.1"); (70000000001, "10.0.0.1")])
  = snd (RateLimiter.run
           (fst (RateLimiter.run RateLimiter.NewAuthRateLimiter
                   [(0, "10.0.0.1"); (1, "10.0.0.2")]))
           [(70000000000, "10.0.0.1"); (70000000001, "10.0.0.1")]).
Proof.
  apply cleanup_changes_no_answer.
  intros t k [H | [H | []]]; injection H as <- <-; lia.
Defined.

(** ** Helpers of the view *)

Lemma string_length_app (s t : string) :
  String.length (s ++ t) = (String.length s + String.length t)%nat.
Proof.
  induction s as [|c s IH]; simpl; [reflexivity | rewrite IH; reflexivity].
Qed.

Lemma slice_to_spec (s : string) (n : Z) :
  0 <= n <= Z.of_nat (String.length s) ->
  exists p rest,
    ui.slice_to s n = Some p
    /\ Z.of_nat (String.length p) = n
    /\ s = (p ++ rest)%string.
Proof.
  intros H. unfold ui.slice_to.
  destruct (Z.leb_spec 0 n); [|lia].
  destruct (Z.leb_spec n (Z.of_nat (String.length s))); [|lia].
  destruct (substring_prefix (Z.to_nat n) s) as [Hl [rest Hr]]; [lia|].
  exists (substring 0 (Z.to_nat n) s), rest. simpl.
  split; [reflexivity|]. split; [lia | exact Hr].
Qed.

(** X23.  [truncate] cuts to the bound or has no result.  For a bound of
    zero or more it returns a text of exactly the smaller of the text's
    length and the bound, in bytes: the text itself when it fits; its
    first [max] bytes when the bound is at most 3; otherwise its first
    [max - 3] bytes followed by three dots.  For a negative bound, and
    only then, the slice is out of range and Go panics, whatever the text.
    The bound [renderList] uses, a quarter of the terminal width less 10,
    is negative exactly for widths under 40. *)
Theorem truncate_cuts_or_panics (s : string) (max : Z) :
  (ui.truncate s max = None <-> max < 0)
  /\ (0 <= max ->
      exists t,
        ui.truncate s max = Some t
        /\ Z.of_nat (String.length t) = Z.min (Z.of_nat (String.length s)) max
        /\ (Z.of_nat (String.length s) <= max -> t = s)
        /\ (max < Z.of_nat (String.length s) -> max <= 3 ->
            exists rest, s = (t ++ rest)%string)
        /\ (max < Z.of_nat (String.length s) -> 3 < max ->
            exists p rest,
              t = (p ++ "...")%string /\ s = (p ++ rest)%string
              /\ Z.of_nat (String.length p) = max - 3))
  /\ (forall width,
        0 <= width -> (ui.truncate s (ui.maxLen width) = None <-> width < 40)).
Proof.
  assert (Hok : 0 <= max ->
      exists t,
        ui.truncate s max = Some t
        /\ Z.of_nat (String.length t) = Z.min (Z.of_nat (String.length s)) max
        /\ (Z.of_nat (String.length s) <= max -> t = s)
        /\ (max < Z.of_nat (String.length s) -> max <= 3 ->
            exists rest, s = (t ++ rest)%string)
        /\ (max < Z.of_nat (String.length s) -> 3 < max ->
            exists p rest,
              t = (p ++ "...")%string /\ s = (p ++ rest)%string
              /\ Z.of_nat (String.length p) = max - 3)).
  { intros Hmax. unfold ui.truncate.
    destruct (Z.leb_spec (Z.of_nat (String.length s)) max) as [Hfit | Hcut].
    - exists s. split; [reflexivity|]. split; [lia|].
      split; [reflexivity|]. split; intros; lia.
    - destruct (Z.leb_spec max 3) as [Hsmall | Hbig].
      + destruct (slice_to_spec s max) as (p & rest & Hp & Hl & Hs); [lia|].
        exists p. split; [exact Hp|]. split; [lia|].
        split; [lia|]. split; [intros _ _; exists rest; exact Hs | lia].
      + destruct (slice_to_spec s (max - 3)) as (p & rest & Hp & Hl & Hs); [lia|].
        exists (p ++ "...")%string. rewrite Hp. split; [reflexivity|].
        split; [rewrite string_length_app; simpl; lia|].
        split; [lia|]. split; [lia|].
        intros _ _. exists p, rest. repeat split; assumption. }
  assert (Hpanic : ui.truncate s max = None <-> max < 0).
  { split.
    - intros Hnone. destruct (Z.lt_ge_cases max 0) as [H | H]; [exact H|].
      destruct (Hok H) as (t & Ht & _). congruence.
    - intros Hneg. unfold ui.truncate, ui.slice_to.
      destruct (Z.leb_spec (Z.of_nat (String.length s)) max); [lia|].
      destruct (Z.leb_spec max 3); [|lia].
      destruct (Z.leb_spec 0 max); [lia | reflexivity]. }
  split; [exact Hpanic|]. split; [exact Hok|].
  intros width Hw.
  assert (Hbound : ui.maxLen width < 0 <-> width < 40).
  { unfold ui.maxLen, ui.listWidth. rewrite Z.quot_div_nonneg by lia.
    pose proof (Z.div_mod width 4). pose proof (Z.mod_pos_bound width 4). lia. }
  clear Hok Hpanic.
  assert (Hgen : forall m, ui.truncate s m = None <-> m < 0).
  { intros m. split.
    - intros Hnone. destruct (Z.lt_ge_cases m 0) as [H | H]; [exact H|].
      exfalso. unfold ui.truncate, ui.slice_to in Hnone.
      destruct (Z.leb_spec (Z.of_nat (String.length s)) m); [discriminate|].
      destruct (Z.leb_spec m 3).
      + destruct (Z.leb_spec 0 m); [|lia].
        destruct (Z.leb_spec m (Z.of_nat (String.length s))); [|lia].
        discriminate.
      + destruct (Z.leb_spec 0 (m - 3)); [|lia].
        destruct (Z.leb_spec (m - 3) (Z.of_nat (String.length s))); [|lia].
        discriminate.
    - intros Hneg. unfold ui.truncate, ui.slice_to.
      destruct (Z.leb_spec (Z.of_nat (String.length s)) m); [lia|].
      destruct (Z.leb_spec m 3); [|lia].
      destruct (Z.leb_spec 0 m); [lia | reflexivity]. }
  rewrite Hgen. exact Hbound.
Qed.

Lemma pow1000_succ (j : nat) :
  1000 ^ Z.of_nat (S j) = 1000 * 1000 ^ Z.of_nat j.
Proof. rewrite Nat2Z.inj_succ, Z.pow_succ_r by lia. reflexivity. Qed.

Lemma pow1000_pos (j : nat) : 0 < 1000 ^ Z.of_nat j.
Proof. apply Z.pow_pos_nonneg; lia. Qed.

Lemma scale_rounds (j : nat) :
  forall (fuel : nat) (n div exp : Z),
    (j <= fuel)%nat ->
    0 <= n < 1000 * 1000 ^ Z.of_nat j ->
    (j <> 0%nat -> 1000 ^ Z.of_nat j <= n) ->
    0 < div -> div * 1000 ^ Z.of_nat j < 2 ^ 63 ->
    0 <= exp -> exp + Z.of_nat j < 2 ^ 63 ->
    ui.scale fuel n div exp = Some (div * 1000 ^ Z.of_nat j, exp + Z.of_nat j).
Proof.
  induction j as [|j IH]; intros fuel n div exp Hfuel Hn Hlow Hdiv Hdmax Hexp Hemax.
  - change (1000 ^ Z.of_nat 0) with 1 in *.
    assert (Htest : (1000 <=? n) = false) by (apply Z.leb_gt; lia).
    destruct fuel; simpl; rewrite Htest; f_equal; f_equal; lia.
  - rewrite pow1000_succ in *. pose proof (pow1000_pos j) as Hp.
    assert (Hbig : 1000 * 1000 ^ Z.of_nat j <= n) by (apply Hlow; discriminate).
    assert (Htest : (1000 <=? n) = true) by (apply Z.leb_le; lia).
    destruct fuel as [|fuel]; [lia|]. cbn [ui.scale]. rewrite Htest.
    rewrite !wrap64_small by nia.
    rewrite Z.quot_div_nonneg by lia.
    rewrite IH; try lia.
    + rewrite Nat2Z.inj_succ. f_equal. f_equal; [ring | lia].
    + split; [apply Z.div_pos; lia|].
      apply Z.div_lt_upper_bound; lia.
    + intros _. apply Z.div_le_lower_bound; lia.
Qed.

Lemma formatBytes_at (j : nat) (b : Z) (unit : ascii) :
  (j <= 5)%nat ->
  String.get j "KMGTPE" = Some unit ->
  1000 * 1000 ^ Z.of_nat j <= b < 1000 * (1000 * 1000 ^ Z.of_nat j) ->
  b < 2 ^ 63 ->
  ui.formatBytes b = Some (ui.Scaled b (1000 * 1000 ^ Z.of_nat j) unit).
Proof.
  intros Hj Hunit Hb Hmax. pose proof (pow1000_pos j) as Hp.
  unfold ui.formatBytes.
  assert (Htest : (b <? 1000) = false) by (apply Z.ltb_ge; lia).
  rewrite Htest. rewrite Z.quot_div_nonneg by lia.
  rewrite (scale_rounds j); try lia.
  - unfold ui.unit_letter.
    assert (Hneg : (0 + Z.of_nat j <? 0) = false) by (apply Z.ltb_ge; lia).
    rewrite Hneg. replace (Z.to_nat (0 + Z.of_nat j)) with j by lia.
    rewrite Hunit. reflexivity.
  - split; [apply Z.div_pos; lia|]. apply Z.div_lt_upper_bound; lia.
  - intros _. apply Z.div_le_lower_bound; lia.
Qed.

(** X24.  [formatBytes] on any [int64].  Below 1000, negative values
    included, the value is printed as it is.  From 1000 on, the loop ends
    after at most five rounds without overflow and leaves [div] the power
    of 1000 with [div <= b < 1000 * div], so the quotient printed is at
    least 1 and below 1000, and the index into ["KMGTPE"] is in range: K
    for thousands up to E for 10^18.  The function never panics. *)
Theorem formatBytes_scales_within_range (b : Z) :
  - 2 ^ 63 <= b < 2 ^ 63 ->
  (b < 1000 -> ui.formatBytes b = Some (ui.Plain b))
  /\ (1000 <= b ->
      exists k unit,
        (k <= 5)%nat
        /\ String.get k "KMGTPE" = Some unit
        /\ ui.formatBytes b = Some (ui.Scaled b (1000 ^ Z.of_nat (S k)) unit)
        /\ 1000 ^ Z.of_nat (S k) <= b < 1000 * 1000 ^ Z.of_nat (S k)).
Proof.
  intros Hb. split.
  - intros Hsmall. unfold ui.formatBytes.
    assert (Htest : (b <? 1000) = true) by (apply Z.ltb_lt; lia).
    rewrite Htest. reflexivity.
  - intros Hbig.
    assert (Hcase : exists k, (k <= 5)%nat
                              /\ 1000 * 1000 ^ Z.of_nat k <= b
                                 < 1000 * (1000 * 1000 ^ Z.of_nat k)).
    { destruct (Z.lt_ge_cases b (1000 ^ 2)); [exists 0%nat; simpl; lia|].
      destruct (Z.lt_ge_cases b (1000 ^ 3)); [exists 1%nat; simpl; lia|].
      destruct (Z.lt_ge_cases b (1000 ^ 4)); [exists 2%nat; simpl; lia|].
      destruct (Z.lt_ge_cases b (1000 ^ 5)); [exists 3%nat; simpl; lia|].
      destruct (Z.lt_ge_cases b (1000 ^ 6)); [exists 4%nat; simpl; lia|].
      exists 5%nat. simpl. lia. }
    destruct Hcase as (k & Hk & Hrange).
    assert (Hunit : exists unit, String.get k "KMGTPE" = Some unit).
    { do 6 (destruct k as [|k]; [eexists; reflexivity|]). lia. }
    destruct Hunit as (unit & Hunit).
    exists k, unit. rewrite pow1000_succ.
    split; [exact Hk|]. split; [exact Hunit|].
    split; [apply formatBytes_at; (assumption || lia) | exact Hrange].
Qed.

Lemma formatBytes_scales_within_range_witness :
  (1500000 < 1000 -> ui.formatBytes 1500000 = Some (ui.Plain 1500000))
  /\ (1000 <= 1500000 ->
      exists k unit,
        (k <= 5)%nat
        /\ String.get k "KMGTPE" = Some unit
        /\ ui.formatBytes 1500000
           = Some (ui.Scaled 1500000 (1000 ^ Z.of_nat (S k)) unit)
        /\ 1000 ^ Z.of_nat (S k) <= 1500000 < 1000 * 1000 ^ Z.of_nat (S k)).
Proof.
  apply formatBytes_scales_within_range. lia.
Defined.

(** ** Accounts *)

Section Accounts.
Variable compare : string -> string -> bool.
Variable jwt_Generate : Z -> string -> error + (string * Time).

Lemma GetUserByUsername_none (d : accounts.t) (username : string) :
  accounts.GetUserByUsername d username = None ->
  existsb (fun u => String.eqb (User.Username u) username) (accounts.users d)
  = false
  /\ ~ In username (map User.Username (accounts.users d)).
Proof.
  intros H. unfold accounts.GetUserByUsername in H. split.
  - destruct (existsb _ (accounts.users d)) eqn:E; [|reflexivity].
    apply existsb_exists in E. destruct E as (u & Hin & Hu).
    apply (find_none _ _ H) in Hin. congruence.
  - intros Hin. apply in_map_iff in Hin. destruct Hin as (u & Hu & Hin).
    apply (find_none _ _ H) in Hin. simpl in Hin.
    rewrite Hu, String.eqb_refl in Hin. discriminate.
Qed.

(** What an accepted registration does. *)
Lemma registerHandler_accepts (now : Time) (hash : string) (d : accounts.t)
    (req : accounts.LoginRequest) :
  accounts.req_Username req <> "" ->
  accounts.req_Password req <> "" ->
  8 <= Z.of_nat (String.length (accounts.req_Password req)) ->
  accounts.GetUserByUsername d (accounts.req_Username req) = None ->
  let id := DB.next_rowid (accounts.users_seq d)
                          (map User.ID (accounts.users d)) in
  accounts.registerHandler jwt_Generate now (inr hash) d req
  = (accounts.mk
       (accounts.users d
        ++ [User.mk id (accounts.req_Username req) hash now true])
       id,
     match jwt_Generate id (accounts.req_Username req) with
     | inl _ => server.jsonError "failed to generate token" 500
     | inr (token, expiresAt) =>
         server.jsonResponse
           (accounts.mkLoginResponse token (Unix expiresAt) id
                                     (accounts.req_Username req))
           201
     end).
Proof.
  intros Hu Hp Hlen Hnew id. unfold accounts.registerHandler.
  destruct (String.eqb_spec (accounts.req_Username req) ""); [contradiction|].
  destruct (String.eqb_spec (accounts.req_Password req) ""); [contradiction|].
  cbn [orb].
  destruct (Z.ltb_spec (Z.of_nat (String.length (accounts.req_Password req))) 8);
    [lia|].
  rewrite Hnew. unfold accounts.CreateUser.
  rewrite (proj1 (GetUserByUsername_none _ _ Hnew)).
  fold id. cbn [User.ID User.Username].
  destruct (jwt_Generate id (accounts.req_Username req)) as [err | [token expiresAt]];
    reflexivity.
Qed.

(** X25.  Registration.  A request with an empty name or password, a
    password of fewer than 8 bytes, or a name already stored is refused
    with a 400, 400 or 409 and the table is left as it was, and so it is
    when hashing fails.  Otherwise one user is appended, active, under a
    fresh id, holding the hash and not the password; the answer is a 201
    naming that id when a token can be made, and a 500 after which the
    account exists all the same when it cannot.  Whatever the request,
    distinct names stay distinct and distinct ids stay distinct. *)
Theorem registration_validates_and_keeps_names_unique (now : Time)
    (hashed : error + string) (d : accounts.t) (req : accounts.LoginRequest) :
  let out := accounts.registerHandler jwt_Generate now hashed d req in
  let username := accounts.req_Username req in
  let password := accounts.req_Password req in
  (username = "" \/ password = "" ->
   out = (d, server.jsonError "username and password required" 400))
  /\ (username <> "" -> password <> "" ->
      Z.of_nat (String.length password) < 8 ->
      out = (d, server.jsonError "password must be at least 8 characters" 400))
  /\ (username <> "" -> password <> "" ->
      8 <= Z.of_nat (String.length password) ->
      forall user, accounts.GetUserByUsername d username = Some user ->
                   out = (d, server.jsonError "username already exists" 409))
  /\ (forall err, hashed = inl err -> fst out = d)
  /\ (forall hash,
        hashed = inr hash ->
        username <> "" -> password <> "" ->
        8 <= Z.of_nat (String.length password) ->
        accounts.GetUserByUsername d username = None ->
        exists id,
          (forall u, In u (accounts.users d) -> User.ID u < id)
          /\ accounts.users (fst out)
             = accounts.users d ++ [User.mk id username hash now true]
          /\ accounts.GetUserByUsername (fst out) username
             = Some (User.mk id username hash now true)
          /\ match jwt_Generate id username with
             | inl _ => snd out = server.jsonError "failed to generate token" 500
             | inr (token, expiresAt) =>
                 snd out
                 = server.jsonResponse
                     (accounts.mkLoginResponse token (Unix expiresAt) id username)
                     201
             end)
  /\ (NoDup (map User.Username (accounts.users d)) ->
      NoDup (map User.Username (accounts.users (fst out))))
  /\ (NoDup (map User.ID (accounts.users d)) ->
      NoDup (map User.ID (accounts.users (fst out)))).
Proof.
  intros out username password.
  assert (Hsame_or_new :
            fst out = d
            \/ exists hash,
                 accounts.GetUserByUsername d username = None
                 /\ accounts.users (fst out)
                    = accounts.users d
                      ++ [User.mk (DB.next_rowid (accounts.users_seq d)
                                     (map User.ID (accounts.users d)))
                                  username hash now true]).
  { unfold out, accounts.registerHandler. fold username password.
    destruct (String.eqb username "" || String.eqb password ""); [left; reflexivity|].
    destruct (Z.of_nat (String.length password) <? 8); [left; reflexivity|].
    destruct (accounts.GetUserByUsername d username) as [user|] eqn:E;
      [left; reflexivity|].
    unfold accounts.CreateUser. destruct hashed as [err | hash]; [left; reflexivity|].
    rewrite (proj1 (GetUserByUsername_none _ _ E)).
    right. exists hash. split; [reflexivity|].
    cbn [User.ID User.Username].
    destruct (jwt_Generate _ username) as [err | [token expiresAt]]; reflexivity. }
  split; [|split; [|split; [|split; [|split; [|split]]]]].
  - intros Hempty. unfold out, accounts.registerHandler. fold username password.
    destruct Hempty as [-> | ->]; simpl; [reflexivity|].
    rewrite orb_true_r. reflexivity.
  - intros Hu Hp Hshort. unfold out, accounts.registerHandler.
    fold username password.
    destruct (String.eqb_spec username ""); [contradiction|].
    destruct (String.eqb_spec password ""); [contradiction|].
    cbn [orb]. apply Z.ltb_lt in Hshort. rewrite Hshort. reflexivity.
  - intros Hu Hp Hlen user Huser. unfold out, accounts.registerHandler.
    fold username password.
    destruct (String.eqb_spec username ""); [contradiction|].
    destruct (String.eqb_spec password ""); [contradiction|].
    cbn [orb]. destruct (Z.ltb_spec (Z.of_nat (String.length password)) 8); [lia|].
    rewrite Huser. reflexivity.
  - intros err ->. unfold out, accounts.registerHandler. fold username password.
    destruct (String.eqb username "" || String.eqb password ""); [reflexivity|].
    destruct (Z.of_nat (String.length password) <? 8); [reflexivity|].
    destruct (accounts.GetUserByUsername d username); reflexivity.
  - intros hash -> Hu Hp Hlen Hnew.
    exists (DB.next_rowid (accounts.users_seq d) (map User.ID (accounts.users d))).
    unfold out. rewrite (registerHandler_accepts now hash d req Hu Hp Hlen Hnew).
    cbn [fst snd accounts.users]. fold username.
    split; [intros u Hin; apply next_rowid_fresh, in_map; exact Hin|].
    split; [reflexivity|]. split.
    + unfold accounts.GetUserByUsername. cbn [accounts.users].
      rewrite find_app_none by exact Hnew. simpl.
      rewrite String.eqb_refl. reflexivity.
    + destruct (jwt_Generate _ username) as [err | [token expiresAt]]; reflexivity.
  - intros Hnd. destruct Hsame_or_new as [-> | (hash & Hnew & ->)]; [exact Hnd|].
    rewrite map_app. simpl.
    apply (Permutation_NoDup (Permutation_cons_append _ _)).
    constructor; [|exact Hnd]. apply (GetUserByUsername_none _ _ Hnew).
  - intros Hnd. destruct Hsame_or_new as [-> | (hash & Hnew & ->)]; [exact Hnd|].
    rewrite map_app. simpl.
    apply (Permutation_NoDup (Permutation_cons_append _ _)).
    constructor; [|exact Hnd].
    intros Hin. apply (next_rowid_fresh (accounts.users_seq d)) in Hin. lia.
Qed.


End Accounts.

Lemma split_space_spec (s a b : string) :
  accounts.split_space s = Some (a, b) -> s = (a ++ " " ++ b)%string.
Proof.
  revert a. induction s as [|c s IH]; simpl; intros a H; [discriminate|].
  destruct (Ascii.eqb_spec c " "%char) as [-> | Hc].
  - injection H as <- <-. reflexivity.
  - destruct (accounts.split_space s) as [[a' b']|]; [|discriminate].
    injection H as <- <-. simpl. f_equal. apply IH. reflexivity.
Qed.

(** X27.  The middleware passes a request exactly when its
    [Authorization] header is the word Bearer, one space and a token the
    JWT manager validates for the id of a stored, active user; the user
    put in the context is that user.  Every refusal is a 401, a disabled
    account included. *)
Theorem authMiddleware_passes_valid_tokens_of_active_users
    (jwt_Validate : string -> option Z) (d : accounts.t) (authHeader : string) :
  (forall user,
     accounts.authMiddleware jwt_Validate d authHeader = inr user
     <-> exists token userID,
           authHeader = ("Bearer " ++ token)%string
           /\ jwt_Validate token = Some userID
           /\ accounts.GetUserByID d userID = Some user
           /\ User.Active user = true)
  /\ (forall answer,
        accounts.authMiddleware jwt_Validate d authHeader = inl answer ->
        exists message, answer = server.jsonError message 401).
Proof.
  split.
  - intros user. split.
    + unfold accounts.authMiddleware. intros H.
      destruct (String.eqb authHeader ""); [discriminate|].
      destruct (accounts.split_space authHeader) as [[scheme token]|] eqn:Es;
        [|discriminate].
      destruct (String.eqb_spec scheme "Bearer") as [-> | Hs]; [|discriminate].
      cbn [negb] in H.
      destruct (jwt_Validate token) as [userID|] eqn:Ev; [|discriminate].
      destruct (accounts.GetUserByID d userID) as [u|] eqn:Eu; [|discriminate].
      destruct (User.Active u) eqn:Ea; [|discriminate].
      injection H as <-. exists token, userID.
      split; [apply split_space_spec in Es; exact Es|]. tauto.
    + intros (token & userID & -> & Hv & Hu & Ha).
      unfold accounts.authMiddleware. simpl. rewrite Hv, Hu, Ha. reflexivity.
  - intros answer. unfold accounts.authMiddleware.
    destruct (String.eqb authHeader ""); [intros [= <-]; eexists; reflexivity|].
    destruct (accounts.split_space authHeader) as [[scheme token]|];
      [|intros [= <-]; eexists; reflexivity].
    destruct (negb (String.eqb scheme "Bearer"));
      [intros [= <-]; eexists; reflexivity|].
    destruct (jwt_Validate token) as [userID|];
      [|intros [= <-]; eexists; reflexivity].
    destruct (accounts.GetUserByID d userID) as [u|];
      [|intros [= <-]; eexists; reflexivity].
    destruct (User.Active u); [discriminate | intros [= <-]; eexists; reflexivity].
Qed.


(** ** The tag editor *)

Lemma bytes_text (l : list ascii) : go_strings.bytes (go_strings.text l) = l.
Proof. apply list_ascii_of_string_of_list_ascii. Qed.

Lemma text_bytes (s : string) : go_strings.text (go_strings.bytes s) = s.
Proof. apply string_of_list_ascii_of_string. Qed.

Lemma bytes_app (s t : string) :
  go_strings.bytes (s ++ t) = go_strings.bytes s ++ go_strings.bytes t.
Proof.
  induction s as [|c s IH]; simpl; [reflexivity|].
  unfold go_strings.bytes in *. simpl. rewrite IH. reflexivity.
Qed.

Lemma strip_some (p s r : list ascii) :
  go_strings.strip p s = Some r -> s = p ++ r.
Proof.
  revert s. induction p as [|c p IH]; simpl; intros s H.
  - congruence.
  - destruct s as [|c' s]; [discriminate|].
    destruct (Ascii.eqb_spec c c') as [-> | _]; [|discriminate].
    rewrite (IH s H). reflexivity.
Qed.

Lemma strip_longer (p u v x : list ascii) :
  go_strings.strip p u = Some x -> go_strings.strip p (u ++ v) = Some (x ++ v).
Proof.
  revert u. induction p as [|c p IH]; simpl; intros u H.
  - congruence.
  - destruct u as [|c' u]; [discriminate|]. simpl.
    destruct (Ascii.eqb c c'); [apply IH; exact H | discriminate].
Qed.

Lemma strip_one_more (p u r : list ascii) (c : ascii) :
  go_strings.strip p (u ++ [c]) = Some r ->
  go_strings.strip p u <> None \/ In c p.
Proof.
  revert u. induction p as [|a p IH]; simpl; intros u H.
  - left. discriminate.
  - destruct u as [|b u]; simpl in H.
    + destruct (Ascii.eqb_spec a c) as [-> | _]; [right; left; reflexivity|].
      discriminate.
    + destruct (Ascii.eqb a b); [|discriminate].
      destruct (IH u H) as [Hu | Hc]; [left; exact Hu | right; right; exact Hc].
Qed.

Lemma skip_some (ps : list (list ascii)) (s r : list ascii) :
  go_strings.skip ps s = Some r -> exists p, In p ps /\ s = p ++ r.
Proof.
  induction ps as [|p ps IH]; simpl; intros H; [discriminate|].
  destruct (go_strings.strip p s) as [x|] eqn:E.
  - injection H as ->. exists p. split; [left; reflexivity|].
    apply strip_some. exact E.
  - destruct (IH H) as (q & Hq & Hs). exists q. split; [right; exact Hq | exact Hs].
Qed.

Lemma skip_none (ps : list (list ascii)) (s : list ascii) :
  go_strings.skip ps s = None
  <-> forall p, In p ps -> go_strings.strip p s = None.
Proof.
  induction ps as [|p ps IH]; simpl.
  - split; [intros _ p [] | reflexivity].
  - destruct (go_strings.strip p s) as [x|] eqn:E.
    + split; [discriminate|]. intros H. rewrite <- E. apply H. left. reflexivity.
    + rewrite IH. split.
      * intros H q [<- | Hq]; [exact E | apply H; exact Hq].
      * intros H q Hq. apply H. right. exact Hq.
Qed.

(** What [trim] returns is the end of the text, and begins with no
    pattern. *)
Lemma trim_spec (ps : list (list ascii)) (fuel : nat) (s : list ascii) :
  (forall p, In p ps -> p <> []) ->
  (List.length s <= fuel)%nat ->
  (exists pre, s = pre ++ go_strings.trim ps fuel s)
  /\ go_strings.skip ps (go_strings.trim ps fuel s) = None.
Proof.
  intros Hps. revert s. induction fuel as [|fuel IH]; intros s Hlen.
  - destruct s; [|simpl in Hlen; lia]. simpl. split; [exists []; reflexivity|].
    apply skip_none. intros p Hp. specialize (Hps p Hp).
    destruct p; [contradiction | reflexivity].
  - simpl. destruct (go_strings.skip ps s) as [rest|] eqn:E.
    + destruct (skip_some _ _ _ E) as (p & Hp & ->).
      specialize (Hps p Hp).
      destruct (IH rest) as [[pre Hpre] Hnone].
      * rewrite length_app in Hlen. destruct p; [contradiction|].
        simpl in Hlen. lia.
      * split; [|exact Hnone]. exists (p ++ pre). rewrite <- app_assoc.
        f_equal. exact Hpre.
    + split; [exists []; reflexivity | exact E].
Qed.

Lemma white_space_ok :
  (forall p, In p go_strings.white_space -> p <> [])
  /\ (forall p, In p (map (@rev ascii) go_strings.white_space) -> p <> [])
  /\ forall p, In p (map (@rev ascii) go_strings.white_space) ->
               ~ In "#"%char p.
Proof.
  assert (H : forallb (fun p => negb (Nat.eqb (List.length p) 0)
                                && negb (existsb (Ascii.eqb "#"%char) p))
                      go_strings.white_space = true) by (vm_compute; reflexivity).
  rewrite forallb_forall in H.
  assert (Hp : forall p, In p go_strings.white_space ->
                         p <> [] /\ ~ In "#"%char p).
  { intros p Hin. specialize (H p Hin). apply andb_true_iff in H.
    destruct H as [Hlen Hno]. split.
    - intros ->. discriminate.
    - intros Hc. apply negb_true_iff in Hno.
      assert (existsb (Ascii.eqb "#"%char) p = true).
      { apply existsb_exists. exists "#"%char. split; [exact Hc|].
        apply Ascii.eqb_refl. }
      congruence. }
  split; [intros p Hin; apply Hp; exact Hin|].
  split.
  - intros p Hin. apply in_map_iff in Hin. destruct Hin as (q & <- & Hq).
    destruct (Hp q Hq) as [Hne _]. intros E. apply Hne.
    rewrite <- (rev_involutive q), E. reflexivity.
  - intros p Hin. apply in_map_iff in Hin. destruct Hin as (q & <- & Hq).
    destruct (Hp q Hq) as [_ Hno]. intros Hc. apply Hno.
    apply in_rev. exact Hc.
Qed.

Lemma trim_left_spec (s : list ascii) :
  (exists pre, s = pre ++ go_strings.trim_left s)
  /\ go_strings.skip go_strings.white_space (go_strings.trim_left s) = None.
Proof.
  apply trim_spec; [apply white_space_ok | apply Nat.le_refl].
Qed.

Lemma trim_right_spec (s : list ascii) :
  (exists post, s = go_strings.trim_right s ++ post)
  /\ go_strings.skip (map (@rev ascii) go_strings.white_space)
                     (rev (go_strings.trim_right s)) = None.
Proof.
  unfold go_strings.trim_right.
  destruct (trim_spec (map (@rev ascii) go_strings.white_space)
                      (List.length s) (rev s)) as [[pre Hpre] Hnone].
  - apply white_space_ok.
  - rewrite length_rev. apply Nat.le_refl.
  - rewrite rev_involutive. split; [|exact Hnone].
    exists (rev pre). rewrite <- rev_app_distr, <- Hpre, rev_involutive.
    reflexivity.
Qed.

(** A text that ends with no space is its own right trim. *)
Lemma trim_right_clean (s : list ascii) :
  go_strings.skip (map (@rev ascii) go_strings.white_space) (rev s) = None ->
  go_strings.trim_right s = s.
Proof.
  intros H. unfold go_strings.trim_right.
  destruct (List.length s); cbn [go_strings.trim]; [|rewrite H];
    apply rev_involutive.
Qed.

Lemma skip_rev_hash (t : list ascii) :
  go_strings.skip (map (@rev ascii) go_strings.white_space) (rev t) = None
  <-> go_strings.skip (map (@rev ascii) go_strings.white_space)
                      (rev ("#"%char :: t)) = None.
Proof.
  cbn [rev]. rewrite !skip_none. split; intros H p Hp.
  - destruct (go_strings.strip p (rev t ++ ["#"%char])) as [r|] eqn:E;
      [|reflexivity].
    destruct (strip_one_more _ _ _ _ E) as [Hu | Hc].
    + elim Hu. apply H. exact Hp.
    + elim (proj2 (proj2 white_space_ok) p Hp Hc).
  - destruct (go_strings.strip p (rev t)) as [r|] eqn:E; [|reflexivity].
    specialize (H p Hp). rewrite (strip_longer _ _ ["#"%char] _ E) in H.
    discriminate.
Qed.

Lemma tag_of_bytes (piece : string) :
  go_strings.bytes (tag_editor.tag_of piece)
  = match go_strings.strip ["#"%char]
            (go_strings.trim_right (go_strings.trim_left (go_strings.bytes piece)))
    with
    | Some rest => rest
    | None => go_strings.trim_right (go_strings.trim_left (go_strings.bytes piece))
    end.
Proof.
  unfold tag_editor.tag_of, go_strings.TrimPrefix, go_strings.TrimSpace.
  rewrite bytes_text. change (go_strings.bytes "#") with ["#"%char].
  destruct (go_strings.strip _ _); apply bytes_text.
Qed.

Lemma bytes_empty (s : string) : go_strings.bytes s = [] -> s = "".
Proof. destruct s; [reflexivity | discriminate]. Qed.

Lemma clean_end (t : list ascii) :
  go_strings.trim_right t = t
  <-> go_strings.skip (map (@rev ascii) go_strings.white_space) (rev t) = None.
Proof.
  split; [|apply trim_right_clean].
  intros H. rewrite <- H at 1. apply trim_right_spec.
Qed.

Lemma tag_of_kept (piece : string) :
  ~ In ";"%char (go_strings.bytes piece) ->
  tag_editor.tag_of piece <> "" ->
  tag_editor.kept (tag_editor.tag_of piece).
Proof.
  intros Hsemi Hne. split; [exact Hne|].
  rewrite tag_of_bytes.
  destruct (trim_left_spec (go_strings.bytes piece)) as [[pre Hpre] _].
  destruct (trim_right_spec (go_strings.trim_left (go_strings.bytes piece)))
    as [[post Hpost] Hclean].
  set (u := go_strings.trim_right (go_strings.trim_left (go_strings.bytes piece)))
    in *.
  assert (Hu : forall c, In c u -> In c (go_strings.bytes piece)).
  { intros c Hc. rewrite Hpre, Hpost. apply in_or_app. right.
    apply in_or_app. left. exact Hc. }
  destruct (go_strings.strip ["#"%char] u) as [rest|] eqn:E.
  - apply strip_some in E. simpl in E. split.
    + intros Hc. apply Hsemi, Hu. rewrite E. right. exact Hc.
    + apply (proj2 (clean_end _)), (proj2 (skip_rev_hash _)).
      rewrite <- E. exact Hclean.
  - split; [intros Hc; apply Hsemi, Hu; exact Hc|].
    apply (proj2 (clean_end _)). exact Hclean.
Qed.

Lemma tag_of_hash (t : string) :
  tag_editor.kept t -> tag_editor.tag_of ("#" ++ t) = t.
Proof.
  intros (_ & _ & Hclean).
  rewrite <- (text_bytes (tag_editor.tag_of ("#" ++ t))), tag_of_bytes.
  change (go_strings.bytes ("#" ++ t)) with ("#"%char :: go_strings.bytes t).
  assert (Hleft : go_strings.trim_left ("#"%char :: go_strings.bytes t)
                  = "#"%char :: go_strings.bytes t).
  { unfold go_strings.trim_left. cbn [List.length go_strings.trim].
    assert (Hskip : go_strings.skip go_strings.white_space
                      ("#"%char :: go_strings.bytes t) = None).
    { apply skip_none. intros p Hp.
      assert (Hall : forallb (fun p => match p with
                                       | c :: _ => negb (Ascii.eqb c "#"%char)
                                       | [] => false
                                       end)
                             go_strings.white_space = true)
        by (vm_compute; reflexivity).
      rewrite forallb_forall in Hall. specialize (Hall p Hp).
      destruct p as [|c p]; [discriminate|]. simpl.
      apply negb_true_iff in Hall. rewrite Hall. reflexivity. }
    rewrite Hskip. reflexivity. }
  rewrite Hleft.
  rewrite trim_right_clean.
  - simpl. apply text_bytes.
  - apply (proj1 (skip_rev_hash _)), (proj1 (clean_end _)). exact Hclean.
Qed.

Lemma split_bytes_nonempty (sep : ascii) (s : list ascii) :
  go_strings.split_bytes sep s <> [].
Proof.
  induction s as [|c s IH]; simpl; [discriminate|].
  destruct (Ascii.eqb c sep); [discriminate|].
  destruct (go_strings.split_bytes sep s); discriminate.
Qed.

Lemma split_bytes_pieces (sep : ascii) (s piece : list ascii) :
  In piece (go_strings.split_bytes sep s) -> ~ In sep piece.
Proof.
  revert piece. induction s as [|c s IH]; simpl; intros piece Hin.
  - destruct Hin as [<- | []]. intros [].
  - destruct (Ascii.eqb_spec c sep) as [-> | Hc].
    + destruct Hin as [<- | Hin]; [intros [] | apply IH; exact Hin].
    + destruct (go_strings.split_bytes sep s) as [|q qs] eqn:E.
      * destruct Hin as [<- | []]. intros [H | []]. congruence.
      * destruct Hin as [<- | Hin].
        -- intros [H | H]; [congruence|]. apply (IH q); [left; reflexivity | exact H].
        -- apply IH. right. exact Hin.
Qed.

Lemma split_bytes_concat (sep : ascii) (p : list ascii) (ps : list (list ascii)) :
  ~ In sep p ->
  (forall q, In q ps -> ~ In sep q) ->
  go_strings.split_bytes sep (p ++ List.concat (map (cons sep) ps)) = p :: ps.
Proof.
  revert p. induction ps as [|q ps IH]; intros p Hp Hps.
  - simpl. rewrite app_nil_r. induction p as [|c p IHp]; simpl; [reflexivity|].
    destruct (Ascii.eqb_spec c sep) as [-> | _]; [elim Hp; left; reflexivity|].
    rewrite IHp; [reflexivity|]. intros H. apply Hp. right. exact H.
  - induction p as [|c p IHp].
    + simpl. rewrite Ascii.eqb_refl. f_equal. apply IH.
      * apply Hps. left. reflexivity.
      * intros r Hr. apply Hps. right. exact Hr.
    + cbn [app go_strings.split_bytes].
      destruct (Ascii.eqb_spec c sep) as [-> | _]; [elim Hp; left; reflexivity|].
      rewrite IHp; [reflexivity|]. intros H. apply Hp. right. exact H.
Qed.

Lemma show_step_bytes (ts : list string) (acc : string) :
  acc <> "" ->
  go_strings.bytes
    (fold_left (fun tagsStr tag =>
                  ((if negb (String.eqb tagsStr "") then tagsStr ++ ";" else tagsStr)
                   ++ "#" ++ tag)%string)
               ts acc)
  = go_strings.bytes acc
    ++ List.concat (map (cons ";"%char)
                   (map (fun t => "#"%char :: go_strings.bytes t) ts)).
Proof.
  revert acc. induction ts as [|t ts IH]; intros acc Hacc.
  - simpl. rewrite app_nil_r. reflexivity.
  - cbn [fold_left map List.concat].
    destruct (String.eqb_spec acc "") as [E | _]; [contradiction|]. cbn [negb].
    rewrite IH.
    + rewrite !bytes_app. rewrite <- !app_assoc. reflexivity.
    + intros E. apply (f_equal go_strings.bytes) in E.
      rewrite !bytes_app in E. destruct (go_strings.bytes acc); discriminate.
Qed.

Lemma show_bytes (t : string) (ts : list string) :
  go_strings.bytes (tag_editor.show (Some (t :: ts)))
  = ("#"%char :: go_strings.bytes t)
    ++ List.concat (map (cons ";"%char)
                   (map (fun t => "#"%char :: go_strings.bytes t) ts)).
Proof.
  unfold tag_editor.show. cbn [fold_left]. cbn [String.eqb negb].
  rewrite show_step_bytes; [reflexivity | discriminate].
Qed.

Lemma filter_nonempty_kept (tags : list string) :
  (forall t, In t tags -> tag_editor.kept t) ->
  filter (fun t => negb (String.eqb t "")) tags = tags.
Proof.
  intros H. apply filter_all. intros t Ht. destruct (H t Ht) as [Hne _].
  apply negb_true_iff, String.eqb_neq. exact Hne.
Qed.

Lemma parse_show_kept (tags : list string) :
  tags <> [] ->
  (forall t, In t tags -> tag_editor.kept t) ->
  tag_editor.parse (tag_editor.show (Some tags)) = Some tags.
Proof.
  intros Hne Hkept. destruct tags as [|t ts]; [contradiction|].
  unfold tag_editor.parse, go_strings.Split. rewrite show_bytes.
  rewrite (split_bytes_concat ";"%char).
  - rewrite map_map.
    assert (Hmap : map (fun x => tag_editor.tag_of (go_strings.text x))
                       (("#"%char :: go_strings.bytes t)
                        :: map (fun t => "#"%char :: go_strings.bytes t) ts)
                   = t :: ts).
    { change (("#"%char :: go_strings.bytes t)
              :: map (fun t => "#"%char :: go_strings.bytes t) ts)
        with (map (fun t => "#"%char :: go_strings.bytes t) (t :: ts)).
      rewrite map_map. rewrite <- (map_id (t :: ts)) at 2.
      apply map_ext_in. intros x Hx.
      change (go_strings.text ("#"%char :: go_strings.bytes x))
        with (String "#"%char (go_strings.text (go_strings.bytes x))).
      rewrite text_bytes. apply (tag_of_hash x). apply Hkept. exact Hx. }
    rewrite Hmap. rewrite filter_nonempty_kept by exact Hkept. reflexivity.
  - intros [H | H]; [discriminate|].
    apply (Hkept t (or_introl eq_refl)). exact H.
  - intros q Hq. apply in_map_iff in Hq. destruct Hq as (x & <- & Hx).
    intros [H | H]; [discriminate|].
    apply (Hkept x (or_intror Hx)). exact H.
Qed.

Lemma parse_kept (tagsStr : string) (t : string) :
  In t (filter (fun t => negb (String.eqb t ""))
               (map tag_editor.tag_of (go_strings.Split tagsStr ";"%char))) ->
  tag_editor.kept t.
Proof.
  intros Hin. apply filter_In in Hin. destruct Hin as [Hin Hne].
  apply in_map_iff in Hin. destruct Hin as (piece & <- & Hpiece).
  apply tag_of_kept.
  - unfold go_strings.Split in Hpiece. apply in_map_iff in Hpiece.
    destruct Hpiece as (pb & <- & Hpb). rewrite bytes_text.
    apply (split_bytes_pieces _ _ _ Hpb).
  - apply String.eqb_neq. apply negb_true_iff. exact Hne.
Qed.

(** X28.  Tags survive the editor.  Every tag [saveTags] reads from the
    text is not empty, holds no semicolon and ends with no white space,
    and a text that stands for no tag gives the nil slice.  Opening the
    editor on tags read this way and saving the text it shows, untouched,
    gives the same tags again, provided the text field hands back the text
    it was given. *)
Theorem tags_survive_the_editor (tagsStr : string) :
  tag_editor.parse (tag_editor.show (tag_editor.parse tagsStr))
  = tag_editor.parse tagsStr
  /\ (forall tags,
        tag_editor.parse tagsStr = Some tags ->
        tags <> [] /\ forall tag, In tag tags -> tag_editor.kept tag)
  /\ (forall tags,
        tags <> [] -> (forall tag, In tag tags -> tag_editor.kept tag) ->
        tag_editor.parse (tag_editor.show (Some tags)) = Some tags)
  /\ tag_editor.parse "" = None.
Proof.
  assert (Hparse : forall tags,
            tag_editor.parse tagsStr = Some tags ->
            tags <> [] /\ forall tag, In tag tags -> tag_editor.kept tag).
  { intros tags Htags. unfold tag_editor.parse in Htags.
    pose proof (parse_kept tagsStr) as Hk.
    destruct (filter _ (map tag_editor.tag_of (go_strings.Split tagsStr ";"%char)))
      as [|t ts]; [discriminate|].
    injection Htags as <-. split; [discriminate | exact Hk]. }
  split; [|split; [exact Hparse | split; [exact parse_show_kept | reflexivity]]].
  destruct (tag_editor.parse tagsStr) as [tags|] eqn:E; [|reflexivity].
  destruct (Hparse tags eq_refl) as [Hne Hkept].
  apply parse_show_kept; assumption.
Qed.

(** ** A note is found by its own words *)

Lemma string_app_assoc (a b c : string) :
  ((a ++ b) ++ c)%string = (a ++ b ++ c)%string.
Proof.
  induction a as [|x a IH]; simpl; [reflexivity | rewrite IH; reflexivity].
Qed.

Lemma string_app_nil_r (a : string) : (a ++ "")%string = a.
Proof.
  induction a as [|x a IH]; simpl; [reflexivity | rewrite IH; reflexivity].
Qed.

(** A pattern followed by [%] matches every text that begins with the
    pattern taken literally, wildcards of its own included. *)
Lemma like_literal (q post : string) :
  sqlite.like (q ++ "%") (q ++ post) = true.
Proof.
  induction q as [|c q IH].
  - apply like_percent.
  - cbn [append sqlite.like].
    destruct (Ascii.eqb c sqlite.percent) eqn:Ep.
    + apply star_spec; [apply Nat.le_refl|].
      exists (q ++ post)%string. split; [|exact IH].
      apply (char_suffix_skip _ (q ++ post)%string); [|constructor].
      apply Ascii.eqb_eq in Ep. subst c. reflexivity.
    + destruct (Ascii.eqb c sqlite.underscore) eqn:Eu.
      * apply Ascii.eqb_eq in Eu. subst c. exact IH.
      * rewrite Ascii.eqb_refl. exact IH.
Qed.

Lemma skip_cont_app (pre s : string) (c : ascii) :
  (128 <=? sqlite.byte c) && (sqlite.byte c <? 192) = false ->
  sqlite.skip_cont (pre ++ String c s) = (sqlite.skip_cont pre ++ String c s)%string.
Proof.
  intros Hc. induction pre as [|b pre IH]; simpl.
  - rewrite Hc. reflexivity.
  - destruct ((128 <=? sqlite.byte b) && (sqlite.byte b <? 192));
      [exact IH | reflexivity].
Qed.

(** A byte that continues no character begins one: the text from such a
    byte on is reached in whole characters, whatever bytes precede it. *)
Lemma char_suffix_at_start (pre s : string) (c : ascii) :
  (128 <=? sqlite.byte c) && (sqlite.byte c <? 192) = false ->
  char_suffix (pre ++ String c s) (String c s).
Proof.
  intros Hc.
  remember (String.length pre) as n eqn:Hn.
  assert (Hle : (String.length pre <= n)%nat) by lia. clear Hn.
  revert pre Hle. induction n as [|n IH]; intros pre Hle.
  - destruct pre; [constructor | simpl in Hle; lia].
  - destruct pre as [|b pre]; [constructor|]. simpl in Hle.
    apply (char_suffix_skip _
             ((if (192 <=? sqlite.byte b)%Z then sqlite.skip_cont pre else pre)
              ++ String c s)%string).
    + simpl. destruct (192 <=? sqlite.byte b); [|reflexivity].
      rewrite (skip_cont_app pre s c Hc). reflexivity.
    + apply IH. destruct (192 <=? sqlite.byte b); [|lia].
      pose proof (skip_cont_length pre). lia.
Qed.

(** The pattern between two [%] finds itself wherever it stands, when it
    begins with a byte that begins a character. *)
Lemma like_finds_itself (pre q post : string) (c : ascii) :
  (128 <=? sqlite.byte c) && (sqlite.byte c <? 192) = false ->
  sqlite.like ("%" ++ String c q ++ "%") (pre ++ String c q ++ post) = true.
Proof.
  intros Hc.
  change ("%" ++ String c q ++ "%")%string with (String "%" (String c q ++ "%")).
  cbn [sqlite.like]. change (Ascii.eqb "%" sqlite.percent) with true. cbv iota.
  apply star_spec; [apply Nat.le_refl|].
  exists (String c q ++ post)%string. split; [|apply like_literal].
  apply (char_suffix_at_start pre (q ++ post) c Hc).
Qed.

Lemma like_whole (q : string) : sqlite.like ("%" ++ q ++ "%") q = true.
Proof.
  change ("%" ++ q ++ "%")%string with (String "%" (q ++ "%")).
  cbn [sqlite.like]. change (Ascii.eqb "%" sqlite.percent) with true. cbv iota.
  apply star_spec; [apply Nat.le_refl|].
  exists q. split; [constructor|].
  pose proof (like_literal q "") as H.
  rewrite string_app_nil_r in H. exact H.
Qed.

Lemma join_holds (l : list string) (tag : string) :
  In tag l ->
  exists pre post,
    plain_json.join l
    = (pre ++ String (ascii_of_nat 34) (tag ++ DB.quote) ++ post)%string.
Proof.
  induction l as [|x l IH]; intros Hin; [contradiction|].
  destruct Hin as [-> | Hin].
  - destruct l as [|y l].
    + exists "", "". cbn [plain_json.join]. unfold DB.quote. cbn [append].
      rewrite string_app_nil_r. reflexivity.
    + exists "", ("," ++ plain_json.join (y :: l))%string.
      cbn [plain_json.join]. unfold DB.quote. cbn [append].
      rewrite !string_app_assoc. reflexivity.
  - destruct (IH Hin) as (pre & post & Hj).
    destruct l as [|y l]; [contradiction|].
    exists (DB.quote ++ x ++ DB.quote ++ "," ++ pre)%string, post.
    change (plain_json.join (x :: y :: l))
      with (DB.quote ++ x ++ DB.quote ++ "," ++ plain_json.join (y :: l))%string.
    rewrite Hj. rewrite !string_app_assoc. reflexivity.
Qed.

Section OwnWords.
Context {codec : JSON}.

(** X29.  A note is found by its own words.  After [UpdateNote] of a note
    that is not deleted, a search for the exact title finds it, and so
    does a search for the exact content, also when they hold [%] or [_];
    and when the encoder writes the tags without escapes, a search by any
    one of the tags, or by the title and all the tags together, finds
    it. *)
Theorem note_is_found_by_its_own_words (now : Time) (d : DB.t) (id : Z)
    (title content : string) (tags : list string) (r : NoteRow.t) :
  DB.find_note d id = Some r ->
  NoteRow.deleted r = false ->
  json_Marshal (Some tags) = plain_json.Marshal (Some tags) ->
  let d' := DB.UpdateNote now d id title content (Some tags) in
  let item := NoteListItem.mk id title now SyncStatusPending "" in
  In item (DB.SearchNotes d' title [])
  /\ In item (DB.SearchNotes d' content [])
  /\ In item (DB.SearchNotes d' "" [])
  /\ (forall tag, In tag tags -> In item (DB.SearchNotes d' "" [tag]))
  /\ In item (DB.SearchNotes d' title tags).
Proof.
  intros Hr Hlive Hcodec d' item.
  pose proof (UpdateNote_row now d id title content (Some tags) r Hr) as Hrow.
  fold d' in Hrow. apply find_some in Hrow. destruct Hrow as [Hin _].
  set (row := NoteRow.mk id title content (json_Marshal (Some tags))
                (NoteRow.password r) (NoteRow.parent_folder_id r)
                (NoteRow.created_at r) now (NoteRow.server_id r)
                SyncStatusPending (NoteRow.deleted r)) in *.
  assert (Hfound : forall query ts,
            DB.search_where query ts row = true ->
            In item (DB.SearchNotes d' query ts)).
  { intros query ts Hw. apply listed_row. exists row.
    split; [exact Hin|]. split; [exact Hw | reflexivity]. }
  assert (Htag : forall tag, In tag tags ->
            sqlite.like ("%" ++ DB.quote ++ tag ++ DB.quote ++ "%")
                        (NoteRow.tags row) = true).
  { intros tag Htag. cbn [row NoteRow.tags]. rewrite Hcodec.
    destruct (join_holds tags tag Htag) as (pre & post & Hj).
    unfold plain_json.Marshal. rewrite Hj.
    change (DB.quote ++ tag ++ DB.quote ++ "%")%string
      with (String (ascii_of_nat 34) (tag ++ DB.quote ++ "%")).
    replace (tag ++ DB.quote ++ "%")%string with ((tag ++ DB.quote) ++ "%")%string
      by apply string_app_assoc.
    replace ("[" ++ (pre ++ String (ascii_of_nat 34) (tag ++ DB.quote) ++ post)
             ++ "]")%string
      with (("[" ++ pre) ++ String (ascii_of_nat 34) (tag ++ DB.quote)
            ++ (post ++ "]"))%string.
    - apply like_finds_itself. reflexivity.
    - rewrite !string_app_assoc. simpl. rewrite !string_app_assoc. reflexivity. }
  assert (Htags : forall ts, (forall tag, In tag ts -> In tag tags) ->
            forallb (fun tag =>
                       sqlite.like ("%" ++ DB.quote ++ tag ++ DB.quote ++ "%")
                                   (NoteRow.tags row)) ts = true).
  { intros ts Hsub. apply forallb_forall. intros tag Ht. apply Htag, Hsub, Ht. }
  assert (Hwhere : forall query ts,
            (query = "" \/ query = title \/ query = content) ->
            (forall tag, In tag ts -> In tag tags) ->
            DB.search_where query ts row = true).
  { intros query ts Hq Hsub. unfold DB.search_where.
    cbn [row NoteRow.deleted NoteRow.title NoteRow.content]. rewrite Hlive.
    rewrite (Htags ts Hsub). cbn [negb andb]. rewrite andb_true_r.
    destruct (String.eqb_spec query ""); [reflexivity|].
    destruct Hq as [-> | [-> | ->]]; [contradiction | |].
    - rewrite like_whole. reflexivity.
    - rewrite like_whole. apply orb_true_r. }
  split; [apply Hfound, Hwhere; [tauto | intros tag []]|].
  split; [apply Hfound, Hwhere; [tauto | intros tag []]|].
  split; [apply Hfound, Hwhere; [tauto | intros tag []]|].
  split.
  - intros tag Htg. apply Hfound, Hwhere; [tauto|].
    intros t [<- | []]. exact Htg.
  - apply Hfound, Hwhere; [tauto | tauto].
Qed.

End OwnWords.

Lemma note_is_found_by_its_own_words_witness :
  In (NoteListItem.mk 1 "100%_done" (time_Unix 700) SyncStatusPending "")
     (DB.SearchNotes
        (DB.UpdateNote (time_Unix 700) sample.local_db 1 "100%_done" "body"
                       (Some ["work"; "a_b"]))
        "" ["a_b"]).
Proof.
  destruct (note_is_found_by_its_own_words (time_Unix 700) sample.local_db 1
              "100%_done" "body" ["work"; "a_b"] sample.note_A)
    as (_ & _ & _ & H & _); [reflexivity | reflexivity | reflexivity |].
  apply H. right. left. reflexivity.
Defined.

(** ** Version rows of the remote store *)

(** X30.  [UpsertVersion] has no owner in its conflict clause.  Called
    with the id of a version row the table holds, for whatever user, it
    puts the title, content, tags and hash of the call on that row, which
    keeps its owner, its note and its number: the owner's next
    [ListVersionsByNote] returns the row with the caller's values (the
    row's stamp is one the driver reads back as written).  Notes and
    folders are not touched.  (No handler of the server calls
    [UpsertVersion], and no route leads to it.) *)
Theorem UpsertVersion_rewrites_rows_of_any_owner
    (fresh : string) (d : ServerDB.t) (user : Z) (v : ServerNoteVersion.t)
    (noteID title content tags hash : string) (versionNum : Z) (createdAt : Time) :
  In v (ServerDB.note_versions d) ->
  ServerNoteVersion.ID v <> "" ->
  sqlite.reads_back (ServerNoteVersion.CreatedAt v) = true ->
  let d' := fst (ServerDB.UpsertVersion fresh d user (ServerNoteVersion.ID v)
                   noteID title content tags hash versionNum createdAt) in
  let v' := ServerNoteVersion.mk (ServerNoteVersion.ID v)
              (ServerNoteVersion.NoteID v) (ServerNoteVersion.UserID v)
              title content tags hash (ServerNoteVersion.VersionNum v)
              (ServerNoteVersion.CreatedAt v) in
  In v' (ServerDB.note_versions d')
  /\ In v' (ServerDB.ListVersionsByNote d' (ServerNoteVersion.NoteID v)
              (ServerNoteVersion.UserID v))
  /\ List.length (ServerDB.note_versions d')
     = List.length (ServerDB.note_versions d)
  /\ ServerDB.notes d' = ServerDB.notes d
  /\ ServerDB.folders d' = ServerDB.folders d.
Proof.
  intros Hin Hid _ d' v'.
  assert (Hd : ServerDB.note_versions d'
               = map (fun w =>
                        if String.eqb (ServerNoteVersion.ID w)
                                      (ServerNoteVersion.ID v)
                        then ServerNoteVersion.mk (ServerNoteVersion.ID w)
                               (ServerNoteVersion.NoteID w)
                               (ServerNoteVersion.UserID w)
                               title content tags hash
                               (ServerNoteVersion.VersionNum w)
                               (ServerNoteVersion.CreatedAt w)
                        else w)
                     (ServerDB.note_versions d)).
  { unfold d', ServerDB.UpsertVersion, ServerDB.mint.
    apply String.eqb_neq in Hid. rewrite Hid. cbn [fst ServerDB.note_versions].
    assert (He : existsb (fun w => String.eqb (ServerNoteVersion.ID w)
                                              (ServerNoteVersion.ID v))
                         (ServerDB.note_versions d) = true).
    { apply existsb_exists. exists v. split; [exact Hin | apply String.eqb_refl]. }
    rewrite He. reflexivity. }
  assert (Hv' : In v' (ServerDB.note_versions d')).
  { rewrite Hd. apply in_map_iff. exists v. split; [|exact Hin].
    rewrite String.eqb_refl. reflexivity. }
  split; [exact Hv'|]. split.
  - unfold ServerDB.ListVersionsByNote, sqlite.order_by_desc.
    apply In_order_by, filter_In. split; [exact Hv'|].
    unfold v'. cbn [ServerNoteVersion.NoteID ServerNoteVersion.UserID].
    rewrite String.eqb_refl, Z.eqb_refl. reflexivity.
  - split; [rewrite Hd; apply length_map|].
    unfold d', ServerDB.UpsertVersion. split; reflexivity.
Qed.

(** Bob (user 2) names the id of Alice's version (user 1): Alice's next
    read of her history returns Bob's title, content, tags and hash under
    her own row. *)
Lemma UpsertVersion_rewrites_rows_of_any_owner_witness :
  In (ServerNoteVersion.mk "v1" "n1" 1 "bob title" "bob body" "[bob]"
                           "000000000000" 1 (time_Unix 20))
     (ServerDB.ListVersionsByNote
        (fst (ServerDB.UpsertVersion "u-1" remote_sample.store 2 "v1" "n9"
                "bob title" "bob body" "[bob]" "000000000000" 7 (time_Unix 99)))
        "n1" 1).
Proof.
  apply (UpsertVersion_rewrites_rows_of_any_owner "u-1" remote_sample.store 2
           remote_sample.alice_version "n9" "bob title" "bob body" "[bob]"
           "000000000000" 7 (time_Unix 99)).
  - left. reflexivity.
  - discriminate.
  - reflexivity.
Defined.
